(** * CPUsim: the two-pass assembler and the 16-bit simulator

    A shallow embedding of the two profiles of the tool chain:

    - the _simple_ profile: three registers [A], [B], [C], 9-bit
      immediates, labels addressed by line number
      (first assembler in [assembler.c], simulator with [MEMORY_SIZE 64]);
    - the _extended_ profile: eight registers [EAX] .. [ESP], flags, a stack,
      8-bit immediates and base+offset moves
      (second assembler in [assembler.c], simulator with [MEMORY_SIZE 256]).

    C [int] is a 32-bit two's complement integer, modelled as a [Z] that is
    wrapped back into range after every arithmetic operation; [uint16_t] is a
    [Z] kept below [2^16].  Global variables become fields of an explicit
    machine state; [printf]/[fprintf] become entries of a log, and the
    standard input is the string of the characters that are not read yet,
    from which [scanf] and [getchar] take theirs.  An instruction returns
    the next program counter, or does not return ([INP] once the input has
    ended), or has no defined result.

    What C leaves undefined stays outside the model: character buffers are
    taken to be large enough for what is copied into them, and [atoi] of a
    literal that does not fit an [int] is the mathematical value; sums,
    differences and products wrap around, while the quotient of the least
    [int] by [-1] and a typed number that does not fit an [int] have no
    result.  The two
    passes of the assembler start from the loaded lines; the loader of the
    source file (comment and blank-line removal) is modelled on its own, in
    [Loader].  Writing and loading the binary file is not modelled: the
    simulator starts from the loaded words. *)

From Stdlib Require Import ZArith String Ascii List Bool Lia.
From stdpp Require Import base list.
Import ListNotations.

Local Open Scope string_scope.
Local Open Scope Z_scope.
Local Open Scope list_scope.

(** ** Machine integers *)

Definition INT_MIN : Z := - 2 ^ 31.
Definition INT_MAX : Z := 2 ^ 31 - 1.

(** Two's complement wrap-around of a mathematical integer into [int]. *)
Definition wrap32 (z : Z) : Z := (z + 2 ^ 31) mod 2 ^ 32 - 2 ^ 31.

Definition in_int (z : Z) : Prop := INT_MIN <= z <= INT_MAX.

(** Conversion to [uint16_t]. *)
Definition u16 (z : Z) : Z := z mod 2 ^ 16.

(** ** The pieces of the C library the assembler uses *)

Module CLib.

Definition code (c : ascii) : N := N_of_ascii c.

Definition between (lo hi : N) (c : ascii) : bool :=
  ((lo <=? code c) && (code c <=? hi))%N.

(** [isspace]: space, and [\t \n \v \f \r]. *)
Definition isspace (c : ascii) : bool :=
  (code c =? 32)%N || between 9 13 c.

Definition isdigit (c : ascii) : bool := between 48 57 c.

Definition isalpha (c : ascii) : bool := between 65 90 c || between 97 122 c.

Definition toupper (c : ascii) : ascii :=
  if between 97 122 c then ascii_of_N (code c - 32) else c.

Fixpoint strupr (s : string) : string :=
  match s with
  | EmptyString => EmptyString
  | String c r => String (toupper c) (strupr r)
  end.

(** First character of a C string ([s[0]]; the terminator when empty). *)
Definition head (s : string) : ascii :=
  match s with
  | EmptyString => zero
  | String c _ => c
  end.

Definition is_empty (s : string) : bool :=
  match s with
  | EmptyString => true
  | String _ _ => false
  end.

(** [strncpy(dst, s, n); dst[n] = 0]: the first [n] characters. *)
Definition strncpy (n : nat) (s : string) : string := substring 0 n s.

(** The suffix that starts at index [n] ([s + n]). *)
Fixpoint skipn (n : nat) (s : string) : string :=
  match n, s with
  | O, _ => s
  | S _, EmptyString => EmptyString
  | S m, String _ r => skipn m r
  end.

(** [strchr]: the index of the first occurrence of [c]. *)
Fixpoint strchr (c : ascii) (s : string) : option nat :=
  match s with
  | EmptyString => None
  | String d r =>
      if Ascii.eqb d c then Some O
      else match strchr c r with
           | Some k => Some (S k)
           | None => None
           end
  end.

(** The loop that advances a pointer over leading white space. *)
Fixpoint skip_spaces (s : string) : string :=
  match s with
  | EmptyString => EmptyString
  | String c r => if isspace c then skip_spaces r else s
  end.

Definition digit_value (c : ascii) : Z := Z.of_N (code c) - 48.

Fixpoint digits (acc : Z) (s : string) : Z :=
  match s with
  | EmptyString => acc
  | String c r => if isdigit c then digits (acc * 10 + digit_value c) r else acc
  end.

(** [atoi]: optional white space, optional sign, then the longest run of
    digits.  C leaves the result undefined when the number does not fit an
    [int]; the model returns the mathematical value. *)
Definition atoi (s : string) : Z :=
  match skip_spaces s with
  | String "-"%char r => - digits 0 r
  | String "+"%char r => digits 0 r
  | t => digits 0 t
  end.

(** The loop that advances over a run of digits. *)
Fixpoint skip_digits (s : string) : string :=
  match s with
  | EmptyString => EmptyString
  | String c r => if isdigit c then skip_digits r else s
  end.

Definition newline : ascii := ascii_of_N 10.

(** [scanf("%d", &input_val)] on the characters of the standard input that
    are not read yet.  White space, newlines included, is skipped; then an
    optional sign and the longest run of digits are read, and the first
    character after them stays unread.  With at least one digit the call
    converts the number and returns 1; without, it returns 0, or [EOF] when
    the input has ended, and converts nothing. *)
Inductive scanned : Type :=
| Converted (input_val : Z) (unread : string)
| NotConverted (unread : string).

Definition scanf_int (s : string) : scanned :=
  let t := skip_spaces s in
  let '(negative, body) :=
    match t with
    | String "-"%char r => (true, r)
    | String "+"%char r => (false, r)
    | _ => (false, t)
    end in
  if isdigit (head body)
  then Converted (if negative then - digits 0 body else digits 0 body)
                 (skip_digits body)
  else NotConverted body.

(** [while (getchar() != '\n');]: the characters left after the next
    newline.  When no newline is left, [getchar] returns [EOF] at every call
    from the end of the input on and the loop does not end: [None]. *)
Fixpoint skip_line (s : string) : option string :=
  match s with
  | EmptyString => None
  | String c r => if Ascii.eqb c newline then Some r else skip_line r
  end.

(** The delimiters of [strtok(line, " \t,")]. *)
Definition is_delim (c : ascii) : bool :=
  (code c =? 32)%N || (code c =? 9)%N || (code c =? 44)%N.

(** All the tokens [strtok] returns, in order; [cur] is the token being
    read. *)
Fixpoint strtok_from (cur : string) (s : string) : list string :=
  match s with
  | EmptyString => if is_empty cur then [] else [cur]
  | String c r =>
      if is_delim c
      then (if is_empty cur then strtok_from EmptyString r
            else cur :: strtok_from EmptyString r)
      else strtok_from (cur ++ String c EmptyString)%string r
  end.

Definition strtok (s : string) : list string := strtok_from EmptyString s.

End CLib.

(** The [parts] array of [encode_instruction]: at most four tokens. *)
Definition split_parts (line_copy : string) : list string :=
  firstn 4 (CLib.strtok line_copy).

Definition part (parts : list string) (i : nat) : string :=
  nth i parts EmptyString.

Definition MAX_LINE_LENGTH : nat := 100.
Definition MAX_LABELS : nat := 64.
Definition MAX_LABEL_LENGTH : nat := 32.

(** One entry of the symbol table. *)
Record Label : Type := mkLabel { name : string; address : Z }.

(** [get_address_for_label]: the first entry with that name, or [-1]. *)
Fixpoint get_address_for_label (symbol_table : list Label) (n : string) : Z :=
  match symbol_table with
  | [] => -1
  | l :: rest =>
      if String.eqb (name l) n then address l
      else get_address_for_label rest n
  end.

(** An operand that is a decimal literal or a label name. *)
Definition resolve_address (symbol_table : list Label) (s : string) : Z :=
  if CLib.isalpha (CLib.head s) then get_address_for_label symbol_table s
  else CLib.atoi s.

(** ** The result of encoding one line

    Every successful path of [encode_instruction] ends in one of a few packing
    expressions over the locals [opcode], [reg1_code], [reg2_code], [value]
    (or [reg_code], [base_reg_code], [offset]).  Each profile has a type
    [fields] that records which expression is reached and with which values,
    and a function [pack] that is the expression itself.  Every failing path
    prints a diagnostic and returns [0xFFFF]. *)

Inductive encode_error : Type :=
| ErrArity
| ErrInvalidRegister
| ErrNotImmediate
| ErrImmediateUnsupported
| ErrUndefinedLabel
| ErrOutOfRange (value : Z)
| ErrMemToMem
| ErrInvalidOperands
| ErrUnknownMnemonic.

Inductive encoding (F : Type) : Type :=
| NoTokens
| Failure (pc : Z) (e : encode_error)
| Fields (f : F).

Arguments NoTokens {F}.
Arguments Failure {F} pc e.
Arguments Fields {F} f.

(** The sentinel [assemble] tests for. *)
Definition ENCODE_ERROR : Z := 0xFFFF.

(** What [main] does after the second pass. *)
Inductive exit_status : Type :=
| Exit1
| Exit0 (binary : list Z).

(** What the first pass leaves behind: the symbol table, the lines with their
    labels removed, and the warnings printed on the way. *)
Record pass1 : Type := mkPass1 {
  symbol_table : list Label;
  program_memory : list string;
  warnings : list string
}.

(** The label part and the instruction part of a line that holds a colon. *)
Definition label_text (line : string) (colon : nat) : string :=
  CLib.strncpy colon line.

Definition instruction_text (line : string) (colon : nat) : string :=
  CLib.skip_spaces (CLib.skipn (S colon) line).

Definition stored_name (label : string) : string :=
  CLib.strncpy (MAX_LABEL_LENGTH - 1) label.

(** ** The extended profile: assembler *)

Module Extended.

Inductive fields : Type :=
| OpOnly (opcode : Z)
| OpReg (opcode reg1_code : Z)
| OpAddr (opcode value : Z)
| OpRegImm (opcode reg1_code value : Z)
| OpRegReg (opcode reg1_code reg2_code : Z)
| OpBaseOff (opcode reg_code base_reg_code offset : Z).

(** [build_symbol_table], the body of the [for] loop threaded over the
    lines that are left; [instruction_address] counts the lines that still
    hold an instruction once their label is removed. *)
Fixpoint build_symbol_table_from (lines : list string) (table : list Label)
    (instruction_address : Z) : pass1 :=
  match lines with
  | [] => mkPass1 table [] []
  | line :: rest =>
      match CLib.strchr ":"%char line with
      | Some colon =>
          let line_copy := label_text line colon in
          let stripped := instruction_text line colon in
          let next := if CLib.is_empty stripped then instruction_address
                      else instruction_address + 1 in
          if (length table <? MAX_LABELS)%nat then
            let r := build_symbol_table_from rest
                       (table ++ [mkLabel (stored_name line_copy) instruction_address])
                       next in
            mkPass1 (symbol_table r) (stripped :: program_memory r) (warnings r)
          else
            let r := build_symbol_table_from rest table next in
            mkPass1 (symbol_table r) (stripped :: program_memory r)
                    (line_copy :: warnings r)
      | None =>
          let next := if CLib.is_empty line then instruction_address
                      else instruction_address + 1 in
          let r := build_symbol_table_from rest table next in
          mkPass1 (symbol_table r) (line :: program_memory r) (warnings r)
      end
  end.

Definition build_symbol_table (lines : list string) : pass1 :=
  build_symbol_table_from lines [] 0.

Definition get_register_code (reg_name : string) : Z :=
  let upper_name := CLib.strupr (CLib.strncpy (MAX_LABEL_LENGTH - 1) reg_name) in
  if String.eqb upper_name "EAX" then 0
  else if String.eqb upper_name "EBX" then 1
  else if String.eqb upper_name "ECX" then 2
  else if String.eqb upper_name "EDX" then 3
  else if String.eqb upper_name "ESI" then 4
  else if String.eqb upper_name "EDI" then 5
  else if String.eqb upper_name "EBP" then 6
  else if String.eqb upper_name "ESP" then 7
  else -1.

Definition is_one_register (m : string) : bool :=
  String.eqb m "INP" || String.eqb m "OUT" || String.eqb m "INC" ||
  String.eqb m "DEC" || String.eqb m "NOT" || String.eqb m "PUSH" ||
  String.eqb m "POP".

(** The chain of [if (strcmp(...) == 0) opcode = ...] of the one-register
    class; the mnemonics are distinct, so exactly one assignment fires. *)
Definition one_register_opcode (m : string) : Z :=
  if String.eqb m "INP" then 4
  else if String.eqb m "OUT" then 5
  else if String.eqb m "INC" then 9
  else if String.eqb m "DEC" then 10
  else if String.eqb m "PUSH" then 11
  else if String.eqb m "POP" then 12
  else if String.eqb m "NOT" then 22
  else 0.

Definition is_jump (m : string) : bool :=
  String.eqb m "JMP" || String.eqb m "JE" || String.eqb m "JZ" ||
  String.eqb m "JNE" || String.eqb m "JNZ" || String.eqb m "JG" ||
  String.eqb m "JNLE" || String.eqb m "JL" || String.eqb m "JNGE" ||
  String.eqb m "JGE" || String.eqb m "JNL" || String.eqb m "JLE" ||
  String.eqb m "JNG" || String.eqb m "CALL".

Definition jump_opcode (m : string) : Z :=
  if String.eqb m "JMP" then 24
  else if String.eqb m "JE" || String.eqb m "JZ" then 25
  else if String.eqb m "JNE" || String.eqb m "JNZ" then 26
  else if String.eqb m "JG" || String.eqb m "JNLE" then 27
  else if String.eqb m "JL" || String.eqb m "JNGE" then 28
  else if String.eqb m "JGE" || String.eqb m "JNL" then 29
  else if String.eqb m "JLE" || String.eqb m "JNG" then 30
  else if String.eqb m "CALL" then 13
  else 0.

Definition is_two_operand (m : string) : bool :=
  String.eqb m "ADD" || String.eqb m "SUB" || String.eqb m "CMP" ||
  String.eqb m "MUL" || String.eqb m "DIV" || String.eqb m "XOR".

(** Immediate forms exist for [ADD], [SUB] and [CMP] only. *)
Definition immediate_opcode (m : string) : option Z :=
  if String.eqb m "ADD" then Some 19
  else if String.eqb m "SUB" then Some 20
  else if String.eqb m "CMP" then Some 21
  else None.

Definition register_pair_opcode (m : string) : Z :=
  if String.eqb m "ADD" then 16
  else if String.eqb m "SUB" then 17
  else if String.eqb m "CMP" then 23
  else if String.eqb m "MUL" then 1
  else if String.eqb m "DIV" then 2
  else if String.eqb m "XOR" then 3
  else 0.

Definition out_of_range (value max : Z) : bool :=
  (value <? 0) || (value >? max).

(** The text between the brackets of [[addr]]: [strlen - 2] characters
    from index 1 (none when the operand is the bracket alone, where the C
    code computes a negative length). *)
Definition addr_str (operand : string) : string :=
  CLib.strncpy (String.length operand - 2) (CLib.skipn 1 operand).

(** [MOV] with a base+offset memory operand; [plus] is the index of the
    first [+] of that operand. *)
Definition encode_mov_base_offset (pc : Z) (dest src : string)
    (dest_is_mem : bool) (plus : nat) : encoding fields :=
  let mem_operand := if dest_is_mem then dest else src in
  let base_reg_str := CLib.strncpy (plus - 1) (CLib.skipn 1 mem_operand) in
  let offset := CLib.atoi (CLib.skipn (S plus) mem_operand) in
  let base_reg_code := get_register_code base_reg_str in
  if base_reg_code =? -1 then Failure pc ErrInvalidRegister
  else if out_of_range offset 0x1F then Failure pc (ErrOutOfRange offset)
  else if dest_is_mem then
    let reg_code := get_register_code src in
    if reg_code =? -1 then Failure pc ErrInvalidRegister
    else Fields (OpBaseOff 31 reg_code base_reg_code offset)
  else
    let reg_code := get_register_code dest in
    if reg_code =? -1 then Failure pc ErrInvalidRegister
    else Fields (OpBaseOff 15 reg_code base_reg_code offset).

(** [MOV reg, [addr]] (opcode 7) and [MOV [addr], reg] (opcode 8). *)
Definition encode_mov_direct (symbol_table : list Label) (pc : Z)
    (opcode : Z) (reg mem : string) : encoding fields :=
  let reg1_code := get_register_code reg in
  let value := resolve_address symbol_table (addr_str mem) in
  if reg1_code =? -1 then Failure pc ErrInvalidRegister
  else if value =? -1 then Failure pc ErrUndefinedLabel
  else if out_of_range value 0xFF then Failure pc (ErrOutOfRange value)
  else Fields (OpRegImm opcode reg1_code value).

Definition encode_mov (symbol_table : list Label) (pc : Z)
    (dest src : string) : encoding fields :=
  let dest_is_mem := Ascii.eqb (CLib.head dest) "["%char in
  let src_is_mem := Ascii.eqb (CLib.head src) "["%char in
  if dest_is_mem && src_is_mem then Failure pc ErrMemToMem
  else
    match CLib.strchr "+"%char (if dest_is_mem then dest else src),
          dest_is_mem || src_is_mem with
    | Some plus, true => encode_mov_base_offset pc dest src dest_is_mem plus
    | _, _ =>
        if negb dest_is_mem && Ascii.eqb (CLib.head src) "#"%char then
          let reg1_code := get_register_code dest in
          let value := CLib.atoi (CLib.skipn 1 src) in
          if reg1_code =? -1 then Failure pc ErrInvalidRegister
          else if out_of_range value 0xFF then Failure pc (ErrOutOfRange value)
          else Fields (OpRegImm 6 reg1_code value)
        else if negb dest_is_mem && src_is_mem then
          encode_mov_direct symbol_table pc 7 dest src
        else if dest_is_mem && negb src_is_mem then
          encode_mov_direct symbol_table pc 8 src dest
        else if negb dest_is_mem && negb src_is_mem then
          let reg1_code := get_register_code dest in
          let reg2_code := get_register_code src in
          if (reg1_code =? -1) || (reg2_code =? -1)
          then Failure pc ErrInvalidRegister
          else Fields (OpRegReg 18 reg1_code reg2_code)
        else Failure pc ErrInvalidOperands
    end.

(** The dispatch of [encode_instruction]: everything up to the assignment
    of [instruction]. *)
Definition encode_fields (symbol_table : list Label) (line : string)
    (pc : Z) : encoding fields :=
  let line_copy := CLib.strncpy (MAX_LINE_LENGTH - 1) line in
  let parts := split_parts line_copy in
  let part_count := length parts in
  if (part_count =? 0)%nat then NoTokens
  else
    let opcode_str := CLib.strupr (part parts 0) in
    if String.eqb opcode_str "HLT" then Fields (OpOnly 0)
    else if String.eqb opcode_str "RET" then Fields (OpOnly 14)
    else if is_one_register opcode_str then
      if negb (part_count =? 2)%nat then Failure pc ErrArity
      else
        let opcode := one_register_opcode opcode_str in
        let reg1_code := get_register_code (part parts 1) in
        if reg1_code =? -1 then Failure pc ErrInvalidRegister
        else Fields (OpReg opcode reg1_code)
    else if is_jump opcode_str then
      if negb (part_count =? 2)%nat then Failure pc ErrArity
      else
        let opcode := jump_opcode opcode_str in
        let value := resolve_address symbol_table (part parts 1) in
        if value =? -1 then Failure pc ErrUndefinedLabel
        else if out_of_range value 0xFF then Failure pc (ErrOutOfRange value)
        else Fields (OpAddr opcode value)
    else if is_two_operand opcode_str then
      if negb (part_count =? 3)%nat then Failure pc ErrArity
      else
        let operand2 := part parts 2 in
        if Ascii.eqb (CLib.head operand2) "#"%char then
          match immediate_opcode opcode_str with
          | None => Failure pc ErrImmediateUnsupported
          | Some opcode =>
              let reg1_code := get_register_code (part parts 1) in
              let value := CLib.atoi (CLib.skipn 1 operand2) in
              if reg1_code =? -1 then Failure pc ErrInvalidRegister
              else if out_of_range value 0xFF
              then Failure pc (ErrOutOfRange value)
              else Fields (OpRegImm opcode reg1_code value)
          end
        else
          let opcode := register_pair_opcode opcode_str in
          let reg1_code := get_register_code (part parts 1) in
          let reg2_code := get_register_code (part parts 2) in
          if (reg1_code =? -1) || (reg2_code =? -1)
          then Failure pc ErrInvalidRegister
          else Fields (OpRegReg opcode reg1_code reg2_code)
    else if String.eqb opcode_str "MOV" then
      if negb (part_count =? 3)%nat then Failure pc ErrArity
      else encode_mov symbol_table pc (part parts 1) (part parts 2)
    else Failure pc ErrUnknownMnemonic.

(** The packing expressions, as assigned to the [uint16_t instruction]. *)
Definition pack (f : fields) : Z :=
  match f with
  | OpOnly opcode => u16 (Z.shiftl opcode 11)
  | OpReg opcode reg1_code =>
      u16 (Z.lor (Z.shiftl opcode 11) (Z.shiftl reg1_code 8))
  | OpAddr opcode value => u16 (Z.lor (Z.shiftl opcode 11) value)
  | OpRegImm opcode reg1_code value =>
      u16 (Z.lor (Z.lor (Z.shiftl opcode 11) (Z.shiftl reg1_code 8)) value)
  | OpRegReg opcode reg1_code reg2_code =>
      u16 (Z.lor (Z.lor (Z.shiftl opcode 11) (Z.shiftl reg1_code 8))
                 (Z.shiftl reg2_code 5))
  | OpBaseOff opcode reg_code base_reg_code offset =>
      u16 (Z.lor (Z.lor (Z.lor (Z.shiftl opcode 11) (Z.shiftl reg_code 8))
                        (Z.shiftl base_reg_code 5)) offset)
  end.

(** [encode_instruction]: the word, [0] for a line without tokens, the
    sentinel [0xFFFF] on every error path. *)
Definition encode_instruction (symbol_table : list Label) (line : string)
    (pc : Z) : Z :=
  match encode_fields symbol_table line pc with
  | NoTokens => 0
  | Failure _ _ => ENCODE_ERROR
  | Fields f => pack f
  end.

(** [assemble]: the loop over the lines from index [i] on, with the words
    stored so far; returns the buffer and the count, [-1] when a word is
    the sentinel. *)
Fixpoint assemble_from (symbol_table : list Label) (lines : list string)
    (i : Z) (machine_code : list Z) : list Z * Z :=
  match lines with
  | [] => (machine_code, Z.of_nat (length machine_code))
  | line :: rest =>
      if CLib.is_empty line then
        assemble_from symbol_table rest (i + 1) machine_code
      else
        let instruction := encode_instruction symbol_table line i in
        if instruction =? ENCODE_ERROR then (machine_code, -1)
        else assemble_from symbol_table rest (i + 1)
                           (machine_code ++ [instruction])
  end.

Definition assemble (p : pass1) : list Z * Z :=
  assemble_from (symbol_table p) (program_memory p) 0 [].

(** [main] after loading: both passes, then the binary is written only
    when [assemble] did not return a negative count. *)
Definition main (lines : list string) : exit_status :=
  let p := build_symbol_table lines in
  let '(machine_code, instruction_count) := assemble p in
  if instruction_count <? 0 then Exit1
  else Exit0 (firstn (Z.to_nat instruction_count) machine_code).

End Extended.

(** ** How an instruction ends

    A call of [execute_instruction] returns the next program counter, or
    does not return at all ([INP] at the end of the input, see
    [CLib.skip_line]), or has no result: the conversion of a typed number
    that is no [int] is left undefined, and the quotient of the least [int]
    by [-1] stops the process where it traps.  Sums, differences and
    products that overflow wrap around instead.  The loop of [run_program]
    ends the same three ways. *)

Inductive outcome (M : Type) : Type :=
| Next (m : M) (pc : Z)
| Blocked (m : M)
| Undefined.

Arguments Next {M} m pc.
Arguments Blocked {M} m.
Arguments Undefined {M}.

(** ** The extended profile: simulator *)

Module Simulator.

Definition MEMORY_SIZE : Z := 256.
Definition PROGRAM_SIZE : Z := 256.
Definition STACK_TOP : Z := MEMORY_SIZE - 1.

Record Registers : Type := mkRegisters {
  EAX : Z; EBX : Z; ECX : Z; EDX : Z;
  ESI : Z; EDI : Z;
  EBP : Z; ESP : Z
}.

Definition register_names : list string :=
  ["EAX"; "EBX"; "ECX"; "EDX"; "ESI"; "EDI"; "EBP"; "ESP"]%string.

(** The flags hold the value of a C comparison, [0] or [1]. *)
Record Flags : Type := mkFlags { ZF : bool; SF : bool }.

(** What the simulator prints. *)
Inductive event : Type :=
| HaltAt (pc : Z)
| DivisionByZero (pc : Z)
| UnknownOpcode (opcode pc : Z)
| InputPrompt (reg : Z)
| InvalidInput
| Output (reg value : Z)
| InvalidWrite (address : Z)
| InvalidRead (address : Z).

(** The global state, together with the console: [stdin] holds the
    characters of the standard input that are not read yet, all that will
    ever be typed; [console] is what was printed, oldest first. *)
Record Machine : Type := mkMachine {
  registers : Registers;
  flags : Flags;
  memory : list Z;
  stdin : string;
  console : list event
}.

Definition with_registers (m : Machine) (r : Registers) : Machine :=
  mkMachine r (flags m) (memory m) (stdin m) (console m).

Definition with_flags (m : Machine) (f : Flags) : Machine :=
  mkMachine (registers m) f (memory m) (stdin m) (console m).

Definition with_memory (m : Machine) (mem : list Z) : Machine :=
  mkMachine (registers m) (flags m) mem (stdin m) (console m).

Definition with_stdin (m : Machine) (unread : string) : Machine :=
  mkMachine (registers m) (flags m) (memory m) unread (console m).

Definition print (m : Machine) (e : event) : Machine :=
  mkMachine (registers m) (flags m) (memory m) (stdin m) (console m ++ [e]).

Definition get_register_value (m : Machine) (reg_code : Z) : Z :=
  let r := registers m in
  match reg_code with
  | 0 => EAX r
  | 1 => EBX r
  | 2 => ECX r
  | 3 => EDX r
  | 4 => ESI r
  | 5 => EDI r
  | 6 => EBP r
  | 7 => ESP r
  | _ => 0
  end.

Definition set_register_value (m : Machine) (reg_code value : Z) : Machine :=
  let r := registers m in
  match reg_code with
  | 0 => with_registers m (mkRegisters value (EBX r) (ECX r) (EDX r) (ESI r) (EDI r) (EBP r) (ESP r))
  | 1 => with_registers m (mkRegisters (EAX r) value (ECX r) (EDX r) (ESI r) (EDI r) (EBP r) (ESP r))
  | 2 => with_registers m (mkRegisters (EAX r) (EBX r) value (EDX r) (ESI r) (EDI r) (EBP r) (ESP r))
  | 3 => with_registers m (mkRegisters (EAX r) (EBX r) (ECX r) value (ESI r) (EDI r) (EBP r) (ESP r))
  | 4 => with_registers m (mkRegisters (EAX r) (EBX r) (ECX r) (EDX r) value (EDI r) (EBP r) (ESP r))
  | 5 => with_registers m (mkRegisters (EAX r) (EBX r) (ECX r) (EDX r) (ESI r) value (EBP r) (ESP r))
  | 6 => with_registers m (mkRegisters (EAX r) (EBX r) (ECX r) (EDX r) (ESI r) (EDI r) value (ESP r))
  | 7 => with_registers m (mkRegisters (EAX r) (EBX r) (ECX r) (EDX r) (ESI r) (EDI r) (EBP r) value)
  | _ => m
  end.

Definition valid_address (address : Z) : bool :=
  (0 <=? address) && (address <? MEMORY_SIZE).

(** [write_memory]: a write outside the array is dropped with a message. *)
Definition write_memory (m : Machine) (address data : Z) : Machine :=
  if valid_address address
  then with_memory m (<[Z.to_nat address := data]> (memory m))
  else print m (InvalidWrite address).

(** [read_memory]: a read outside the array gives [0] with a message. *)
Definition read_memory (m : Machine) (address : Z) : Z * Machine :=
  if valid_address address
  then (default 0 (memory m !! Z.to_nat address), m)
  else (0, print m (InvalidRead address)).

(** The decoder: fixed shifts and masks. *)
Definition decode_opcode (instruction : Z) : Z := Z.shiftr instruction 11.
Definition decode_reg1 (instruction : Z) : Z := Z.land (Z.shiftr instruction 8) 0x07.
Definition decode_reg2 (instruction : Z) : Z := Z.land (Z.shiftr instruction 5) 0x07.
Definition decode_value (instruction : Z) : Z := Z.land instruction 0xFF.
Definition decode_offset (instruction : Z) : Z := Z.land instruction 0x1F.

(** The opcodes decoded as base+offset moves. *)
Definition is_base_offset (opcode : Z) : bool := (opcode =? 15) || (opcode =? 31).

(** [registers.ESP--] and [registers.ESP++]. *)
Definition dec_ESP (m : Machine) : Machine :=
  set_register_value m 7 (wrap32 (ESP (registers m) - 1)).
Definition inc_ESP (m : Machine) : Machine :=
  set_register_value m 7 (wrap32 (ESP (registers m) + 1)).

(** The comparison shared by [CMP reg, reg] and [CMP reg, #imm]. *)
Definition compare (m : Machine) (a b : Z) : Machine :=
  let result := wrap32 (a - b) in
  with_flags m (mkFlags (result =? 0) (result <? 0)).

(** [INP]: the prompt, [scanf], and in either branch the loop that reads
    up to the next newline.  The register is set before the loop when a
    number was converted, after it when none was; C gives a converted number
    that is no [int] no meaning. *)
Definition input (m : Machine) (reg1 next_pc : Z) : outcome Machine :=
  let m1 := print m (InputPrompt reg1) in
  match CLib.scanf_int (stdin m1) with
  | CLib.NotConverted unread =>
      let m2 := print (with_stdin m1 unread) InvalidInput in
      match CLib.skip_line unread with
      | Some unread' =>
          Next (set_register_value (with_stdin m2 unread') reg1 0) next_pc
      | None => Blocked (with_stdin m2 EmptyString)
      end
  | CLib.Converted input_val unread =>
      if (INT_MIN <=? input_val) && (input_val <=? INT_MAX) then
        let m2 := set_register_value (with_stdin m1 unread) reg1 input_val in
        match CLib.skip_line unread with
        | Some unread' => Next (with_stdin m2 unread') next_pc
        | None => Blocked (with_stdin m2 EmptyString)
        end
      else Undefined
  end.

(** [execute_instruction]: the new state and the next program counter,
    [-1] to stop, when the call returns. *)
Definition execute_instruction (m : Machine) (instruction pc : Z)
    : outcome Machine :=
  let opcode := decode_opcode instruction in
  if is_base_offset opcode then
    let reg_dest_src := decode_reg1 instruction in
    let reg_base := decode_reg2 instruction in
    let offset := decode_offset instruction in
    let effective_address := wrap32 (get_register_value m reg_base + offset) in
    if opcode =? 15 then
      let '(v, m1) := read_memory m effective_address in
      Next (set_register_value m1 reg_dest_src v) (wrap32 (pc + 1))
    else
      Next (write_memory m effective_address (get_register_value m reg_dest_src))
           (wrap32 (pc + 1))
  else
    let reg1 := decode_reg1 instruction in
    let reg2 := decode_reg2 instruction in
    let value := decode_value instruction in
    let addr := decode_value instruction in
    let next := wrap32 (pc + 1) in
    match opcode with
    | 0 => Next (print m (HaltAt pc)) (-1)
    | 1 => Next (set_register_value m reg1
                   (wrap32 (get_register_value m reg1 * get_register_value m reg2)))
                next
    | 2 =>
        let divisor := get_register_value m reg2 in
        if divisor =? 0 then Next (print m (DivisionByZero pc)) (-1)
        else if (get_register_value m reg1 =? INT_MIN) && (divisor =? -1)
        then Undefined
        else Next (set_register_value m reg1
                     (wrap32 (Z.quot (get_register_value m reg1) divisor)))
                  next
    | 3 => Next (set_register_value m reg1
                   (Z.lxor (get_register_value m reg1) (get_register_value m reg2)))
                next
    | 4 => input m reg1 next
    | 5 => Next (print m (Output reg1 (get_register_value m reg1))) next
    | 6 => Next (set_register_value m reg1 value) next
    | 7 => let '(v, m1) := read_memory m addr in
           Next (set_register_value m1 reg1 v) next
    | 8 => Next (write_memory m addr (get_register_value m reg1)) next
    | 9 => Next (set_register_value m reg1 (wrap32 (get_register_value m reg1 + 1)))
                next
    | 10 => Next (set_register_value m reg1 (wrap32 (get_register_value m reg1 - 1)))
                 next
    | 16 => Next (set_register_value m reg1
                    (wrap32 (get_register_value m reg1 + get_register_value m reg2)))
                 next
    | 17 => Next (set_register_value m reg1
                    (wrap32 (get_register_value m reg1 - get_register_value m reg2)))
                 next
    | 18 => Next (set_register_value m reg1 (get_register_value m reg2)) next
    | 19 => Next (set_register_value m reg1 (wrap32 (get_register_value m reg1 + value)))
                 next
    | 20 => Next (set_register_value m reg1 (wrap32 (get_register_value m reg1 - value)))
                 next
    | 21 => Next (compare m (get_register_value m reg1) value) next
    | 22 => Next (set_register_value m reg1 (Z.lnot (get_register_value m reg1))) next
    | 23 => Next (compare m (get_register_value m reg1) (get_register_value m reg2))
                 next
    | 24 => Next m addr
    | 25 => Next m (if ZF (flags m) then addr else next)
    | 26 => Next m (if negb (ZF (flags m)) then addr else next)
    | 27 => Next m (if negb (ZF (flags m)) && negb (SF (flags m)) then addr else next)
    | 28 => Next m (if SF (flags m) then addr else next)
    | 29 => Next m (if negb (SF (flags m)) then addr else next)
    | 30 => Next m (if ZF (flags m) || SF (flags m) then addr else next)
    | 11 =>
        let m1 := dec_ESP m in
        Next (write_memory m1 (ESP (registers m1)) (get_register_value m1 reg1)) next
    | 12 =>
        let '(v, m1) := read_memory m (ESP (registers m)) in
        Next (inc_ESP (set_register_value m1 reg1 v)) next
    | 13 =>
        let m1 := dec_ESP m in
        Next (write_memory m1 (ESP (registers m1)) (wrap32 (pc + 1))) addr
    | 14 =>
        let '(ret_addr, m1) := read_memory m (ESP (registers m)) in
        Next (inc_ESP m1) ret_addr
    | _ => Next (print m (UnknownOpcode opcode pc)) (-1)
    end.

(** The state [run_program] starts from, with the text that will be typed
    on the standard input. *)
Definition initial (typed : string) : Machine :=
  mkMachine (mkRegisters 0 0 0 0 0 0 (STACK_TOP + 1) (STACK_TOP + 1))
            (mkFlags false false)
            (replicate (Z.to_nat MEMORY_SIZE) 0)
            typed [].

(** The loop of [run_program], for at most [fuel] instructions: the state
    and the program counter it has reached, unless an instruction did not
    return. *)
Fixpoint run_from (fuel : nat) (machine_code : list Z) (m : Machine) (pc : Z)
    : outcome Machine :=
  match fuel with
  | O => Next m pc
  | S fuel' =>
      if (0 <=? pc) && (pc <? Z.of_nat (length machine_code)) then
        match execute_instruction m (default 0 (machine_code !! Z.to_nat pc)) pc with
        | Next m1 next_pc => run_from fuel' machine_code m1 next_pc
        | Blocked m1 => Blocked m1
        | Undefined => Undefined
        end
      else Next m pc
  end.

Definition run_program (fuel : nat) (machine_code : list Z) (typed : string)
    : outcome Machine :=
  run_from fuel machine_code (initial typed) 0.

(** The loop has stopped: no further instruction is fetched. *)
Definition stopped (machine_code : list Z) (pc : Z) : Prop :=
  forall fuel m, run_from fuel machine_code m pc = Next m pc.

End Simulator.

(** ** The simple profile: assembler *)

Module Simple.

Inductive fields : Type :=
| OpOnly (opcode : Z)
| OpReg (opcode reg1_code : Z)
| OpAddr (opcode value : Z)
| OpRegImm (opcode reg1_code value : Z)
| OpRegReg (opcode reg1_code reg2_code : Z).

(** [build_symbol_table]: the address of a label is the index [i] of its
    line; the message is printed inside the branch that records the label. *)
Fixpoint build_symbol_table_from (lines : list string) (table : list Label)
    (i : Z) : pass1 :=
  match lines with
  | [] => mkPass1 table [] []
  | line :: rest =>
      match CLib.strchr ":"%char line with
      | Some colon =>
          let line_copy := label_text line colon in
          let stripped := instruction_text line colon in
          if (length table <? MAX_LABELS)%nat then
            let r := build_symbol_table_from rest
                       (table ++ [mkLabel (stored_name line_copy) i]) (i + 1) in
            mkPass1 (symbol_table r) (stripped :: program_memory r)
                    (line_copy :: warnings r)
          else
            let r := build_symbol_table_from rest table (i + 1) in
            mkPass1 (symbol_table r) (stripped :: program_memory r) (warnings r)
      | None =>
          let r := build_symbol_table_from rest table (i + 1) in
          mkPass1 (symbol_table r) (line :: program_memory r) (warnings r)
      end
  end.

Definition build_symbol_table (lines : list string) : pass1 :=
  build_symbol_table_from lines [] 0.

(** The register names of the profile. *)
Definition register_names : list string := ["A"; "B"; "C"]%string.

(** Register names are compared as they are written. *)
Definition get_register_code (reg_name : string) : Z :=
  if String.eqb reg_name "A" then 0
  else if String.eqb reg_name "B" then 1
  else if String.eqb reg_name "C" then 2
  else -1.

Definition out_of_range (value max : Z) : bool :=
  (value <? 0) || (value >? max).

Definition register_pair_opcode (m : string) : Z :=
  if String.eqb m "ADD" then 16
  else if String.eqb m "SUB" then 17
  else if String.eqb m "MOV" then 18
  else 0.

Definition one_register_opcode (m : string) : Z :=
  if String.eqb m "INP" then 4
  else if String.eqb m "OUT" then 5
  else if String.eqb m "INC" then 9
  else if String.eqb m "DEC" then 10
  else 0.

Definition branch_opcode (m : string) : Z :=
  if String.eqb m "JZ" then 25
  else if String.eqb m "JNZ" then 26
  else if String.eqb m "JP" then 27
  else if String.eqb m "JN" then 28
  else 0.

(** A register and an address or label: [LDA], [STA] and the conditional
    jumps. *)
Definition encode_register_address (symbol_table : list Label) (pc : Z)
    (opcode : Z) (parts : list string) : encoding fields :=
  let reg1_code := get_register_code (part parts 1) in
  let value := resolve_address symbol_table (part parts 2) in
  if reg1_code =? -1 then Failure pc ErrInvalidRegister
  else if value =? -1 then Failure pc ErrUndefinedLabel
  else if out_of_range value 0x1FF then Failure pc (ErrOutOfRange value)
  else Fields (OpRegImm opcode reg1_code value).

Definition encode_fields (symbol_table : list Label) (line : string)
    (pc : Z) : encoding fields :=
  let line_copy := CLib.strncpy MAX_LINE_LENGTH line in
  let parts := split_parts line_copy in
  let part_count := length parts in
  if (part_count =? 0)%nat then NoTokens
  else
    let opcode_str := CLib.strupr (part parts 0) in
    if String.eqb opcode_str "HLT" then Fields (OpOnly 0)
    else if String.eqb opcode_str "DMP" then Fields (OpOnly 1)
    else if String.eqb opcode_str "CLRM" then Fields (OpOnly 2)
    else if String.eqb opcode_str "CLRR" then Fields (OpOnly 3)
    else if String.eqb opcode_str "ADD" || String.eqb opcode_str "SUB" ||
            String.eqb opcode_str "MOV" then
      if negb (part_count =? 3)%nat then Failure pc ErrArity
      else
        let opcode := register_pair_opcode opcode_str in
        let reg1_code := get_register_code (part parts 1) in
        let reg2_code := get_register_code (part parts 2) in
        if (reg1_code =? -1) || (reg2_code =? -1)
        then Failure pc ErrInvalidRegister
        else Fields (OpRegReg opcode reg1_code reg2_code)
    else if String.eqb opcode_str "INP" || String.eqb opcode_str "OUT" ||
            String.eqb opcode_str "INC" || String.eqb opcode_str "DEC" then
      if negb (part_count =? 2)%nat then Failure pc ErrArity
      else
        let opcode := one_register_opcode opcode_str in
        let reg1_code := get_register_code (part parts 1) in
        if reg1_code =? -1 then Failure pc ErrInvalidRegister
        else Fields (OpReg opcode reg1_code)
    else if String.eqb opcode_str "SET" then
      if negb (part_count =? 3)%nat then Failure pc ErrArity
      else
        let reg1_code := get_register_code (part parts 1) in
        if negb (Ascii.eqb (CLib.head (part parts 2)) "#"%char)
        then Failure pc ErrNotImmediate
        else
          let value := CLib.atoi (CLib.skipn 1 (part parts 2)) in
          if reg1_code =? -1 then Failure pc ErrInvalidRegister
          else if out_of_range value 0x1FF then Failure pc (ErrOutOfRange value)
          else Fields (OpRegImm 6 reg1_code value)
    else if String.eqb opcode_str "LDA" || String.eqb opcode_str "STA" then
      if negb (part_count =? 3)%nat then Failure pc ErrArity
      else
        let opcode := if String.eqb opcode_str "LDA" then 7 else 8 in
        encode_register_address symbol_table pc opcode parts
    else if String.eqb opcode_str "JMP" then
      if negb (part_count =? 2)%nat then Failure pc ErrArity
      else
        let value := resolve_address symbol_table (part parts 1) in
        if value =? -1 then Failure pc ErrUndefinedLabel
        else if out_of_range value 0x1FF then Failure pc (ErrOutOfRange value)
        else Fields (OpAddr 24 value)
    else if String.eqb opcode_str "JZ" || String.eqb opcode_str "JNZ" ||
            String.eqb opcode_str "JP" || String.eqb opcode_str "JN" then
      if negb (part_count =? 3)%nat then Failure pc ErrArity
      else
        encode_register_address symbol_table pc (branch_opcode opcode_str) parts
    else Failure pc ErrUnknownMnemonic.

(** Registers sit at bits 10-9 and 8-7, the value in the low nine bits. *)
Definition pack (f : fields) : Z :=
  match f with
  | OpOnly opcode => u16 (Z.shiftl opcode 11)
  | OpReg opcode reg1_code =>
      u16 (Z.lor (Z.shiftl opcode 11) (Z.shiftl reg1_code 9))
  | OpAddr opcode value => u16 (Z.lor (Z.shiftl opcode 11) value)
  | OpRegImm opcode reg1_code value =>
      u16 (Z.lor (Z.lor (Z.shiftl opcode 11) (Z.shiftl reg1_code 9)) value)
  | OpRegReg opcode reg1_code reg2_code =>
      u16 (Z.lor (Z.lor (Z.shiftl opcode 11) (Z.shiftl reg1_code 9))
                 (Z.shiftl reg2_code 7))
  end.

Definition encode_instruction (symbol_table : list Label) (line : string)
    (pc : Z) : Z :=
  match encode_fields symbol_table line pc with
  | NoTokens => 0
  | Failure _ _ => ENCODE_ERROR
  | Fields f => pack f
  end.

(** [assemble]: every line gives a word, also a line left empty by the
    removal of its label. *)
Fixpoint assemble_from (symbol_table : list Label) (lines : list string)
    (i : Z) (machine_code : list Z) : list Z * Z :=
  match lines with
  | [] => (machine_code, Z.of_nat (length machine_code))
  | line :: rest =>
      let instruction := encode_instruction symbol_table line i in
      if instruction =? ENCODE_ERROR then (machine_code, -1)
      else assemble_from symbol_table rest (i + 1)
                         (machine_code ++ [instruction])
  end.

Definition assemble (p : pass1) : list Z * Z :=
  assemble_from (symbol_table p) (program_memory p) 0 [].

Definition main (lines : list string) : exit_status :=
  let p := build_symbol_table lines in
  let '(machine_code, instruction_count) := assemble p in
  if instruction_count <? 0 then Exit1
  else Exit0 (firstn (Z.to_nat instruction_count) machine_code).

(** The decoder of the simple simulator. *)
Definition decode_opcode (instruction : Z) : Z := Z.shiftr instruction 11.
Definition decode_reg1 (instruction : Z) : Z := Z.land (Z.shiftr instruction 9) 0x03.
Definition decode_reg2 (instruction : Z) : Z := Z.land (Z.shiftr instruction 7) 0x03.
Definition decode_value (instruction : Z) : Z := Z.land instruction 0x1FF.

End Simple.

(** ** The simple profile: simulator *)

Module SimpleSimulator.

Definition MEMORY_SIZE : Z := 64.
Definition PROGRAM_SIZE : Z := 256.

Record Registers : Type := mkRegisters { A : Z; B : Z; C : Z }.

(** What the simulator prints; a dump shows the registers and the memory
    of the moment. *)
Inductive event : Type :=
| HaltAt (pc : Z)
| Dump (registers : Registers) (memory : list Z)
| UnknownOpcode (opcode pc : Z)
| InputPrompt (reg : Z)
| InvalidInput
| Output (reg value : Z)
| InvalidWrite (address : Z)
| InvalidRead (address : Z)
| ReachedEnd.

(** The global state and the console, as in the extended simulator:
    [stdin] holds the characters not read yet. *)
Record Machine : Type := mkMachine {
  registers : Registers;
  memory : list Z;
  stdin : string;
  console : list event
}.

Definition with_registers (m : Machine) (r : Registers) : Machine :=
  mkMachine r (memory m) (stdin m) (console m).

Definition with_memory (m : Machine) (mem : list Z) : Machine :=
  mkMachine (registers m) mem (stdin m) (console m).

Definition with_stdin (m : Machine) (unread : string) : Machine :=
  mkMachine (registers m) (memory m) unread (console m).

Definition print (m : Machine) (e : event) : Machine :=
  mkMachine (registers m) (memory m) (stdin m) (console m ++ [e]).

Definition get_register_value (m : Machine) (reg_code : Z) : Z :=
  if reg_code =? 0 then A (registers m)
  else if reg_code =? 1 then B (registers m)
  else if reg_code =? 2 then C (registers m)
  else 0.

Definition set_register_value (m : Machine) (reg_code value : Z) : Machine :=
  let r := registers m in
  if reg_code =? 0 then with_registers m (mkRegisters value (B r) (C r))
  else if reg_code =? 1 then with_registers m (mkRegisters (A r) value (C r))
  else if reg_code =? 2 then with_registers m (mkRegisters (A r) (B r) value)
  else m.

Definition valid_address (address : Z) : bool :=
  (0 <=? address) && (address <? MEMORY_SIZE).

Definition write_memory (m : Machine) (address data : Z) : Machine :=
  if valid_address address
  then with_memory m (<[Z.to_nat address := data]> (memory m))
  else print m (InvalidWrite address).

Definition read_memory (m : Machine) (address : Z) : Z * Machine :=
  if valid_address address
  then (default 0 (memory m !! Z.to_nat address), m)
  else (0, print m (InvalidRead address)).

(** [dump_contents] only prints. *)
Definition dump_contents (m : Machine) : Machine :=
  print m (Dump (registers m) (memory m)).

(** [INP], the same code as in the extended simulator. *)
Definition input (m : Machine) (reg1 next_pc : Z) : outcome Machine :=
  let m1 := print m (InputPrompt reg1) in
  match CLib.scanf_int (stdin m1) with
  | CLib.NotConverted unread =>
      let m2 := print (with_stdin m1 unread) InvalidInput in
      match CLib.skip_line unread with
      | Some unread' =>
          Next (set_register_value (with_stdin m2 unread') reg1 0) next_pc
      | None => Blocked (with_stdin m2 EmptyString)
      end
  | CLib.Converted input_val unread =>
      if (INT_MIN <=? input_val) && (input_val <=? INT_MAX) then
        let m2 := set_register_value (with_stdin m1 unread) reg1 input_val in
        match CLib.skip_line unread with
        | Some unread' => Next (with_stdin m2 unread') next_pc
        | None => Blocked (with_stdin m2 EmptyString)
        end
      else Undefined
  end.

(** [execute_instruction] of the simple simulator; the conditional jumps
    test a register, there are no flags. *)
Definition execute_instruction (m : Machine) (instruction pc : Z)
    : outcome Machine :=
  let opcode := Simple.decode_opcode instruction in
  let reg1 := Simple.decode_reg1 instruction in
  let reg2 := Simple.decode_reg2 instruction in
  let value := Simple.decode_value instruction in
  let addr := Simple.decode_value instruction in
  let next := wrap32 (pc + 1) in
  match opcode with
  | 0 => Next (print m (HaltAt pc)) (-1)
  | 1 => Next (dump_contents m) next
  | 2 => Next (with_memory m (replicate (Z.to_nat MEMORY_SIZE) 0)) next
  | 3 => Next (with_registers m (mkRegisters 0 0 0)) next
  | 4 => input m reg1 next
  | 5 => Next (print m (Output reg1 (get_register_value m reg1))) next
  | 6 => Next (set_register_value m reg1 value) next
  | 7 => let '(v, m1) := read_memory m addr in
         Next (set_register_value m1 reg1 v) next
  | 8 => Next (write_memory m addr (get_register_value m reg1)) next
  | 9 => Next (set_register_value m reg1 (wrap32 (get_register_value m reg1 + 1))) next
  | 10 => Next (set_register_value m reg1 (wrap32 (get_register_value m reg1 - 1))) next
  | 16 => Next (set_register_value m reg1
                  (wrap32 (get_register_value m reg1 + get_register_value m reg2)))
               next
  | 17 => Next (set_register_value m reg1
                  (wrap32 (get_register_value m reg1 - get_register_value m reg2)))
               next
  | 18 => Next (set_register_value m reg1 (get_register_value m reg2)) next
  | 24 => Next m addr
  | 25 => Next m (if get_register_value m reg1 =? 0 then addr else next)
  | 26 => Next m (if negb (get_register_value m reg1 =? 0) then addr else next)
  | 27 => Next m (if get_register_value m reg1 >? 0 then addr else next)
  | 28 => Next m (if get_register_value m reg1 <? 0 then addr else next)
  | _ => Next (print m (UnknownOpcode opcode pc)) (-1)
  end.

(** The state [run_program] starts from: the registers as the program
    start leaves them, the memory cleared; [typed] is the text that will be
    typed on the standard input. *)
Definition initial (typed : string) : Machine :=
  mkMachine (mkRegisters 0 0 0) (replicate (Z.to_nat MEMORY_SIZE) 0) typed [].

Fixpoint run_from (fuel : nat) (machine_code : list Z) (m : Machine) (pc : Z)
    : outcome Machine :=
  match fuel with
  | O => Next m pc
  | S fuel' =>
      if (0 <=? pc) && (pc <? Z.of_nat (length machine_code)) then
        match execute_instruction m (default 0 (machine_code !! Z.to_nat pc)) pc with
        | Next m1 next_pc => run_from fuel' machine_code m1 next_pc
        | Blocked m1 => Blocked m1
        | Undefined => Undefined
        end
      else Next m pc
  end.

(** What [run_program] does once the loop is left: the message for a run
    that went past the last instruction. *)
Definition finish (machine_code : list Z) (r : outcome Machine) : outcome Machine :=
  match r with
  | Next m pc =>
      Next (if pc >=? Z.of_nat (length machine_code) then print m ReachedEnd else m)
           pc
  | Blocked m => Blocked m
  | Undefined => Undefined
  end.

(** [run_program] with [fuel] instructions at most. *)
Definition run_program (fuel : nat) (machine_code : list Z) (typed : string)
    : outcome Machine :=
  finish machine_code (run_from fuel machine_code (initial typed) 0).

End SimpleSimulator.

(** ** Loading the source file (both assemblers) *)

Module Loader.

Definition PROGRAM_SIZE : Z := 256.

Definition newline : ascii := ascii_of_N 10.
Definition carriage_return : ascii := ascii_of_N 13.

(** The buffers the successive calls [fgets(line_buffer, MAX_LINE_LENGTH, f)]
    return: a buffer ends after a newline or when it holds
    [MAX_LINE_LENGTH - 1] characters; [cur] holds the [n] characters read
    for the buffer being filled. *)
Fixpoint fgets_from (cur : string) (n : nat) (file : string) : list string :=
  match file with
  | EmptyString => if CLib.is_empty cur then [] else [cur]
  | String c r =>
      let cur' := (cur ++ String c EmptyString)%string in
      if Ascii.eqb c newline || (S n =? MAX_LINE_LENGTH - 1)%nat
      then cur' :: fgets_from EmptyString 0 r
      else fgets_from cur' (S n) r
  end.

Definition fgets_all (file : string) : list string :=
  fgets_from EmptyString 0 file.

(** [s[strcspn(s, "\r\n")] = 0]. *)
Fixpoint cut_newline (s : string) : string :=
  match s with
  | EmptyString => EmptyString
  | String c r =>
      if Ascii.eqb c carriage_return || Ascii.eqb c newline then EmptyString
      else String c (cut_newline r)
  end.

(** [*strchr(s, ';') = 0] when there is a semicolon. *)
Fixpoint cut_comment (s : string) : string :=
  match s with
  | EmptyString => EmptyString
  | String c r =>
      if Ascii.eqb c ";"%char then EmptyString else String c (cut_comment r)
  end.

(** What is left of a buffer: newline and comment cut, leading white space
    skipped. *)
Definition trimmed_line (line_buffer : string) : string :=
  CLib.skip_spaces (cut_comment (cut_newline line_buffer)).

(** The loop of [load_program] over the buffers that are left, [i] lines
    being stored already. *)
Fixpoint load_from (buffers : list string) (i : Z) : list string :=
  match buffers with
  | [] => []
  | line_buffer :: rest =>
      if i <? PROGRAM_SIZE then
        let t := trimmed_line line_buffer in
        if CLib.is_empty t then load_from rest i
        else CLib.strncpy (MAX_LINE_LENGTH - 1) t :: load_from rest (i + 1)
      else []
  end.

(** [load_program] on the text of a file that could be opened. *)
Definition load_program (file : string) : list string :=
  load_from (fgets_all file) 0.

End Loader.

(** * Vocabulary of the statements *)

(** The text pass 1 leaves in [program_memory] for a line. *)
Definition strip_label (line : string) : string :=
  match CLib.strchr ":"%char line with
  | Some colon => instruction_text line colon
  | None => line
  end.

Fixpoint instruction_count (lines : list string) : Z :=
  match lines with
  | [] => 0
  | line :: rest =>
      (if CLib.is_empty line then 0 else 1) + instruction_count rest
  end.

Definition defines (line : string) (n : string) : Prop :=
  exists colon, CLib.strchr ":"%char line = Some colon /\
                n = stored_name (label_text line colon).

Definition unused (table : list Label) (n : string) : Prop :=
  Forall (fun l => name l <> n) table.

(** The fields fit the widths the decoder gives them, and the base+offset
    layout is used by the two opcodes the simulator decodes that way. *)
Definition fits (f : Extended.fields) : Prop :=
  match f with
  | Extended.OpOnly opcode =>
      0 <= opcode < 32 /\ Simulator.is_base_offset opcode = false
  | Extended.OpReg opcode reg1_code =>
      0 <= opcode < 32 /\ Simulator.is_base_offset opcode = false /\
      0 <= reg1_code < 8
  | Extended.OpAddr opcode value =>
      0 <= opcode < 32 /\ Simulator.is_base_offset opcode = false /\
      0 <= value < 256
  | Extended.OpRegImm opcode reg1_code value =>
      0 <= opcode < 32 /\ Simulator.is_base_offset opcode = false /\
      0 <= reg1_code < 8 /\ 0 <= value < 256
  | Extended.OpRegReg opcode reg1_code reg2_code =>
      0 <= opcode < 32 /\ Simulator.is_base_offset opcode = false /\
      0 <= reg1_code < 8 /\ 0 <= reg2_code < 8
  | Extended.OpBaseOff opcode reg_code base_reg_code offset =>
      0 <= opcode < 32 /\ Simulator.is_base_offset opcode = true /\
      0 <= reg_code < 8 /\ 0 <= base_reg_code < 8 /\ 0 <= offset < 32
  end.

(** What the simulator reads back from a word, against the fields the
    assembler packed: the opcode, and the operand fields of the layout;
    the simulator takes its base+offset path exactly for that layout. *)
Definition decodes_to (instruction : Z) (f : Extended.fields) : Prop :=
  match f with
  | Extended.OpOnly opcode =>
      Simulator.decode_opcode instruction = opcode /\
      Simulator.is_base_offset (Simulator.decode_opcode instruction) = false
  | Extended.OpReg opcode reg1_code =>
      Simulator.decode_opcode instruction = opcode /\
      Simulator.is_base_offset (Simulator.decode_opcode instruction) = false /\
      Simulator.decode_reg1 instruction = reg1_code
  | Extended.OpAddr opcode value =>
      Simulator.decode_opcode instruction = opcode /\
      Simulator.is_base_offset (Simulator.decode_opcode instruction) = false /\
      Simulator.decode_value instruction = value
  | Extended.OpRegImm opcode reg1_code value =>
      Simulator.decode_opcode instruction = opcode /\
      Simulator.is_base_offset (Simulator.decode_opcode instruction) = false /\
      Simulator.decode_reg1 instruction = reg1_code /\
      Simulator.decode_value instruction = value
  | Extended.OpRegReg opcode reg1_code reg2_code =>
      Simulator.decode_opcode instruction = opcode /\
      Simulator.is_base_offset (Simulator.decode_opcode instruction) = false /\
      Simulator.decode_reg1 instruction = reg1_code /\
      Simulator.decode_reg2 instruction = reg2_code
  | Extended.OpBaseOff opcode reg_code base_reg_code offset =>
      Simulator.decode_opcode instruction = opcode /\
      Simulator.is_base_offset (Simulator.decode_opcode instruction) = true /\
      Simulator.decode_reg1 instruction = reg_code /\
      Simulator.decode_reg2 instruction = base_reg_code /\
      Simulator.decode_offset instruction = offset
  end.


(** An encoding result with the line number of its diagnostic replaced. *)
Definition at_pc (F : Type) (pc : Z) (e : encoding F) : encoding F :=
  match e with
  | Failure _ err => Failure pc err
  | other => other
  end.

(** The words of a program that assembles. *)
Definition assembled (lines : list string) : list Z :=
  fst (Extended.assemble (Extended.build_symbol_table lines)).

(** The line with the value [max] in the field passes the checks of the
    encoder and the simulator reads [max] back from its word.  [line v] is
    the line with the literal [v]. *)
Definition passes (F : Type) (encode_fields : string -> Z -> encoding F)
    (encode_instruction : string -> Z -> Z) (decode_field : Z -> Z)
    (line : string -> string) (max_text : string) (max : Z) (pc : Z) : Prop :=
  (exists f, encode_fields (line max_text) pc = Fields f) /\
  decode_field (encode_instruction (line max_text) pc) = max.

(** The encoder accepts the line with the value [max] in the field: the
    line passes the checks and its word is not the sentinel that [assemble]
    takes for an error; it refuses the same line with [max + 1], as out of
    range, and returns the sentinel. *)
Definition boundary (F : Type) (encode_fields : string -> Z -> encoding F)
    (encode_instruction : string -> Z -> Z) (decode_field : Z -> Z)
    (line : string -> string) (max_text over_text : string) (max : Z)
    (pc : Z) : Prop :=
  passes F encode_fields encode_instruction decode_field line max_text max pc /\
  encode_instruction (line max_text) pc <> ENCODE_ERROR /\
  encode_fields (line over_text) pc = Failure pc (ErrOutOfRange (max + 1)) /\
  encode_instruction (line over_text) pc = ENCODE_ERROR.

Definition simple_boundary (symbol_table : list Label) (pc : Z)
    (line : string -> string) : Prop :=
  boundary Simple.fields (Simple.encode_fields symbol_table)
    (Simple.encode_instruction symbol_table) Simple.decode_value
    line "511" "512" 511 pc.

Definition extended_boundary (symbol_table : list Label) (pc : Z)
    (line : string -> string) : Prop :=
  boundary Extended.fields (Extended.encode_fields symbol_table)
    (Extended.encode_instruction symbol_table) Simulator.decode_value
    line "255" "256" 255 pc.

Definition offset_boundary (symbol_table : list Label) (pc : Z)
    (line : string -> string) : Prop :=
  boundary Extended.fields (Extended.encode_fields symbol_table)
    (Extended.encode_instruction symbol_table) Simulator.decode_offset
    line "31" "32" 31 pc.

(** The offset 31 passes the checks of the encoder, but the word of the
    line is the sentinel: the encoder returns what it returns for an error,
    and a program that holds the line is not assembled. *)
Definition offset_taken_for_error (symbol_table : list Label) (pc : Z)
    (line : string -> string) : Prop :=
  passes Extended.fields (Extended.encode_fields symbol_table)
    (Extended.encode_instruction symbol_table) Simulator.decode_offset
    line "31" 31 pc /\
  Extended.encode_instruction symbol_table (line "31") pc = ENCODE_ERROR /\
  Extended.main [line "31"] = Exit1 /\
  Extended.encode_fields symbol_table (line "32") pc =
    Failure pc (ErrOutOfRange 32).

(** ** The claims that fail as they are stated *)

Module Claims.

Import Simulator.

(** The memory array has its declared size. *)
Definition well_formed (m : Machine) : Prop :=
  length (memory m) = Z.to_nat MEMORY_SIZE.

(** The first operand of [CMP reg, reg] below the second gives the sign
    flag, for all register contents. *)
Definition compare_orders_all_operands : Prop :=
  forall (m : Machine) (instruction pc : Z),
    decode_opcode instruction = 23 ->
    let a := get_register_value m (decode_reg1 instruction) in
    let b := get_register_value m (decode_reg2 instruction) in
    in_int a -> in_int b -> a < b ->
    exists result,
      execute_instruction m instruction pc = Next (fst result) (snd result) /\
      SF (flags (fst result)) = true.

(** [CALL] then [RET] comes back to [pc + 1] with the stack pointer
    restored, for every stack pointer. *)
Definition call_returns_in_every_state : Prop :=
  forall (m : Machine) (call ret pc : Z),
    well_formed m ->
    decode_opcode call = 13 -> decode_opcode ret = 14 ->
    0 <= pc < PROGRAM_SIZE -> in_int (ESP (registers m)) ->
    exists r1 r2,
      execute_instruction m call pc = Next (fst r1) (snd r1) /\
      execute_instruction (fst r1) ret (snd r1) = Next (fst r2) (snd r2) /\
    snd r1 = decode_value call /\
    snd r2 = pc + 1 /\
    ESP (registers (fst r2)) = ESP (registers m).

(** [PUSH r] then [POP r] gives back the register and the stack pointer,
    for every stack pointer. *)
Definition push_pop_in_every_state : Prop :=
  forall (m : Machine) (push pop pc : Z),
    well_formed m ->
    decode_opcode push = 11 -> decode_opcode pop = 12 ->
    decode_reg1 pop = decode_reg1 push ->
    in_int (ESP (registers m)) ->
    let r := decode_reg1 push in
    exists r1 r2,
      execute_instruction m push pc = Next (fst r1) (snd r1) /\
      execute_instruction (fst r1) pop (snd r1) = Next (fst r2) (snd r2) /\
    get_register_value (fst r2) r = get_register_value m r /\
    ESP (registers (fst r2)) = ESP (registers m).

(** A [PUSH] or [CALL] below the memory drops its value and prints
    nothing. *)
Definition overflow_is_silent : Prop :=
  forall (m : Machine) (instruction pc : Z),
    decode_opcode instruction = 11 \/ decode_opcode instruction = 13 ->
    ESP (registers m) <= 0 -> in_int (ESP (registers m)) ->
    exists r,
      execute_instruction m instruction pc = Next (fst r) (snd r) /\
      memory (fst r) = memory m /\ console (fst r) = console m.

(** Every label that is recorded under a new name resolves to the number of
    instruction lines before it, label-only lines not counted. *)
Definition resolves_to_instruction_count (build : list string -> pass1) : Prop :=
  forall (pre post : list string) (line n : string),
    defines line n ->
    (length (symbol_table (build pre)) < MAX_LABELS)%nat ->
    unused (symbol_table (build pre)) n ->
    get_address_for_label (symbol_table (build (pre ++ line :: post))) n =
    instruction_count (map strip_label pre).

(** A standard input on which nothing is typed. *)
Definition no_input : string := EmptyString.

(** The state a run has reached, to name the states of the examples. *)
Definition reached (o : outcome Machine) : Machine :=
  match o with
  | Next m _ => m
  | Blocked m => m
  | Undefined => initial no_input
  end.

End Claims.

(** The two-word program that pushes for ever: [PUSH EAX] and a jump back
    to it. *)
Definition push_forever : list Z :=
  assembled ["again: PUSH EAX"; "JMP again"]%string.

(** The example program of the README, as [load_program] leaves it:
    comments cut, leading blanks removed. *)
Definition readme_program : list string :=
  ["main:";
   "MOV EAX, #5          ";
   "PUSH EAX             ";
   "CALL factorial       ";
   "POP EAX              ";
   "OUT EAX              ";
   "HLT                  ";
   "factorial:";
   "PUSH EBP             ";
   "MOV EBP, ESP         ";
   "MOV EAX, [EBP+2]     ";
   "CMP EAX, #1          ";
   "JLE end_factorial    ";
   "DEC EAX              ";
   "PUSH EAX             ";
   "CALL factorial       ";
   "POP EBX              ";
   "MOV EBX, [EBP+2]     ";
   "MUL EAX, EBX         ";
   "end_factorial:";
   "MOV ESP, EBP         ";
   "POP EBP              ";
   "RET                  "].

(** ** Vocabulary of the further facts *)

(** The condition under which each jump of the extended profile is taken
    after a comparison of [a] with [b]. *)
Definition jump_condition (opcode a b : Z) : bool :=
  match opcode with
  | 24 => true
  | 25 => a =? b
  | 26 => negb (a =? b)
  | 27 => a >? b
  | 28 => a <? b
  | 29 => a >=? b
  | 30 => a <=? b
  | _ => false
  end.

(** The events that report an opcode the simulator does not know. *)
Definition is_unknown_opcode (e : Simulator.event) : bool :=
  match e with
  | Simulator.UnknownOpcode _ _ => true
  | _ => false
  end.

(** The console went from [before] to [after] without any report of an
    unknown opcode. *)
Definition no_unknown_opcode_reported (before after : list Simulator.event) : Prop :=
  exists new,
    after = before ++ new /\
    forallb (fun e => negb (is_unknown_opcode e)) new = true.

(** What [scanf] leaves unread, whether it converts a number or not. *)
Definition unread_after_scanf (s : string) : string :=
  match CLib.scanf_int s with
  | CLib.Converted _ unread => unread
  | CLib.NotConverted unread => unread
  end.

(** The opcodes the simple simulator executes. *)
Definition simple_known_opcode (opcode : Z) : bool :=
  existsb (Z.eqb opcode)
    [0; 1; 2; 3; 4; 5; 6; 7; 8; 9; 10; 16; 17; 18; 24; 25; 26; 27; 28].

(** The fields of the simple profile fit their widths: two bits for a
    register, of which only [0], [1] and [2] name one, nine for a value. *)
Definition simple_fits (f : Simple.fields) : Prop :=
  match f with
  | Simple.OpOnly opcode =>
      0 <= opcode < 32 /\ simple_known_opcode opcode = true
  | Simple.OpReg opcode reg1_code =>
      0 <= opcode < 32 /\ simple_known_opcode opcode = true /\
      0 <= reg1_code < 3
  | Simple.OpAddr opcode value =>
      0 <= opcode < 32 /\ simple_known_opcode opcode = true /\
      0 <= value < 512
  | Simple.OpRegImm opcode reg1_code value =>
      0 <= opcode < 32 /\ simple_known_opcode opcode = true /\
      0 <= reg1_code < 3 /\ 0 <= value < 512
  | Simple.OpRegReg opcode reg1_code reg2_code =>
      0 <= opcode < 32 /\ simple_known_opcode opcode = true /\
      0 <= reg1_code < 3 /\ 0 <= reg2_code < 3
  end.

(** What the simple simulator reads back from a word. *)
Definition simple_decodes_to (instruction : Z) (f : Simple.fields) : Prop :=
  match f with
  | Simple.OpOnly opcode => Simple.decode_opcode instruction = opcode
  | Simple.OpReg opcode reg1_code =>
      Simple.decode_opcode instruction = opcode /\
      Simple.decode_reg1 instruction = reg1_code
  | Simple.OpAddr opcode value =>
      Simple.decode_opcode instruction = opcode /\
      Simple.decode_value instruction = value
  | Simple.OpRegImm opcode reg1_code value =>
      Simple.decode_opcode instruction = opcode /\
      Simple.decode_reg1 instruction = reg1_code /\
      Simple.decode_value instruction = value
  | Simple.OpRegReg opcode reg1_code reg2_code =>
      Simple.decode_opcode instruction = opcode /\
      Simple.decode_reg1 instruction = reg1_code /\
      Simple.decode_reg2 instruction = reg2_code
  end.

Definition simple_is_unknown_opcode (e : SimpleSimulator.event) : bool :=
  match e with
  | SimpleSimulator.UnknownOpcode _ _ => true
  | _ => false
  end.

(** The counting loop of the simple profile, after a first line that sets
    [C]. *)
Definition countdown_program (first : string) : list string :=
  [first; "loop: OUT C"; "DEC C"; "JNZ C, loop"; "OUT C"].

(** [k], [k - 1], ..., [1]. *)
Fixpoint count_from (k : nat) : list Z :=
  match k with
  | O => []
  | S j => Z.of_nat (S j) :: count_from j
  end.

(** The number of lines that hold a colon, that is, a label. *)
Fixpoint label_lines (lines : list string) : nat :=
  match lines with
  | [] => O
  | line :: rest =>
      match CLib.strchr ":"%char line with
      | Some _ => S (label_lines rest)
      | None => label_lines rest
      end
  end.

(** The lines of [program_memory] that hold an instruction. *)
Fixpoint instruction_lines (lines : list string) : list string :=
  match lines with
  | [] => []
  | line :: rest =>
      if CLib.is_empty line then instruction_lines rest
      else line :: instruction_lines rest
  end.

(** A string without any of the delimiters of [strtok], a token. *)
Fixpoint no_delimiter (s : string) : bool :=
  match s with
  | EmptyString => true
  | String c r => negb (CLib.is_delim c) && no_delimiter r
  end.

(** What [load_program] leaves in a row of [program_memory]. *)
Definition stored_line (l : string) : Prop :=
  CLib.is_empty l = false /\
  (String.length l <= MAX_LINE_LENGTH - 1)%nat /\
  CLib.isspace (CLib.head l) = false /\
  CLib.strchr ";"%char l = None /\
  CLib.strchr Loader.newline l = None /\
  CLib.strchr Loader.carriage_return l = None.

(** The text of a file whose lines each end in a newline. *)
Fixpoint file_text (lines : list string) : string :=
  match lines with
  | [] => EmptyString
  | l :: rest => (l ++ String Loader.newline (file_text rest))%string
  end.

(** A source line that [fgets] reads in one piece. *)
Definition one_buffer (l : string) : Prop :=
  CLib.strchr Loader.newline l = None /\
  (String.length l < MAX_LINE_LENGTH - 1)%nat.

(** The words of the program of the README. *)
Definition readme_words : list Z :=
  [12293; 22528; 26630; 24576; 10240; 0; 24064; 38624; 30914; 43009;
   61457; 20480; 22528; 26630; 24832; 31170; 2080; 38848; 26112; 28672].

(** The product [1 * 2 * ... * k]. *)
Fixpoint factorial_of (k : nat) : Z :=
  match k with
  | O => 1
  | S j => Z.of_nat (S j) * factorial_of j
  end.

(** Every character of [s] satisfies [p]. *)
Fixpoint all_chars (p : ascii -> bool) (s : string) : bool :=
  match s with
  | EmptyString => true
  | String c r => p c && all_chars p r
  end.

(** The number a string of decimal digits writes, the first digit the most
    significant. *)
Fixpoint number_of (s : string) : Z :=
  match s with
  | EmptyString => 0
  | String c r =>
      CLib.digit_value c * 10 ^ Z.of_nat (String.length r) + number_of r
  end.

(** The number typed as a sign and a string of digits. *)
Definition typed_number (sign number : string) : Z :=
  if String.eqb sign "-" then - number_of number else number_of number.

(** [s] has no newline. *)
Definition on_one_line (s : string) : Prop :=
  CLib.strchr CLib.newline s = None.

(** [s] starts as a decimal number does: with a digit, or with a sign and a
    digit. *)
Definition starts_number (s : string) : bool :=
  match s with
  | String "-"%char r => CLib.isdigit (CLib.head r)
  | String "+"%char r => CLib.isdigit (CLib.head r)
  | _ => CLib.isdigit (CLib.head s)
  end.

(** * Facts *)

(** ** Bit fields *)

Section BitFields.

(** A field placed above [k] bits and a value below [2^k] do not overlap:
    the bitwise or is the sum. *)
Lemma lor_shiftl_low (a b k : Z) :
  0 <= k -> 0 <= b < 2 ^ k -> Z.lor (Z.shiftl a k) b = a * 2 ^ k + b.
Proof.
  intros Hk Hb.
  assert (Hland : Z.land (Z.shiftl a k) b = 0).
  { apply Z.bits_inj'. intros n Hn.
    rewrite Z.land_spec, Z.bits_0.
    destruct (Z.lt_ge_cases n k) as [Hlt | Hge].
    - rewrite Z.shiftl_spec_low by assumption. reflexivity.
    - rewrite <- (Z.mod_small b (2 ^ k)) by assumption.
      rewrite Z.mod_pow2_bits_high by lia.
      apply andb_false_r. }
  pose proof (Z.add_lor_land (Z.shiftl a k) b) as Hadd.
  rewrite Hland, Z.add_0_r in Hadd.
  rewrite Hadd, Z.shiftl_mul_pow2 by assumption.
  reflexivity.
Qed.

(** The same for any word whose low [k] bits are clear. *)
Lemma lor_low_bits (x b k : Z) :
  0 <= k -> 0 <= b < 2 ^ k -> x mod 2 ^ k = 0 -> Z.lor x b = x + b.
Proof.
  intros Hk Hb Hx.
  assert (Hpos : 0 < 2 ^ k) by (apply Z.pow_pos_nonneg; lia).
  pose proof (Z.div_mod x (2 ^ k) ltac:(lia)) as Hdm.
  rewrite Hx, Z.add_0_r in Hdm.
  rewrite Hdm at 1.
  rewrite Z.mul_comm, <- Z.shiftl_mul_pow2 by assumption.
  rewrite lor_shiftl_low by assumption.
  lia.
Qed.

Lemma shiftr_div (a k : Z) : 0 <= k -> Z.shiftr a k = a / 2 ^ k.
Proof. intros Hk. apply Z.shiftr_div_pow2. assumption. Qed.

Lemma land_mask (a k : Z) : 0 <= k -> Z.land a (2 ^ k - 1) = a mod 2 ^ k.
Proof.
  intros Hk. rewrite <- Z.land_ones by assumption.
  rewrite Z.ones_equiv, Z.sub_1_r. reflexivity.
Qed.

End BitFields.

(** ** Encoding and decoding (extended profile) *)

Section RoundTrip.

Import Extended.

Lemma Fields_inj (F : Type) (a b : F) : Fields a = Fields b -> b = a.
Proof. intros H. congruence. Qed.

Lemma get_register_code_range (reg_name : string) :
  (get_register_code reg_name =? -1) = false ->
  0 <= get_register_code reg_name < 8.
Proof.
  unfold get_register_code.
  repeat match goal with
         | |- context [if ?b then _ else _] => destruct b
         end; simpl; intros H; try lia; discriminate.
Qed.

(** Walk down a chain of [if ... else if ...]. *)
Ltac split_eqb :=
  repeat match goal with
         | |- context [if ?b then _ else _] => destruct b
         end.

Lemma one_register_opcode_range (m : string) :
  0 <= one_register_opcode m < 32 /\
  Simulator.is_base_offset (one_register_opcode m) = false.
Proof. unfold one_register_opcode. split_eqb; simpl; split; (lia || reflexivity). Qed.

Lemma jump_opcode_range (m : string) :
  0 <= jump_opcode m < 32 /\
  Simulator.is_base_offset (jump_opcode m) = false.
Proof. unfold jump_opcode. split_eqb; simpl; split; (lia || reflexivity). Qed.

Lemma register_pair_opcode_range (m : string) :
  0 <= register_pair_opcode m < 32 /\
  Simulator.is_base_offset (register_pair_opcode m) = false.
Proof. unfold register_pair_opcode. split_eqb; simpl; split; (lia || reflexivity). Qed.

Lemma immediate_opcode_range (m : string) (opcode : Z) :
  immediate_opcode m = Some opcode ->
  0 <= opcode < 32 /\ Simulator.is_base_offset opcode = false.
Proof.
  unfold immediate_opcode. split_eqb; intros H; try discriminate H; injection H as <-;
    split; (lia || reflexivity).
Qed.

Lemma out_of_range_false (value max : Z) :
  out_of_range value max = false -> 0 <= value <= max.
Proof.
  unfold out_of_range. intros H.
  apply orb_false_elim in H as [H1 H2].
  apply Z.ltb_ge in H1. rewrite Z.gtb_ltb in H2. apply Z.ltb_ge in H2. lia.
Qed.

(** Case analysis on the tests that guard the paths of the encoder;
    failing paths are closed at once. *)
Ltac encoder_cases H :=
  repeat match type of H with
         | Failure _ _ = Fields _ => discriminate H
         | NoTokens = Fields _ => discriminate H
         | context [if ?b then _ else _] => destruct b eqn:?
         | context [match ?o with Some _ => _ | None => _ end] =>
             destruct o eqn:?
         end.

Ltac use_ranges :=
  repeat match goal with
         | H : (get_register_code _ =? -1) = false |- _ =>
             apply get_register_code_range in H
         | H : (_ || _) = false |- _ => apply orb_false_elim in H as [? ?]
         | H : out_of_range _ _ = false |- _ => apply out_of_range_false in H
         | H : immediate_opcode _ = Some _ |- _ =>
             apply immediate_opcode_range in H as [? ?]
         end.

Ltac finish_fits :=
  unfold fits; repeat split; first [lia | reflexivity | assumption].

Lemma encode_mov_base_offset_fits pc dest src dest_is_mem plus f :
  encode_mov_base_offset pc dest src dest_is_mem plus = Fields f -> fits f.
Proof.
  unfold encode_mov_base_offset. intros H.
  encoder_cases H; apply Fields_inj in H; subst f; use_ranges; finish_fits.
Qed.

Lemma encode_mov_direct_fits symbol_table pc opcode reg mem f :
  0 <= opcode < 32 -> Simulator.is_base_offset opcode = false ->
  encode_mov_direct symbol_table pc opcode reg mem = Fields f -> fits f.
Proof.
  unfold encode_mov_direct. intros Hop Hbo H.
  encoder_cases H; apply Fields_inj in H; subst f; use_ranges; finish_fits.
Qed.

Lemma encode_mov_fits symbol_table pc dest src f :
  encode_mov symbol_table pc dest src = Fields f -> fits f.
Proof.
  unfold encode_mov. intros H.
  destruct (Ascii.eqb (CLib.head dest) "["%char && Ascii.eqb (CLib.head src) "["%char);
    [discriminate H |].
  assert (Hrest :
    forall g,
      (if negb (Ascii.eqb (CLib.head dest) "["%char) && Ascii.eqb (CLib.head src) "#"%char
       then
         if get_register_code dest =? -1 then Failure pc ErrInvalidRegister
         else if out_of_range (CLib.atoi (CLib.skipn 1 src)) 0xFF
              then Failure pc (ErrOutOfRange (CLib.atoi (CLib.skipn 1 src)))
              else Fields (OpRegImm 6 (get_register_code dest) (CLib.atoi (CLib.skipn 1 src)))
       else if negb (Ascii.eqb (CLib.head dest) "["%char) && Ascii.eqb (CLib.head src) "["%char
            then encode_mov_direct symbol_table pc 7 dest src
            else if Ascii.eqb (CLib.head dest) "["%char && negb (Ascii.eqb (CLib.head src) "["%char)
                 then encode_mov_direct symbol_table pc 8 src dest
                 else if negb (Ascii.eqb (CLib.head dest) "["%char) && negb (Ascii.eqb (CLib.head src) "["%char)
                      then if (get_register_code dest =? -1) || (get_register_code src =? -1)
                           then Failure pc ErrInvalidRegister
                           else Fields (OpRegReg 18 (get_register_code dest) (get_register_code src))
                      else Failure pc ErrInvalidOperands) = Fields g -> fits g).
  { clear H. intros g H.
    destruct (negb (Ascii.eqb (CLib.head dest) "["%char) && Ascii.eqb (CLib.head src) "#"%char).
    { encoder_cases H; apply Fields_inj in H; subst g; use_ranges; finish_fits. }
    destruct (negb (Ascii.eqb (CLib.head dest) "["%char) && Ascii.eqb (CLib.head src) "["%char).
    { apply encode_mov_direct_fits in H; [assumption | lia | reflexivity]. }
    destruct (Ascii.eqb (CLib.head dest) "["%char && negb (Ascii.eqb (CLib.head src) "["%char)).
    { apply encode_mov_direct_fits in H; [assumption | lia | reflexivity]. }
    encoder_cases H; apply Fields_inj in H; subst g; use_ranges; finish_fits. }
  destruct (CLib.strchr "+"%char _) as [plus |];
    destruct (Ascii.eqb (CLib.head dest) "["%char || Ascii.eqb (CLib.head src) "["%char) eqn:Hmem;
    try (apply Hrest; exact H).
  apply encode_mov_base_offset_fits in H. exact H.
Qed.

Lemma encode_fields_fits symbol_table line pc f :
  encode_fields symbol_table line pc = Fields f -> fits f.
Proof.
  unfold encode_fields. intros H.
  destruct (length _ =? 0)%nat; [discriminate H |].
  destruct (String.eqb _ "HLT").
  { apply Fields_inj in H; subst f. finish_fits. }
  destruct (String.eqb _ "RET").
  { apply Fields_inj in H; subst f. finish_fits. }
  destruct (is_one_register _).
  { pose proof (one_register_opcode_range
                  (CLib.strupr (part (split_parts (CLib.strncpy (MAX_LINE_LENGTH - 1) line)) 0)))
      as [? ?].
    encoder_cases H; apply Fields_inj in H; subst f; use_ranges; finish_fits. }
  destruct (is_jump _).
  { pose proof (jump_opcode_range
                  (CLib.strupr (part (split_parts (CLib.strncpy (MAX_LINE_LENGTH - 1) line)) 0)))
      as [? ?].
    encoder_cases H; apply Fields_inj in H; subst f; use_ranges; finish_fits. }
  destruct (is_two_operand _).
  { pose proof (register_pair_opcode_range
                  (CLib.strupr (part (split_parts (CLib.strncpy (MAX_LINE_LENGTH - 1) line)) 0)))
      as [? ?].
    encoder_cases H; apply Fields_inj in H; subst f; use_ranges; finish_fits. }
  destruct (String.eqb _ "MOV"); [| discriminate H].
  destruct (negb _); [discriminate H |].
  apply encode_mov_fits in H. exact H.
Qed.

Lemma decode_opcode_div w : Simulator.decode_opcode w = w / 2048.
Proof. unfold Simulator.decode_opcode. rewrite shiftr_div by lia. reflexivity. Qed.

Lemma decode_reg1_div w : Simulator.decode_reg1 w = (w / 256) mod 8.
Proof.
  unfold Simulator.decode_reg1. rewrite shiftr_div by lia.
  change 0x07 with (2 ^ 3 - 1). rewrite land_mask by lia. reflexivity.
Qed.

Lemma decode_reg2_div w : Simulator.decode_reg2 w = (w / 32) mod 8.
Proof.
  unfold Simulator.decode_reg2. rewrite shiftr_div by lia.
  change 0x07 with (2 ^ 3 - 1). rewrite land_mask by lia. reflexivity.
Qed.

Lemma decode_value_mod w : Simulator.decode_value w = w mod 256.
Proof.
  unfold Simulator.decode_value.
  change 0xFF with (2 ^ 8 - 1). rewrite land_mask by lia. reflexivity.
Qed.

Lemma decode_offset_mod w : Simulator.decode_offset w = w mod 32.
Proof.
  unfold Simulator.decode_offset.
  change 0x1F with (2 ^ 5 - 1). rewrite land_mask by lia. reflexivity.
Qed.

(** The packing expressions are sums of the shifted fields. *)
Lemma pack_sum (f : fields) :
  fits f ->
  pack f =
  match f with
  | OpOnly opcode => opcode * 2048
  | OpReg opcode reg1_code => opcode * 2048 + reg1_code * 256
  | OpAddr opcode value => opcode * 2048 + value
  | OpRegImm opcode reg1_code value => opcode * 2048 + reg1_code * 256 + value
  | OpRegReg opcode reg1_code reg2_code =>
      opcode * 2048 + reg1_code * 256 + reg2_code * 32
  | OpBaseOff opcode reg_code base_reg_code offset =>
      opcode * 2048 + reg_code * 256 + base_reg_code * 32 + offset
  end.
Proof.
  destruct f; unfold fits, pack, u16; intros H;
    repeat rewrite Z.shiftl_mul_pow2 by lia;
    change (2 ^ 11) with 2048; change (2 ^ 8) with 256; change (2 ^ 5) with 32.
  - apply Z.mod_small. lia.
  - rewrite (lor_low_bits _ _ 11) by (try apply Z.mod_mul; lia).
    apply Z.mod_small. lia.
  - rewrite (lor_low_bits _ _ 11) by (try apply Z.mod_mul; lia).
    apply Z.mod_small. lia.
  - rewrite (lor_low_bits (opcode * 2048) _ 11) by (try apply Z.mod_mul; lia).
    rewrite (lor_low_bits _ value 8).
    + apply Z.mod_small. lia.
    + lia.
    + lia.
    + replace (opcode * 2048 + reg1_code * 256)
        with ((opcode * 8 + reg1_code) * 2 ^ 8) by lia.
      apply Z.mod_mul. lia.
  - rewrite (lor_low_bits (opcode * 2048) _ 11) by (try apply Z.mod_mul; lia).
    rewrite (lor_low_bits _ (reg2_code * 32) 8).
    + apply Z.mod_small. lia.
    + lia.
    + lia.
    + replace (opcode * 2048 + reg1_code * 256)
        with ((opcode * 8 + reg1_code) * 2 ^ 8) by lia.
      apply Z.mod_mul. lia.
  - rewrite (lor_low_bits (opcode * 2048) _ 11) by (try apply Z.mod_mul; lia).
    rewrite (lor_low_bits _ (base_reg_code * 32) 8).
    + rewrite (lor_low_bits _ offset 5).
      * apply Z.mod_small. lia.
      * lia.
      * lia.
      * replace (opcode * 2048 + reg_code * 256 + base_reg_code * 32)
          with ((opcode * 64 + reg_code * 8 + base_reg_code) * 2 ^ 5) by lia.
        apply Z.mod_mul. lia.
    + lia.
    + lia.
    + replace (opcode * 2048 + reg_code * 256)
        with ((opcode * 8 + reg_code) * 2 ^ 8) by lia.
      apply Z.mod_mul. lia.
Qed.

(** The decoder inverts the packing of fields that fit. *)
Lemma pack_decodes (f : fields) : fits f -> decodes_to (pack f) f.
Proof.
  intros Hfits. rewrite (pack_sum f Hfits).
  destruct f; unfold fits in Hfits; unfold decodes_to;
    rewrite ?decode_opcode_div, ?decode_reg1_div, ?decode_reg2_div,
            ?decode_value_mod, ?decode_offset_mod.
  - assert (Hop : opcode * 2048 / 2048 = opcode)
      by (Z.div_mod_to_equations; lia).
    rewrite Hop. tauto.
  - assert (Hop : (opcode * 2048 + reg1_code * 256) / 2048 = opcode)
      by (Z.div_mod_to_equations; lia).
    rewrite Hop. repeat split; try tauto.
    Z.div_mod_to_equations; lia.
  - assert (Hop : (opcode * 2048 + value) / 2048 = opcode)
      by (Z.div_mod_to_equations; lia).
    rewrite Hop. repeat split; try tauto.
    Z.div_mod_to_equations; lia.
  - assert (Hop : (opcode * 2048 + reg1_code * 256 + value) / 2048 = opcode)
      by (Z.div_mod_to_equations; lia).
    rewrite Hop. repeat split; try tauto;
      Z.div_mod_to_equations; lia.
  - assert (Hop : (opcode * 2048 + reg1_code * 256 + reg2_code * 32) / 2048 = opcode)
      by (Z.div_mod_to_equations; lia).
    rewrite Hop. repeat split; try tauto;
      Z.div_mod_to_equations; lia.
  - assert (Hop : (opcode * 2048 + reg_code * 256 + base_reg_code * 32 + offset) / 2048
                  = opcode)
      by (Z.div_mod_to_equations; lia).
    rewrite Hop. repeat split; try tauto;
      Z.div_mod_to_equations; lia.
Qed.

End RoundTrip.

(** C1: a line the extended encoder turns into fields [f] gives the word
    [pack f], and the shifts and masks of the simulator read back from that
    word the opcode and every operand field of [f]: the register indices, the
    immediate or address, the base register and the offset. *)
Theorem encode_decode_round_trip (symbol_table : list Label) (line : string)
    (pc : Z) (f : Extended.fields) :
  Extended.encode_fields symbol_table line pc = Fields f ->
  Extended.encode_instruction symbol_table line pc = Extended.pack f /\
  decodes_to (Extended.encode_instruction symbol_table line pc) f.
Proof.
  intros H. unfold Extended.encode_instruction. rewrite H.
  split; [reflexivity |].
  apply pack_decodes. apply (encode_fields_fits symbol_table line pc). exact H.
Qed.

Lemma encode_decode_round_trip_witness :
  Extended.encode_fields [] "MOV [EBP+4], ECX" 7 =
    Fields (Extended.OpBaseOff 31 2 6 4) /\
  Extended.encode_instruction [] "MOV [EBP+4], ECX" 7 =
    Extended.pack (Extended.OpBaseOff 31 2 6 4) /\
  decodes_to (Extended.encode_instruction [] "MOV [EBP+4], ECX" 7)
             (Extended.OpBaseOff 31 2 6 4).
Proof.
  split; [reflexivity |].
  exact (encode_decode_round_trip [] "MOV [EBP+4], ECX" 7
           (Extended.OpBaseOff 31 2 6 4) eq_refl).
Defined.

(** ** Labels *)

Section Labels.

Lemma instruction_count_app (l1 l2 : list string) :
  instruction_count (l1 ++ l2) = instruction_count l1 + instruction_count l2.
Proof. induction l1 as [| l l1 IH]; simpl; [reflexivity | rewrite IH; lia]. Qed.

Lemma instruction_count_nonneg (l : list string) : 0 <= instruction_count l.
Proof. induction l as [| x l IH]; simpl; [lia | destruct (CLib.is_empty x); lia]. Qed.

Lemma lookup_unused (t1 t2 : list Label) (n : string) :
  unused t1 n ->
  get_address_for_label (t1 ++ t2) n = get_address_for_label t2 n.
Proof.
  induction 1 as [| l t1 Hl _ IH]; simpl; [reflexivity |].
  destruct (String.eqb_spec (name l) n); [contradiction | exact IH].
Qed.

Lemma lookup_head (a : Z) (t : list Label) (n : string) :
  get_address_for_label (mkLabel n a :: t) n = a.
Proof. simpl. rewrite String.eqb_refl. reflexivity. Qed.

(** The first pass over [pre ++ rest] is the first pass over [pre]
    followed by the first pass over [rest], started with the table and the
    counter [pre] leaves. *)
Lemma extended_build_app (pre rest : list string) :
  forall (table : list Label) (a : Z),
    let r1 := Extended.build_symbol_table_from pre table a in
    let r2 := Extended.build_symbol_table_from rest (symbol_table r1)
                (a + instruction_count (program_memory r1)) in
    Extended.build_symbol_table_from (pre ++ rest) table a =
    mkPass1 (symbol_table r2) (program_memory r1 ++ program_memory r2)
            (warnings r1 ++ warnings r2).
Proof.
  induction pre as [| line pre IH]; intros table a; simpl.
  - rewrite Z.add_0_r. destruct (Extended.build_symbol_table_from rest table a).
    reflexivity.
  - destruct (CLib.strchr ":"%char line) as [colon |].
    + destruct (length table <? MAX_LABELS)%nat; rewrite IH; simpl;
        destruct (CLib.is_empty (instruction_text line colon));
        rewrite ?Z.add_0_l, ?Z.add_assoc; reflexivity.
    + rewrite IH; simpl. destruct (CLib.is_empty line);
        rewrite ?Z.add_0_l, ?Z.add_assoc; reflexivity.
Qed.

Lemma extended_table_extends (lines : list string) :
  forall table a, exists more,
    symbol_table (Extended.build_symbol_table_from lines table a) = table ++ more.
Proof.
  induction lines as [| line lines IH]; intros table a; simpl.
  - exists []. rewrite app_nil_r. reflexivity.
  - destruct (CLib.strchr ":"%char line) as [colon |].
    + destruct (length table <? MAX_LABELS)%nat; simpl.
      * destruct (IH (table ++ [mkLabel (stored_name (label_text line colon)) a])
                    (if CLib.is_empty (instruction_text line colon) then a else a + 1))
          as [more Hmore].
        rewrite Hmore, <- app_assoc. eexists. reflexivity.
      * apply IH.
    + simpl. apply IH.
Qed.

Lemma extended_program_memory (lines : list string) :
  forall table a,
    program_memory (Extended.build_symbol_table_from lines table a) =
    map strip_label lines.
Proof.
  induction lines as [| line lines IH]; intros table a; simpl; [reflexivity |].
  unfold strip_label at 1.
  destruct (CLib.strchr ":"%char line) as [colon |].
  - destruct (length table <? MAX_LABELS)%nat; simpl; rewrite IH; reflexivity.
  - simpl. rewrite IH. reflexivity.
Qed.

(** The address recorded for a label that is new and still fits the
    table: the number of instruction lines before it. *)
Lemma extended_label_address (pre post : list string) (line n : string) :
  defines line n ->
  (length (symbol_table (Extended.build_symbol_table pre)) < MAX_LABELS)%nat ->
  unused (symbol_table (Extended.build_symbol_table pre)) n ->
  get_address_for_label
    (symbol_table (Extended.build_symbol_table (pre ++ line :: post))) n =
  instruction_count (map strip_label pre).
Proof.
  intros (colon & Hcolon & ->) Hroom Hnew.
  unfold Extended.build_symbol_table in *.
  rewrite extended_build_app. cbn [symbol_table].
  rewrite extended_program_memory.
  set (table := symbol_table (Extended.build_symbol_table_from pre [] 0)) in *.
  cbn [Extended.build_symbol_table_from]. rewrite Hcolon.
  apply Nat.ltb_lt in Hroom. rewrite Hroom. cbn [symbol_table].
  match goal with
  | |- context [Extended.build_symbol_table_from post ?t ?a] =>
      destruct (extended_table_extends post t a) as [more ->]
  end.
  rewrite <- !app_assoc. rewrite lookup_unused by assumption.
  simpl app. rewrite lookup_head. lia.
Qed.

(** The second pass over [l1 ++ l2]: the pass over [l1], and when that
    did not fail the pass over [l2]. *)
Lemma extended_assemble_app (symbol_table : list Label) (l1 l2 : list string) :
  forall (i : Z) (code : list Z),
    Extended.assemble_from symbol_table (l1 ++ l2) i code =
    (if snd (Extended.assemble_from symbol_table l1 i code) <? 0
     then Extended.assemble_from symbol_table l1 i code
     else Extended.assemble_from symbol_table l2 (i + Z.of_nat (length l1))
            (fst (Extended.assemble_from symbol_table l1 i code))).
Proof.
  induction l1 as [| line l1 IH]; intros i code.
  - cbn [app Extended.assemble_from fst snd length].
    replace (Z.of_nat (length code) <? 0) with false by (symmetry; apply Z.ltb_ge; lia).
    rewrite Z.add_0_r. reflexivity.
  - cbn [app Extended.assemble_from length].
    replace (i + Z.of_nat (S (length l1))) with (i + 1 + Z.of_nat (length l1)) by lia.
    destruct (CLib.is_empty line); [apply IH |].
    destruct (Extended.encode_instruction symbol_table line i =? ENCODE_ERROR);
      [reflexivity | apply IH].
Qed.

(** A pass that does not fail appends one word for every line that holds
    an instruction, and returns the number of words. *)
Lemma extended_assemble_emits (symbol_table : list Label) (lines : list string) :
  forall (i : Z) (code result : list Z) (count : Z),
    Extended.assemble_from symbol_table lines i code = (result, count) ->
    0 <= count ->
    exists emitted,
      result = code ++ emitted /\
      Z.of_nat (length emitted) = instruction_count lines /\
      count = Z.of_nat (length result).
Proof.
  induction lines as [| line lines IH]; intros i code result count H Hcount;
    cbn [Extended.assemble_from instruction_count] in *.
  - injection H as <- <-. exists []. rewrite app_nil_r. auto.
  - destruct (CLib.is_empty line).
    + apply IH in H as (emitted & -> & Hlen & ->); [| assumption].
      exists emitted. repeat split; [lia].
    + destruct (Extended.encode_instruction symbol_table line i =? ENCODE_ERROR).
      * injection H as <- <-. lia.
      * apply IH in H as (emitted & -> & Hlen & ->); [| assumption].
        exists (Extended.encode_instruction symbol_table line i :: emitted).
        rewrite <- app_assoc. repeat split. cbn [length]. lia.
Qed.

Lemma map_firstn_app (pre rest : list string) :
  firstn (length pre) (map strip_label (pre ++ rest)) = map strip_label pre.
Proof.
  rewrite map_app.
  rewrite <- (length_map strip_label pre) at 1.
  rewrite firstn_app, Nat.sub_diag, firstn_all. simpl. apply app_nil_r.
Qed.

Lemma simple_build_app (pre rest : list string) :
  forall (table : list Label) (i : Z),
    let r1 := Simple.build_symbol_table_from pre table i in
    let r2 := Simple.build_symbol_table_from rest (symbol_table r1)
                (i + Z.of_nat (length pre)) in
    Simple.build_symbol_table_from (pre ++ rest) table i =
    mkPass1 (symbol_table r2) (program_memory r1 ++ program_memory r2)
            (warnings r1 ++ warnings r2).
Proof.
  induction pre as [| line pre IH]; intros table i.
  - cbn [app Simple.build_symbol_table_from length symbol_table program_memory warnings].
    rewrite Z.add_0_r. destruct (Simple.build_symbol_table_from rest table i).
    reflexivity.
  - cbn [app Simple.build_symbol_table_from length].
    replace (i + Z.of_nat (S (length pre))) with (i + 1 + Z.of_nat (length pre)) by lia.
    destruct (CLib.strchr ":"%char line) as [colon |].
    + destruct (length table <? MAX_LABELS)%nat; rewrite IH; reflexivity.
    + rewrite IH; reflexivity.
Qed.

Lemma simple_table_extends (lines : list string) :
  forall table i, exists more,
    symbol_table (Simple.build_symbol_table_from lines table i) = table ++ more.
Proof.
  induction lines as [| line lines IH]; intros table i; simpl.
  - exists []. rewrite app_nil_r. reflexivity.
  - destruct (CLib.strchr ":"%char line) as [colon |].
    + destruct (length table <? MAX_LABELS)%nat; simpl.
      * destruct (IH (table ++ [mkLabel (stored_name (label_text line colon)) i]) (i + 1))
          as [more Hmore].
        rewrite Hmore, <- app_assoc. eexists. reflexivity.
      * apply IH.
    + simpl. apply IH.
Qed.

(** In the simple profile the address is the index of the line. *)
Lemma simple_label_address (pre post : list string) (line n : string) :
  defines line n ->
  (length (symbol_table (Simple.build_symbol_table pre)) < MAX_LABELS)%nat ->
  unused (symbol_table (Simple.build_symbol_table pre)) n ->
  get_address_for_label
    (symbol_table (Simple.build_symbol_table (pre ++ line :: post))) n =
  Z.of_nat (length pre).
Proof.
  intros (colon & Hcolon & ->) Hroom Hnew.
  unfold Simple.build_symbol_table in *.
  rewrite simple_build_app. cbn [symbol_table].
  set (table := symbol_table (Simple.build_symbol_table_from pre [] 0)) in *.
  cbn [Simple.build_symbol_table_from]. rewrite Hcolon.
  apply Nat.ltb_lt in Hroom. rewrite Hroom. cbn [symbol_table].
  match goal with
  | |- context [Simple.build_symbol_table_from post ?t ?a] =>
      destruct (simple_table_extends post t a) as [more ->]
  end.
  rewrite <- !app_assoc. rewrite lookup_unused by assumption.
  simpl app. rewrite lookup_head. lia.
Qed.

End Labels.

(** ** The line number only labels the diagnostics *)

Section Position.

Ltac walk :=
  repeat match goal with
         | |- context [if ?b then _ else _] => destruct b
         | |- context [match ?o with Some _ => _ | None => _ end] => destruct o
         end; try reflexivity.

Lemma encode_mov_pc symbol_table pc dest src :
  Extended.encode_mov symbol_table pc dest src =
  at_pc _ pc (Extended.encode_mov symbol_table 0 dest src).
Proof.
  unfold Extended.encode_mov, Extended.encode_mov_base_offset,
    Extended.encode_mov_direct.
  walk.
Qed.

Lemma encode_fields_pc symbol_table line pc :
  Extended.encode_fields symbol_table line pc =
  at_pc _ pc (Extended.encode_fields symbol_table line 0).
Proof.
  unfold Extended.encode_fields. walk. apply encode_mov_pc.
Qed.

(** A line gives the same word wherever it stands in the program. *)
Lemma encode_instruction_pc symbol_table line pc1 pc2 :
  Extended.encode_instruction symbol_table line pc1 =
  Extended.encode_instruction symbol_table line pc2.
Proof.
  unfold Extended.encode_instruction.
  rewrite (encode_fields_pc symbol_table line pc1),
          (encode_fields_pc symbol_table line pc2).
  destruct (Extended.encode_fields symbol_table line 0); reflexivity.
Qed.

End Position.

(** ** All or nothing *)

Section AllOrNothing.

(** A line whose word is the sentinel makes the second pass return a
    negative count, whatever comes before and after it. *)
Lemma extended_sentinel_aborts (symbol_table : list Label)
    (pre post : list string) (line : string) :
  CLib.is_empty line = false ->
  Extended.encode_instruction symbol_table line (Z.of_nat (length pre)) = ENCODE_ERROR ->
  snd (Extended.assemble_from symbol_table (pre ++ line :: post) 0 []) < 0.
Proof.
  intros Hline Herr. rewrite extended_assemble_app.
  destruct (snd (Extended.assemble_from symbol_table pre 0 []) <? 0) eqn:Hpre.
  - apply Z.ltb_lt. exact Hpre.
  - cbn [Extended.assemble_from]. rewrite Hline.
    rewrite Z.add_0_l, Herr, Z.eqb_refl. cbn [snd]. lia.
Qed.

(** A line the encoder refuses aborts the assembly: [main] exits with
    status 1 and writes no binary. *)
Lemma extended_failure_writes_nothing (lines pre post : list string)
    (line : string) (pc : Z) (e : encode_error) :
  program_memory (Extended.build_symbol_table lines) = pre ++ line :: post ->
  CLib.is_empty line = false ->
  Extended.encode_fields (symbol_table (Extended.build_symbol_table lines)) line
    (Z.of_nat (length pre)) = Failure pc e ->
  Extended.main lines = Exit1.
Proof.
  intros Hmem Hline Hfail.
  unfold Extended.main, Extended.assemble. rewrite Hmem.
  pose proof (extended_sentinel_aborts
                (symbol_table (Extended.build_symbol_table lines)) pre post line Hline)
    as Habort.
  unfold Extended.encode_instruction in Habort. rewrite Hfail in Habort.
  specialize (Habort eq_refl).
  destruct (Extended.assemble_from _ (pre ++ line :: post) 0 []) as [code count].
  cbn [snd] in Habort. apply Z.ltb_lt in Habort. rewrite Habort. reflexivity.
Qed.

End AllOrNothing.

(** C2, as amended.  Extended profile: a label that is recorded (the table
    has room) under a name no earlier label uses resolves to the number of
    instruction lines before its definition, which is the number of words the
    second pass emits for those lines; a line that holds only a label leaves
    that number unchanged.  The table is complete before the second pass and
    is the one every line is encoded with, and a line is encoded to the same
    word wherever it stands, so a reference resolves alike before and after
    the definition.  Simple profile: the address is the
    index of the line that defines the label. *)
Theorem label_addresses (pre post : list string) (line n : string) :
  defines line n ->
  (let p := Extended.build_symbol_table (pre ++ line :: post) in
   let before := firstn (length pre) (program_memory p) in
   (length (symbol_table (Extended.build_symbol_table pre)) < MAX_LABELS)%nat ->
   unused (symbol_table (Extended.build_symbol_table pre)) n ->
   get_address_for_label (symbol_table p) n = instruction_count before /\
   (CLib.is_empty (strip_label line) = true ->
    instruction_count (firstn (S (length pre)) (program_memory p)) =
    instruction_count before) /\
   (forall code count,
      Extended.assemble p = (code, count) -> 0 <= count ->
      exists emitted rest,
        Extended.assemble_from (symbol_table p) before 0 [] =
          (emitted, Z.of_nat (length emitted)) /\
        code = emitted ++ rest /\
        get_address_for_label (symbol_table p) n = Z.of_nat (length emitted)) /\
   (forall reference pc1 pc2,
      Extended.encode_instruction (symbol_table p) reference pc1 =
      Extended.encode_instruction (symbol_table p) reference pc2)) /\
  ((length (symbol_table (Simple.build_symbol_table pre)) < MAX_LABELS)%nat ->
   unused (symbol_table (Simple.build_symbol_table pre)) n ->
   get_address_for_label
     (symbol_table (Simple.build_symbol_table (pre ++ line :: post))) n =
   Z.of_nat (length pre)).
Proof.
  intros Hdef. split.
  - intros p before Hroom Hnew.
    assert (Hbefore : before = map strip_label pre).
    { unfold before, p, Extended.build_symbol_table.
      rewrite extended_program_memory. apply map_firstn_app. }
    assert (Haddr : get_address_for_label (symbol_table p) n = instruction_count before).
    { rewrite Hbefore. apply extended_label_address; assumption. }
    split; [exact Haddr | split; [| split]].
    + intros Hempty. rewrite Hbefore.
      unfold p, Extended.build_symbol_table. rewrite extended_program_memory.
      replace (pre ++ line :: post) with ((pre ++ [line]) ++ post)
        by (rewrite <- app_assoc; reflexivity).
      replace (S (length pre)) with (length (pre ++ [line]))
        by (rewrite length_app; simpl; lia).
      rewrite map_firstn_app, map_app, instruction_count_app.
      cbn [map instruction_count]. rewrite Hempty. lia.
    + intros code count Hasm Hcount.
      unfold Extended.assemble in Hasm.
      assert (Hsplit : program_memory p = before ++ skipn (length pre) (program_memory p))
        by (symmetry; apply firstn_skipn).
      rewrite Hsplit, extended_assemble_app in Hasm.
      destruct (Extended.assemble_from (symbol_table p) before 0 []) as [emitted c] eqn:Hpre.
      cbn [fst snd] in Hasm.
      destruct (c <? 0) eqn:Hc.
      * injection Hasm as <- <-. apply Z.ltb_lt in Hc. lia.
      * apply Z.ltb_ge in Hc.
        destruct (extended_assemble_emits _ _ _ _ _ _ Hpre Hc) as (e & He & Hlen & Hcnt).
        destruct (extended_assemble_emits _ _ _ _ _ _ Hasm Hcount) as (rest & Hrest & _ & _).
        exists emitted, rest. subst c. repeat split; [assumption |].
        rewrite Haddr. simpl in He. subst e. lia.
    + intros reference pc1 pc2. apply encode_instruction_pc.
  - intros Hroom Hnew. apply simple_label_address; assumption.
Qed.


Lemma label_addresses_witness :
  defines "loop:" "loop" /\
  get_address_for_label
    (symbol_table (Extended.build_symbol_table
       (["start: MOV EAX, #1"; "skip:"] ++ ("loop:" :: ["INC EAX"; "JMP loop"]))))
    "loop" = 1.
Proof.
  assert (Hdef : defines "loop:" "loop") by (exists 4%nat; split; reflexivity).
  split; [exact Hdef |].
  destruct (label_addresses ["start: MOV EAX, #1"; "skip:"] ["INC EAX"; "JMP loop"]
              "loop:" "loop" Hdef) as [Hext _].
  assert (Hroom : (length (symbol_table (Extended.build_symbol_table
                     ["start: MOV EAX, #1"; "skip:"])) < MAX_LABELS)%nat)
    by (cbv; lia).
  assert (Hnew : unused (symbol_table (Extended.build_symbol_table
                   ["start: MOV EAX, #1"; "skip:"])) "loop")
    by (repeat constructor; discriminate).
  destruct (Hext Hroom Hnew) as [Haddr _].
  exact Haddr.
Defined.

(** The README program: three label-only lines, twenty words, and the
    labels at the words that follow them. *)
Example readme_program_labels :
  symbol_table (Extended.build_symbol_table readme_program) =
    [mkLabel "main" 0; mkLabel "factorial" 6; mkLabel "end_factorial" 17] /\
  snd (Extended.assemble (Extended.build_symbol_table readme_program)) = 20 /\
  nth 2 (assembled readme_program) 0 = Extended.pack (Extended.OpAddr 13 6) /\
  nth 13 (assembled readme_program) 0 = Extended.pack (Extended.OpAddr 13 6) /\
  nth 10 (assembled readme_program) 0 = Extended.pack (Extended.OpAddr 30 17).
Proof. repeat split. Qed.

(** C2 fails as stated: the first pass of the simple profile gives a label
    the index of its line, so a line that holds only a label does take an
    address. *)
Lemma simple_label_takes_line_index :
  ~ Claims.resolves_to_instruction_count Simple.build_symbol_table.
Proof.
  intros H.
  specialize (H ["a:"] ["INC A"] "b:" "b").
  assert (Hdef : defines "b:" "b") by (exists 1%nat; split; reflexivity).
  assert (Hroom : (length (symbol_table (Simple.build_symbol_table ["a:"])) < MAX_LABELS)%nat)
    by (cbv; lia).
  assert (Hnew : unused (symbol_table (Simple.build_symbol_table ["a:"])) "b")
    by (repeat constructor; discriminate).
  specialize (H Hdef Hroom Hnew).
  vm_compute in H. discriminate H.
Qed.

(** C3 at its failing input: the store [MOV [ESP+31], ESP] passes every
    check of the encoder, its word is all ones, which is the sentinel, and
    the assembler gives up though no line is in error; the simulator would
    read the word back as that store. *)
Theorem sentinel_is_a_valid_word :
  Extended.encode_fields [] "MOV [ESP+31], ESP" 0 =
    Fields (Extended.OpBaseOff 31 7 7 31) /\
  Extended.encode_instruction [] "MOV [ESP+31], ESP" 0 = ENCODE_ERROR /\
  decodes_to ENCODE_ERROR (Extended.OpBaseOff 31 7 7 31) /\
  Extended.main ["MOV [ESP+31], ESP"] = Exit1 /\
  Extended.main ["MOV [ESP+30], ESP"] = Exit0 [65534].
Proof. repeat split. Qed.

(** C9 at its failing inputs: the first pass of the simple profile prints
    the "maximum number of labels reached" message for every label it
    records, and prints nothing for the label that no longer fits; the first
    pass of the extended profile does the opposite. *)
Theorem simple_warning_misplaced :
  Simple.build_symbol_table ["loop: INC A"] =
    mkPass1 [mkLabel "loop" 0] ["INC A"] ["loop"] /\
  warnings (Simple.build_symbol_table (replicate 64 "x:" ++ ["last: INC A"])) =
    replicate 64 "x" /\
  get_address_for_label
    (symbol_table (Simple.build_symbol_table (replicate 64 "x:" ++ ["last: INC A"])))
    "last" = -1 /\
  Extended.build_symbol_table ["loop: INC EAX"] =
    mkPass1 [mkLabel "loop" 0] ["INC EAX"] [] /\
  warnings (Extended.build_symbol_table (replicate 64 "x:" ++ ["last: INC EAX"])) =
    ["last"] /\
  get_address_for_label
    (symbol_table (Extended.build_symbol_table (replicate 64 "x:" ++ ["last: INC EAX"])))
    "last" = -1 /\
  Extended.main (replicate 64 "x:" ++ ["last: INC EAX"]) = Exit0 [18432].
Proof. repeat split; vm_compute; reflexivity. Qed.

(** C5, where the code fails it.  Each field refuses the value one past
    its largest as out of range, and takes its largest value: 511 in the
    nine bits of the simple profile ([SET], [LDA], [STA], the jumps), 255 in
    the eight bits of the extended profile (the immediate forms of [ADD],
    [SUB], [CMP] and [MOV], the direct loads and stores, the jumps), 31 in
    the five bits of the offset (base+offset loads and stores, every pair of
    registers); taking means that the line passes the checks, that its word
    is not the sentinel and that the simulator reads the value back.  One
    line is the exception: [MOV [ESP+31], ESP] passes the checks with the
    largest offset, and its word is the sentinel [0xFFFF], so that the
    encoder returns for it what it returns for an error and the program is
    not assembled. *)
Theorem field_boundaries (symbol_table : list Label) (pc : Z) :
  Forall (fun r =>
    simple_boundary symbol_table pc (fun v => "SET " ++ r ++ ", #" ++ v)%string /\
    simple_boundary symbol_table pc (fun v => "LDA " ++ r ++ ", " ++ v)%string /\
    simple_boundary symbol_table pc (fun v => "STA " ++ r ++ ", " ++ v)%string /\
    simple_boundary symbol_table pc (fun v => "JNZ " ++ r ++ ", " ++ v)%string)
    Simple.register_names /\
  simple_boundary symbol_table pc (fun v => "JMP " ++ v)%string /\
  Forall (fun r =>
    extended_boundary symbol_table pc (fun v => "ADD " ++ r ++ ", #" ++ v)%string /\
    extended_boundary symbol_table pc (fun v => "SUB " ++ r ++ ", #" ++ v)%string /\
    extended_boundary symbol_table pc (fun v => "CMP " ++ r ++ ", #" ++ v)%string /\
    extended_boundary symbol_table pc (fun v => "MOV " ++ r ++ ", #" ++ v)%string /\
    extended_boundary symbol_table pc (fun v => "MOV " ++ r ++ ", [" ++ v ++ "]")%string /\
    extended_boundary symbol_table pc (fun v => "MOV [" ++ v ++ "], " ++ r)%string)
    Simulator.register_names /\
  extended_boundary symbol_table pc (fun v => "JMP " ++ v)%string /\
  extended_boundary symbol_table pc (fun v => "CALL " ++ v)%string /\
  Forall (fun r => Forall (fun b =>
    offset_boundary symbol_table pc
      (fun v => "MOV " ++ r ++ ", [" ++ b ++ "+" ++ v ++ "]")%string /\
    if String.eqb r "ESP" && String.eqb b "ESP"
    then offset_taken_for_error symbol_table pc
           (fun v => "MOV [" ++ b ++ "+" ++ v ++ "], " ++ r)%string
    else offset_boundary symbol_table pc
           (fun v => "MOV [" ++ b ++ "+" ++ v ++ "], " ++ r)%string)
    Simulator.register_names) Simulator.register_names.
Proof.
  unfold simple_boundary, extended_boundary, offset_boundary, boundary,
    offset_taken_for_error, passes, Simple.register_names, Simulator.register_names.
  repeat match goal with
         | |- Forall _ _ => constructor
         | |- context [String.eqb ?a ?b] =>
             let v := eval vm_compute in (String.eqb a b) in
             change (String.eqb a b) with v; cbv beta iota delta [andb]
         | |- _ /\ _ => split
         | |- exists f, _ = Fields f => eexists; vm_compute; reflexivity
         | |- _ <> _ => vm_compute; discriminate
         end; vm_compute; reflexivity.
Qed.

(** ** The execution engine *)

Section Engine.

Import Simulator.

Lemma wrap32_small (z : Z) : INT_MIN <= z <= INT_MAX -> wrap32 z = z.
Proof.
  unfold INT_MIN, INT_MAX, wrap32. intros H.
  rewrite Z.mod_small by lia. lia.
Qed.

Lemma decode_reg1_range (w : Z) : 0 <= decode_reg1 w < 8.
Proof. rewrite decode_reg1_div. apply Z.mod_pos_bound. lia. Qed.

Lemma decode_value_range (w : Z) : 0 <= decode_value w < 256.
Proof. rewrite decode_value_mod. apply Z.mod_pos_bound. lia. Qed.

Lemma register_cases (r : Z) :
  0 <= r < 8 -> r = 0 \/ r = 1 \/ r = 2 \/ r = 3 \/ r = 4 \/ r = 5 \/ r = 6 \/ r = 7.
Proof. lia. Qed.

Lemma read_written (mem : list Z) (address data : Z) :
  length mem = Z.to_nat MEMORY_SIZE ->
  valid_address address = true ->
  default 0 (<[Z.to_nat address := data]> mem !! Z.to_nat address) = data.
Proof.
  intros Hlen Hvalid. unfold valid_address, MEMORY_SIZE in *.
  apply andb_prop in Hvalid as [H0 H1].
  apply Z.leb_le in H0. apply Z.ltb_lt in H1.
  rewrite list_lookup_insert_eq by lia. reflexivity.
Qed.

Lemma valid_stack_slot (sp : Z) :
  1 <= sp <= MEMORY_SIZE -> valid_address (sp - 1) = true.
Proof.
  unfold valid_address, MEMORY_SIZE. intros H.
  apply andb_true_intro. split; [apply Z.leb_le | apply Z.ltb_lt]; lia.
Qed.

Lemma invalid_below (sp : Z) : sp <= 0 -> valid_address (sp - 1) = false.
Proof.
  unfold valid_address. intros H.
  replace (0 <=? sp - 1) with false by (symmetry; apply Z.leb_gt; lia).
  reflexivity.
Qed.

Lemma stopped_at_minus_one (machine_code : list Z) : stopped machine_code (-1).
Proof. intros fuel m. destruct fuel; reflexivity. Qed.

End Engine.

(** C4: [DIV] with a zero divisor stops the machine with the division
    error reported, and changes no register (nor flags nor memory). *)
Theorem division_by_zero_faults (m : Simulator.Machine) (instruction pc : Z) :
  Simulator.decode_opcode instruction = 2 ->
  Simulator.get_register_value m (Simulator.decode_reg2 instruction) = 0 ->
  exists result,
  Simulator.execute_instruction m instruction pc = Next (fst result) (snd result) /\
  snd result = -1 /\
  (forall machine_code, Simulator.stopped machine_code (snd result)) /\
  Simulator.console (fst result) =
    Simulator.console m ++ [Simulator.DivisionByZero pc] /\
  Simulator.registers (fst result) = Simulator.registers m /\
  Simulator.flags (fst result) = Simulator.flags m /\
  Simulator.memory (fst result) = Simulator.memory m.
Proof.
  intros Hop Hzero.
  exists (Simulator.print m (Simulator.DivisionByZero pc), -1).
  cbn [fst snd]. split.
  - unfold Simulator.execute_instruction. rewrite Hop.
    change (Simulator.is_base_offset 2) with false. cbv beta iota zeta.
    rewrite Hzero. reflexivity.
  - repeat split. apply stopped_at_minus_one.
Qed.

(** C6, as amended: [CMP] subtracts its operands, stores the result
    nowhere, and sets the zero flag when the result is zero and the sign flag
    when it is negative; equal operands give zero flag set and sign flag
    clear; a first operand below the second gives sign flag set whenever the
    difference does not wrap around. *)
Theorem compare_sets_flags (m : Simulator.Machine) (instruction pc : Z) :
  Simulator.decode_opcode instruction = 23 \/
  Simulator.decode_opcode instruction = 21 ->
  let a := Simulator.get_register_value m (Simulator.decode_reg1 instruction) in
  let b := if Simulator.decode_opcode instruction =? 23
           then Simulator.get_register_value m (Simulator.decode_reg2 instruction)
           else Simulator.decode_value instruction in
  let result := wrap32 (a - b) in
  let m' := Simulator.with_flags m (Simulator.mkFlags (result =? 0) (result <? 0)) in
  Simulator.execute_instruction m instruction pc = Next m' (wrap32 (pc + 1)) /\
  Simulator.registers m' = Simulator.registers m /\
  Simulator.memory m' = Simulator.memory m /\
  (a = b -> Simulator.ZF (Simulator.flags m') = true /\
            Simulator.SF (Simulator.flags m') = false) /\
  (a < b -> INT_MIN <= a - b ->
   Simulator.SF (Simulator.flags m') = true /\
   Simulator.ZF (Simulator.flags m') = false).
Proof.
  intros Hop a b result m'.
  assert (Hexec : Simulator.execute_instruction m instruction pc =
                  Next m' (wrap32 (pc + 1))).
  { subst m' result a b. unfold Simulator.execute_instruction.
    destruct Hop as [Hop | Hop]; rewrite Hop; reflexivity. }
  split; [exact Hexec |].
  subst m'. cbn [Simulator.with_flags Simulator.registers
    Simulator.memory Simulator.flags Simulator.ZF Simulator.SF].
  repeat split.
  - subst result. rewrite H, Z.sub_diag. reflexivity.
  - subst result. rewrite H, Z.sub_diag. reflexivity.
  - subst result. rewrite wrap32_small by (unfold INT_MAX; lia).
    apply Z.ltb_lt. lia.
  - subst result. rewrite wrap32_small by (unfold INT_MAX; lia).
    apply Z.eqb_neq. lia.
Qed.

(** C7, as amended: with the stack pointer between 1 and [MEMORY_SIZE],
    [CALL] at [pc] decrements the stack pointer, stores [pc + 1] in the slot
    it then points to and continues at the target; a [RET] executed in that
    state continues at [pc + 1] and leaves the stack pointer as it was before
    the [CALL]. *)
Theorem call_then_return (m : Simulator.Machine) (call ret pc : Z) :
  Claims.well_formed m ->
  Simulator.decode_opcode call = 13 ->
  Simulator.decode_opcode ret = 14 ->
  0 <= pc < Simulator.PROGRAM_SIZE ->
  1 <= Simulator.ESP (Simulator.registers m) <= Simulator.MEMORY_SIZE ->
  exists r1 r2,
  Simulator.execute_instruction m call pc = Next (fst r1) (snd r1) /\
  Simulator.execute_instruction (fst r1) ret (snd r1) = Next (fst r2) (snd r2) /\
  snd r1 = Simulator.decode_value call /\
  Simulator.ESP (Simulator.registers (fst r1)) =
    Simulator.ESP (Simulator.registers m) - 1 /\
  Simulator.read_memory (fst r1) (Simulator.ESP (Simulator.registers (fst r1))) =
    (pc + 1, fst r1) /\
  snd r2 = pc + 1 /\
  Simulator.ESP (Simulator.registers (fst r2)) =
    Simulator.ESP (Simulator.registers m).
Proof.
  intros Hwf Hcall Hret Hpc Hsp.
  unfold Claims.well_formed in Hwf.
  unfold Simulator.PROGRAM_SIZE in Hpc. unfold Simulator.MEMORY_SIZE in Hsp.
  assert (Hslot : Simulator.valid_address (Simulator.ESP (Simulator.registers m) - 1) = true)
    by (apply valid_stack_slot; unfold Simulator.MEMORY_SIZE; lia).
  pose (r1 :=
    (Simulator.with_memory
       (Simulator.dec_ESP m)
       (<[Z.to_nat (Simulator.ESP (Simulator.registers m) - 1) := pc + 1]>
          (Simulator.memory m)),
     Simulator.decode_value call)).
  assert (Hexec1 : Simulator.execute_instruction m call pc = Next (fst r1) (snd r1)).
  { unfold r1. cbn [fst snd]. unfold Simulator.execute_instruction. rewrite Hcall.
    change (Simulator.is_base_offset 13) with false. cbv beta iota zeta.
    unfold Simulator.write_memory, Simulator.dec_ESP.
    cbn [Simulator.set_register_value Simulator.with_registers Simulator.registers
         Simulator.ESP Simulator.memory].
    rewrite !wrap32_small by (unfold INT_MIN, INT_MAX; lia).
    rewrite Hslot. reflexivity. }
  assert (Hr1 : r1 =
    (Simulator.with_memory
       (Simulator.dec_ESP m)
       (<[Z.to_nat (Simulator.ESP (Simulator.registers m) - 1) := pc + 1]>
          (Simulator.memory m)),
     Simulator.decode_value call)) by reflexivity.
  assert (Hread : Simulator.read_memory (fst r1)
                    (Simulator.ESP (Simulator.registers (fst r1))) = (pc + 1, fst r1)).
  { rewrite Hr1. unfold Simulator.dec_ESP, Simulator.read_memory.
    cbn [fst Simulator.set_register_value Simulator.with_registers Simulator.with_memory
         Simulator.registers Simulator.ESP Simulator.memory].
    rewrite !wrap32_small by (unfold INT_MIN, INT_MAX; lia).
    rewrite Hslot, read_written by assumption. reflexivity. }
  assert (Hsp1 : Simulator.ESP (Simulator.registers (fst r1)) =
                 Simulator.ESP (Simulator.registers m) - 1).
  { rewrite Hr1. unfold Simulator.dec_ESP.
    cbn [fst Simulator.set_register_value Simulator.with_registers Simulator.with_memory
         Simulator.registers Simulator.ESP].
    apply wrap32_small. unfold INT_MIN, INT_MAX. lia. }
  pose (r2 := (Simulator.inc_ESP (fst r1), pc + 1)).
  assert (Hexec2 : Simulator.execute_instruction (fst r1) ret (snd r1) =
                   Next (fst r2) (snd r2)).
  { unfold r2. cbn [fst snd]. unfold Simulator.execute_instruction. rewrite Hret.
    change (Simulator.is_base_offset 14) with false. cbv beta iota zeta.
    rewrite Hread. reflexivity. }
  assert (Hr2 : r2 = (Simulator.inc_ESP (fst r1), pc + 1)) by reflexivity.
  clearbody r2. clearbody r1.
  exists r1, r2.
  split; [exact Hexec1 | split; [exact Hexec2 |]].
  repeat split.
  - rewrite Hr1. reflexivity.
  - exact Hsp1.
  - exact Hread.
  - rewrite Hr2. reflexivity.
  - rewrite Hr2. unfold Simulator.inc_ESP.
    cbn [fst Simulator.set_register_value Simulator.with_registers
         Simulator.registers Simulator.ESP].
    rewrite Hsp1. rewrite wrap32_small by (unfold INT_MIN, INT_MAX; lia). lia.
Qed.

Section Stack.

Import Simulator.

Lemma get_set_same (m : Machine) (r v : Z) :
  0 <= r < 8 -> get_register_value (set_register_value m r v) r = v.
Proof.
  intros Hr. destruct (register_cases r Hr) as [-> | [-> | [-> | [-> | [-> | [-> | [-> | ->]]]]]]];
    reflexivity.
Qed.

Lemma get_set_other (m : Machine) (r r' v : Z) :
  0 <= r < 8 -> 0 <= r' < 8 -> r <> r' ->
  get_register_value (set_register_value m r v) r' = get_register_value m r'.
Proof.
  intros Hr Hr' Hne.
  destruct (register_cases r Hr) as [-> | [-> | [-> | [-> | [-> | [-> | [-> | ->]]]]]]];
    destruct (register_cases r' Hr') as [-> | [-> | [-> | [-> | [-> | [-> | [-> | ->]]]]]]];
    try reflexivity; contradiction.
Qed.

Lemma set_memory (m : Machine) (r v : Z) :
  memory (set_register_value m r v) = memory m.
Proof.
  unfold set_register_value.
  repeat match goal with
         | |- context [match ?x with _ => _ end] => destruct x
         end; reflexivity.
Qed.

Lemma ESP_is_register_7 (m : Machine) : ESP (registers m) = get_register_value m 7.
Proof. reflexivity. Qed.

(** One [PUSH] with a valid slot below the stack pointer. *)
Lemma push_step (m : Machine) (push pc : Z) :
  decode_opcode push = 11 ->
  1 <= ESP (registers m) <= MEMORY_SIZE ->
  execute_instruction m push pc =
  Next (with_memory (dec_ESP m)
          (<[Z.to_nat (ESP (registers m) - 1) :=
               get_register_value (dec_ESP m) (decode_reg1 push)]> (memory m)))
       (wrap32 (pc + 1)).
Proof.
  intros Hop Hsp. unfold execute_instruction. rewrite Hop.
  change (is_base_offset 11) with false. cbv beta iota zeta.
  unfold write_memory.
  assert (Hsp1 : ESP (registers (dec_ESP m)) = ESP (registers m) - 1).
  { unfold dec_ESP. rewrite ESP_is_register_7, get_set_same by lia.
    apply wrap32_small. unfold INT_MIN, INT_MAX, MEMORY_SIZE in *. lia. }
  rewrite Hsp1, valid_stack_slot by assumption.
  unfold dec_ESP at 3. rewrite set_memory. reflexivity.
Qed.

(** One [PUSH] or [CALL] with the stack pointer at or below zero. *)
Lemma overflow_step (m : Machine) (data : Z) :
  ESP (registers m) <= 0 -> INT_MIN < ESP (registers m) ->
  write_memory (dec_ESP m) (ESP (registers (dec_ESP m))) data =
  print (dec_ESP m) (InvalidWrite (ESP (registers m) - 1)) /\
  ESP (registers (dec_ESP m)) = ESP (registers m) - 1.
Proof.
  intros Hsp Hmin.
  assert (Hsp1 : ESP (registers (dec_ESP m)) = ESP (registers m) - 1).
  { unfold dec_ESP. rewrite ESP_is_register_7, get_set_same by lia.
    apply wrap32_small. unfold INT_MIN, INT_MAX in *. lia. }
  split; [| exact Hsp1].
  unfold write_memory. rewrite Hsp1, invalid_below by assumption. reflexivity.
Qed.

Lemma run_from_add (machine_code : list Z) (a b : nat) :
  forall (m : Machine) (pc : Z),
    run_from (a + b) machine_code m pc =
    match run_from a machine_code m pc with
    | Next m1 pc1 => run_from b machine_code m1 pc1
    | Blocked m1 => Blocked m1
    | Undefined => Undefined
    end.
Proof.
  induction a as [| a IH]; intros m pc; [reflexivity |].
  cbn [Nat.add run_from].
  destruct ((0 <=? pc) && (pc <? Z.of_nat (length machine_code))) eqn:Hin.
  - destruct (execute_instruction m _ pc) as [m1 next_pc | m1 |];
      [apply IH | reflexivity | reflexivity].
  - destruct b; [reflexivity |].
    cbn [run_from]. rewrite Hin. reflexivity.
Qed.

End Stack.

(** C8, as amended: with the stack pointer between 1 and [MEMORY_SIZE],
    [PUSH r] decrements the stack pointer and then stores the register in
    the slot it points to, [POP r] loads that slot and then increments the
    stack pointer; after the two, [r] holds the value it had and the stack
    pointer is back where it was. *)
Theorem push_then_pop (m : Simulator.Machine) (push pop pc : Z) :
  Claims.well_formed m ->
  Simulator.decode_opcode push = 11 ->
  Simulator.decode_opcode pop = 12 ->
  Simulator.decode_reg1 pop = Simulator.decode_reg1 push ->
  1 <= Simulator.ESP (Simulator.registers m) <= Simulator.MEMORY_SIZE ->
  let r := Simulator.decode_reg1 push in
  exists r1 r2,
  Simulator.execute_instruction m push pc = Next (fst r1) (snd r1) /\
  Simulator.execute_instruction (fst r1) pop (snd r1) = Next (fst r2) (snd r2) /\
  Simulator.ESP (Simulator.registers (fst r1)) =
    Simulator.ESP (Simulator.registers m) - 1 /\
  Simulator.read_memory (fst r1) (Simulator.ESP (Simulator.registers (fst r1))) =
    (Simulator.get_register_value (fst r1) r, fst r1) /\
  Simulator.get_register_value (fst r2) r = Simulator.get_register_value m r /\
  Simulator.ESP (Simulator.registers (fst r2)) =
    Simulator.ESP (Simulator.registers m).
Proof.
  intros Hwf Hpush Hpop Hsame Hsp r.
  pose proof (decode_reg1_range push) as Hr. fold r in Hr.
  unfold Claims.well_formed in Hwf.
  assert (Hslot : Simulator.valid_address (Simulator.ESP (Simulator.registers m) - 1) = true)
    by (apply valid_stack_slot; assumption).
  assert (Hdec : Simulator.ESP (Simulator.registers (Simulator.dec_ESP m)) =
                 Simulator.ESP (Simulator.registers m) - 1).
  { unfold Simulator.dec_ESP. rewrite ESP_is_register_7, get_set_same by lia.
    apply wrap32_small. unfold INT_MIN, INT_MAX, Simulator.MEMORY_SIZE in *. lia. }
  pose (r1 :=
    (Simulator.with_memory (Simulator.dec_ESP m)
       (<[Z.to_nat (Simulator.ESP (Simulator.registers m) - 1) :=
            Simulator.get_register_value (Simulator.dec_ESP m) r]> (Simulator.memory m)),
     wrap32 (pc + 1))).
  assert (Hexec1 : Simulator.execute_instruction m push pc = Next (fst r1) (snd r1))
    by (apply push_step; assumption).
  assert (Hr1 : r1 =
    (Simulator.with_memory (Simulator.dec_ESP m)
       (<[Z.to_nat (Simulator.ESP (Simulator.registers m) - 1) :=
            Simulator.get_register_value (Simulator.dec_ESP m) r]> (Simulator.memory m)),
     wrap32 (pc + 1))) by reflexivity.
  assert (Hsp1 : Simulator.ESP (Simulator.registers (fst r1)) =
                 Simulator.ESP (Simulator.registers m) - 1)
    by (rewrite Hr1; exact Hdec).
  assert (Hreg1 : Simulator.get_register_value (fst r1) r =
                  Simulator.get_register_value (Simulator.dec_ESP m) r)
    by (rewrite Hr1; reflexivity).
  assert (Hread : Simulator.read_memory (fst r1)
                    (Simulator.ESP (Simulator.registers (fst r1))) =
                  (Simulator.get_register_value (fst r1) r, fst r1)).
  { rewrite Hreg1. unfold Simulator.read_memory. rewrite Hsp1, Hslot.
    rewrite Hr1 at 1. cbn [fst Simulator.with_memory Simulator.memory].
    rewrite read_written by assumption. reflexivity. }
  pose (r2 :=
    (Simulator.inc_ESP
       (Simulator.set_register_value (fst r1) r (Simulator.get_register_value (fst r1) r)),
     wrap32 (snd r1 + 1))).
  assert (Hexec2 : Simulator.execute_instruction (fst r1) pop (snd r1) =
                   Next (fst r2) (snd r2)).
  { unfold r2. cbn [fst snd]. unfold Simulator.execute_instruction. rewrite Hpop.
    change (Simulator.is_base_offset 12) with false. cbv beta iota zeta.
    rewrite Hread, Hsame. reflexivity. }
  assert (Hr2 : r2 =
    (Simulator.inc_ESP
       (Simulator.set_register_value (fst r1) r (Simulator.get_register_value (fst r1) r)),
     wrap32 (snd r1 + 1))) by reflexivity.
  clearbody r2. clearbody r1.
  exists r1, r2.
  split; [exact Hexec1 | split; [exact Hexec2 |]].
  split; [exact Hsp1 | split; [exact Hread |]].
  rewrite Hr2. cbn [fst]. unfold Simulator.inc_ESP.
  rewrite !ESP_is_register_7, Hreg1.
  destruct (Z.eq_dec r 7) as [-> | Hne].
  - rewrite !get_set_same by lia.
    rewrite <- !ESP_is_register_7, Hdec.
    rewrite wrap32_small
      by (unfold INT_MIN, INT_MAX, Simulator.MEMORY_SIZE in *; lia).
    split; lia.
  - rewrite (get_set_same _ 7) by lia.
    rewrite (get_set_other _ 7 r) by lia.
    rewrite (get_set_same _ r) by lia.
    rewrite (get_set_other _ r 7) by lia.
    rewrite <- !ESP_is_register_7, Hsp1.
    unfold Simulator.dec_ESP at 1. rewrite (get_set_other _ 7 r) by lia.
    rewrite wrap32_small
      by (unfold INT_MIN, INT_MAX, Simulator.MEMORY_SIZE in *; lia).
    split; [reflexivity | lia].
Qed.

Section Overflow.

Import Simulator.

(** [PUSH] with the stack pointer at or below zero: the only changes are
    the stack pointer and one line on the console. *)
Lemma push_overflow_step (m : Machine) (instruction pc : Z) :
  decode_opcode instruction = 11 ->
  ESP (registers m) <= 0 -> INT_MIN < ESP (registers m) ->
  execute_instruction m instruction pc =
  Next (print (dec_ESP m) (InvalidWrite (ESP (registers m) - 1))) (wrap32 (pc + 1)).
Proof.
  intros Hop Hsp Hmin. unfold execute_instruction. rewrite Hop.
  change (is_base_offset 11) with false. cbv beta iota zeta.
  destruct (overflow_step m (get_register_value (dec_ESP m) (decode_reg1 instruction))
              Hsp Hmin) as [-> _].
  reflexivity.
Qed.

Lemma call_overflow_step (m : Machine) (instruction pc : Z) :
  decode_opcode instruction = 13 ->
  ESP (registers m) <= 0 -> INT_MIN < ESP (registers m) ->
  execute_instruction m instruction pc =
  Next (print (dec_ESP m) (InvalidWrite (ESP (registers m) - 1)))
       (decode_value instruction).
Proof.
  intros Hop Hsp Hmin. unfold execute_instruction. rewrite Hop.
  change (is_base_offset 13) with false. cbv beta iota zeta.
  destruct (overflow_step m (wrap32 (pc + 1)) Hsp Hmin) as [-> _].
  reflexivity.
Qed.

Lemma push_forever_words : push_forever = [22528; 49152].
Proof. reflexivity. Qed.

(** One turn of the loop [again: PUSH EAX / JMP again]. *)
Lemma push_forever_turn (m : Machine) :
  ESP (registers m) <= 0 -> INT_MIN < ESP (registers m) ->
  run_from 2 push_forever m 0 =
  Next (print (dec_ESP m) (InvalidWrite (ESP (registers m) - 1))) 0.
Proof.
  intros Hsp Hmin. rewrite push_forever_words.
  cbn [run_from length Z.of_nat].
  change ((0 <=? 0) && (0 <? Z.of_nat 2)) with true. cbv iota.
  change (default 0 ([22528; 49152] !! Z.to_nat 0)) with 22528.
  rewrite push_overflow_step by (assumption || reflexivity).
  change (wrap32 (0 + 1)) with 1.
  change ((0 <=? 1) && (1 <? Z.pos (Pos.of_succ_nat 1))) with true. cbv iota.
  change (default 0 ([22528; 49152] !! Z.to_nat 1)) with 49152.
  reflexivity.
Qed.

(** [n] turns of the loop take the stack pointer [n] below where it was
    and leave the memory alone. *)
Lemma push_forever_turns (n : nat) :
  forall m : Machine,
    ESP (registers m) <= 0 -> INT_MIN <= ESP (registers m) - Z.of_nat n ->
    exists r,
      run_from (n * 2) push_forever m 0 = Next (fst r) (snd r) /\
      snd r = 0 /\
      ESP (registers (fst r)) = ESP (registers m) - Z.of_nat n /\
      memory (fst r) = memory m.
Proof.
  induction n as [| n IH]; intros m Hsp Hmin.
  - exists (m, 0). cbn. repeat split. lia.
  - change (S n * 2)%nat with (2 + n * 2)%nat.
    rewrite run_from_add.
    rewrite push_forever_turn by lia.
    assert (Hdec : ESP (registers (dec_ESP m)) = ESP (registers m) - 1).
    { unfold dec_ESP. rewrite ESP_is_register_7, get_set_same by lia.
      apply wrap32_small. unfold INT_MIN, INT_MAX in *. lia. }
    specialize (IH (print (dec_ESP m) (InvalidWrite (ESP (registers m) - 1)))).
    cbn [print registers memory] in IH.
    rewrite Hdec in IH.
    destruct IH as (r & Hrun & Hpc & Hesp & Hmem); [lia | lia |].
    exists r. split; [exact Hrun |].
    repeat split.
    + exact Hpc.
    + rewrite Hesp. lia.
    + rewrite Hmem. unfold dec_ESP. apply set_memory.
Qed.

End Overflow.

(** C10, as amended: [PUSH] or [CALL] with the stack pointer at or below
    zero (and above the least [int]) writes nothing to memory, prints the
    invalid-write message, decrements the stack pointer all the same and goes
    on to the next instruction or to the target; no instruction checks the
    stack, and the loop [again: PUSH EAX / JMP again] takes the stack pointer
    down by one at every turn. *)
Theorem stack_overflow_goes_on (m : Simulator.Machine) (instruction pc : Z) :
  Simulator.decode_opcode instruction = 11 \/
  Simulator.decode_opcode instruction = 13 ->
  Simulator.ESP (Simulator.registers m) <= 0 ->
  INT_MIN < Simulator.ESP (Simulator.registers m) ->
  0 <= pc < Simulator.PROGRAM_SIZE ->
  exists r,
  Simulator.execute_instruction m instruction pc = Next (fst r) (snd r) /\
  Simulator.memory (fst r) = Simulator.memory m /\
  Simulator.console (fst r) =
    Simulator.console m ++
    [Simulator.InvalidWrite (Simulator.ESP (Simulator.registers m) - 1)] /\
  Simulator.ESP (Simulator.registers (fst r)) =
    Simulator.ESP (Simulator.registers m) - 1 /\
  (forall k, 0 <= k < 7 ->
     Simulator.get_register_value (fst r) k = Simulator.get_register_value m k) /\
  Simulator.flags (fst r) = Simulator.flags m /\
  snd r = (if Simulator.decode_opcode instruction =? 11 then pc + 1
           else Simulator.decode_value instruction) /\
  0 <= snd r /\
  (forall n : nat,
     INT_MIN <= Simulator.ESP (Simulator.registers m) - Z.of_nat n ->
     exists looped,
     Simulator.run_from (n * 2) push_forever m 0 = Next (fst looped) (snd looped) /\
     Simulator.ESP (Simulator.registers (fst looped)) =
       Simulator.ESP (Simulator.registers m) - Z.of_nat n /\
     Simulator.memory (fst looped) = Simulator.memory m).
Proof.
  intros Hop Hsp Hmin Hpc.
  assert (Hdec : Simulator.ESP (Simulator.registers (Simulator.dec_ESP m)) =
                 Simulator.ESP (Simulator.registers m) - 1).
  { unfold Simulator.dec_ESP. rewrite ESP_is_register_7, get_set_same by lia.
    apply wrap32_small. unfold INT_MIN, INT_MAX in *. lia. }
  exists
    (Simulator.print (Simulator.dec_ESP m)
       (Simulator.InvalidWrite (Simulator.ESP (Simulator.registers m) - 1)),
     if Simulator.decode_opcode instruction =? 11 then pc + 1
     else Simulator.decode_value instruction).
  cbn [fst snd Simulator.print Simulator.memory Simulator.console
       Simulator.registers Simulator.flags].
  refine (conj _ (conj _ (conj _ (conj _ (conj _ (conj _ (conj _ (conj _ _)))))))).
  - destruct Hop as [Hop | Hop].
    + rewrite push_overflow_step by assumption. rewrite Hop.
      rewrite wrap32_small
        by (unfold INT_MIN, INT_MAX, Simulator.PROGRAM_SIZE in *; lia).
      reflexivity.
    + rewrite call_overflow_step by assumption. rewrite Hop. reflexivity.
  - unfold Simulator.dec_ESP. apply set_memory.
  - reflexivity.
  - exact Hdec.
  - intros k Hk. unfold Simulator.dec_ESP.
    change (Simulator.get_register_value
              (Simulator.print
                 (Simulator.set_register_value m 7
                    (wrap32 (Simulator.ESP (Simulator.registers m) - 1)))
                 (Simulator.InvalidWrite (Simulator.ESP (Simulator.registers m) - 1))) k)
      with (Simulator.get_register_value
              (Simulator.set_register_value m 7
                 (wrap32 (Simulator.ESP (Simulator.registers m) - 1))) k).
    apply get_set_other; lia.
  - reflexivity.
  - reflexivity.
  - destruct (Simulator.decode_opcode instruction =? 11);
      [unfold Simulator.PROGRAM_SIZE in Hpc; lia |].
    pose proof (decode_value_range instruction). lia.
  - intros n Hn.
    destruct (push_forever_turns n m Hsp Hn) as (looped & Hrun & _ & Hesp & Hmem).
    exists looped. split; [exact Hrun | split; assumption].
Qed.

(** ** Concrete runs *)

Lemma division_by_zero_faults_witness :
  Simulator.decode_opcode (Extended.encode_instruction [] "DIV EAX, EBX" 0) = 2 /\
  exists result,
    Simulator.execute_instruction (Simulator.initial Claims.no_input)
      (Extended.encode_instruction [] "DIV EAX, EBX" 0) 0 =
      Next (fst result) (snd result) /\
    snd result = -1 /\
    Simulator.registers (fst result) =
    Simulator.registers (Simulator.initial Claims.no_input).
Proof.
  split; [reflexivity |].
  destruct (division_by_zero_faults (Simulator.initial Claims.no_input)
              (Extended.encode_instruction [] "DIV EAX, EBX" 0) 0 eq_refl eq_refl)
    as (result & Hexec & Hnext & _ & _ & Hregs & _).
  exists result. split; [exact Hexec | split; [exact Hnext | exact Hregs]].
Defined.

Lemma compare_sets_flags_witness :
  let m := Claims.reached
             (Simulator.run_program 2 (assembled ["MOV EAX, #3"; "MOV EBX, #7"])
                Claims.no_input) in
  let cmp := Extended.encode_instruction [] "CMP EAX, EBX" 2 in
  Simulator.decode_opcode cmp = 23 /\
  exists m',
    Simulator.execute_instruction m cmp 2 = Next m' 3 /\
    Simulator.SF (Simulator.flags m') = true /\
    Simulator.ZF (Simulator.flags m') = false.
Proof.
  intros m cmp.
  split; [reflexivity |].
  destruct (compare_sets_flags m cmp 2 (or_introl eq_refl))
    as (Hexec & _ & _ & _ & Hless).
  eexists. split; [exact Hexec |].
  apply Hless.
  - reflexivity.
  - vm_compute. discriminate.
Defined.

(** C6 fails as stated: [INP EAX] with the least [int] typed, then
    [MOV EBX, #1]; the difference computed by [CMP EAX, EBX] wraps around to
    the greatest [int], and the sign flag stays clear though the first
    operand is the smaller one. *)
Lemma compare_wraps_around : ~ Claims.compare_orders_all_operands.
Proof.
  intros H.
  pose (m := Claims.reached
               (Simulator.run_program 2 (assembled ["INP EAX"; "MOV EBX, #1"])
                  ("-2147483648" ++ String CLib.newline ""))).
  specialize (H m (Extended.encode_instruction [] "CMP EAX, EBX" 2) 2 eq_refl).
  cbv zeta in H.
  assert (Ha : in_int (Simulator.get_register_value m
                 (Simulator.decode_reg1 (Extended.encode_instruction [] "CMP EAX, EBX" 2))))
    by (vm_compute; split; discriminate).
  assert (Hb : in_int (Simulator.get_register_value m
                 (Simulator.decode_reg2 (Extended.encode_instruction [] "CMP EAX, EBX" 2))))
    by (vm_compute; split; discriminate).
  destruct (H Ha Hb eq_refl) as ([m' pc'] & Hexec & Hsf).
  cbn [fst snd] in Hexec, Hsf.
  vm_compute in Hexec. injection Hexec as Hm' _. subst m'.
  discriminate Hsf.
Qed.

Lemma call_then_return_witness :
  let m := Simulator.initial Claims.no_input in
  let call := Extended.encode_instruction [] "CALL 9" 4 in
  let ret := Extended.encode_instruction [] "RET" 9 in
  Claims.well_formed m /\
  exists r1 r2,
    Simulator.execute_instruction m call 4 = Next (fst r1) (snd r1) /\
    Simulator.execute_instruction (fst r1) ret (snd r1) = Next (fst r2) (snd r2) /\
    snd r1 = 9 /\ snd r2 = 5.
Proof.
  intros m call ret.
  assert (Hwf : Claims.well_formed m) by reflexivity.
  split; [exact Hwf |].
  assert (Hpc : 0 <= 4 < Simulator.PROGRAM_SIZE) by (vm_compute; split; [discriminate | reflexivity]).
  assert (Hsp : 1 <= Simulator.ESP (Simulator.registers m) <= Simulator.MEMORY_SIZE)
    by (vm_compute; split; discriminate).
  destruct (call_then_return m call ret 4 Hwf eq_refl eq_refl Hpc Hsp)
    as (r1 & r2 & Hexec1 & Hexec2 & Htarget & _ & _ & Hback & _).
  exists r1, r2.
  split; [exact Hexec1 | split; [exact Hexec2 | split; [exact Htarget | exact Hback]]].
Defined.

(** C7 fails as stated: after [MOV ESP, #0] the [CALL] at 1 has no slot to
    store the return address in, and the [RET] it jumps to continues at 0
    instead of 2. *)
Lemma call_without_stack : ~ Claims.call_returns_in_every_state.
Proof.
  intros H.
  pose (code := assembled ["MOV ESP, #0"; "CALL 3"; "HLT"; "RET"]).
  pose (m := Claims.reached (Simulator.run_program 1 code Claims.no_input)).
  specialize (H m (nth 1 code 0) (nth 3 code 0) 1 eq_refl eq_refl eq_refl).
  assert (Hpc : 0 <= 1 < Simulator.PROGRAM_SIZE) by (vm_compute; split; [discriminate | reflexivity]).
  assert (Hsp : in_int (Simulator.ESP (Simulator.registers m)))
    by (vm_compute; split; discriminate).
  destruct (H Hpc Hsp) as ([m1 pc1] & [m2 pc2] & Hexec1 & Hexec2 & _ & Hback & _).
  cbn [fst snd] in Hexec1, Hexec2, Hback.
  vm_compute in Hexec1. injection Hexec1 as Hm1 Hpc1. subst m1 pc1.
  vm_compute in Hexec2. injection Hexec2 as _ Hpc2. subst pc2.
  discriminate Hback.
Qed.

Lemma push_then_pop_witness :
  let m := Claims.reached
             (Simulator.run_program 1 (assembled ["MOV ECX, #42"]) Claims.no_input) in
  let push := Extended.encode_instruction [] "PUSH ECX" 1 in
  let pop := Extended.encode_instruction [] "POP ECX" 2 in
  Claims.well_formed m /\
  exists r1 r2,
    Simulator.execute_instruction m push 1 = Next (fst r1) (snd r1) /\
    Simulator.execute_instruction (fst r1) pop (snd r1) = Next (fst r2) (snd r2) /\
    Simulator.get_register_value (fst r2) 2 = 42.
Proof.
  intros m push pop.
  assert (Hwf : Claims.well_formed m) by reflexivity.
  split; [exact Hwf |].
  assert (Hsp : 1 <= Simulator.ESP (Simulator.registers m) <= Simulator.MEMORY_SIZE)
    by (vm_compute; split; discriminate).
  destruct (push_then_pop m push pop 1 Hwf eq_refl eq_refl eq_refl Hsp)
    as (r1 & r2 & Hexec1 & Hexec2 & _ & _ & Hvalue & _).
  exists r1, r2.
  split; [exact Hexec1 | split; [exact Hexec2 | exact Hvalue]].
Defined.

(** C8 fails as stated: after [MOV ESP, #0] and [MOV EAX, #5], [PUSH EAX]
    stores nothing and [POP EAX] reads 0. *)
Lemma push_pop_without_stack : ~ Claims.push_pop_in_every_state.
Proof.
  intros H.
  pose (code := assembled ["MOV ESP, #0"; "MOV EAX, #5"; "PUSH EAX"; "POP EAX"]).
  pose (m := Claims.reached (Simulator.run_program 2 code Claims.no_input)).
  specialize (H m (nth 2 code 0) (nth 3 code 0) 2 eq_refl eq_refl eq_refl eq_refl).
  assert (Hsp : in_int (Simulator.ESP (Simulator.registers m)))
    by (vm_compute; split; discriminate).
  destruct (H Hsp) as ([m1 pc1] & [m2 pc2] & Hexec1 & Hexec2 & Hvalue & _).
  cbn [fst snd] in Hexec1, Hexec2, Hvalue.
  vm_compute in Hexec1. injection Hexec1 as Hm1 Hpc1. subst m1 pc1.
  vm_compute in Hexec2. injection Hexec2 as Hm2 _. subst m2.
  discriminate Hvalue.
Qed.

Lemma stack_overflow_goes_on_witness :
  let m := Claims.reached
             (Simulator.run_program 1 (assembled ["MOV ESP, #0"; "PUSH EAX"])
                Claims.no_input) in
  let push := Extended.encode_instruction [] "PUSH EAX" 1 in
  Simulator.ESP (Simulator.registers m) <= 0 /\
  exists r,
    Simulator.execute_instruction m push 1 = Next (fst r) (snd r) /\
    Simulator.memory (fst r) = Simulator.memory m /\
    Simulator.ESP (Simulator.registers (fst r)) = -1 /\
    Simulator.console (fst r) = Simulator.console m ++ [Simulator.InvalidWrite (-1)].
Proof.
  intros m push.
  assert (Hsp : Simulator.ESP (Simulator.registers m) <= 0) by (vm_compute; discriminate).
  split; [exact Hsp |].
  assert (Hmin : INT_MIN < Simulator.ESP (Simulator.registers m)) by reflexivity.
  assert (Hpc : 0 <= 1 < Simulator.PROGRAM_SIZE) by (vm_compute; split; [discriminate | reflexivity]).
  destruct (stack_overflow_goes_on m push 1 (or_introl eq_refl) Hsp Hmin Hpc)
    as (r & Hexec & Hmem & Hconsole & Hesp & _).
  exists r.
  split; [exact Hexec | split; [exact Hmem | split; [exact Hesp | exact Hconsole]]].
Defined.

(** C10 fails as stated: the [PUSH] below the memory is not silent, it
    prints the invalid-write message. *)
Lemma overflow_is_reported : ~ Claims.overflow_is_silent.
Proof.
  intros H.
  pose (m := Claims.reached
               (Simulator.run_program 1 (assembled ["MOV ESP, #0"; "PUSH EAX"])
                  Claims.no_input)).
  specialize (H m (Extended.encode_instruction [] "PUSH EAX" 1) 1 (or_introl eq_refl)).
  assert (Hsp : Simulator.ESP (Simulator.registers m) <= 0) by (vm_compute; discriminate).
  assert (Hint : in_int (Simulator.ESP (Simulator.registers m)))
    by (vm_compute; split; discriminate).
  destruct (H Hsp Hint) as ([m1 pc1] & Hexec & _ & Hconsole).
  cbn [fst snd] in Hexec, Hconsole.
  vm_compute in Hexec. injection Hexec as Hm1 _. subst m1.
  discriminate Hconsole.
Qed.

(** * Further facts *)

(** ** The extended engine, instruction by instruction *)

Section Instructions.

Import Simulator.

Lemma wrap32_absorb (a b : Z) : wrap32 (wrap32 a + b) = wrap32 (a + b).
Proof.
  unfold wrap32.
  replace ((a + 2 ^ 31) mod 2 ^ 32 - 2 ^ 31 + b + 2 ^ 31)
    with ((a + 2 ^ 31) mod 2 ^ 32 + b) by lia.
  rewrite Zplus_mod_idemp_l.
  replace (a + 2 ^ 31 + b) with (a + b + 2 ^ 31) by lia.
  reflexivity.
Qed.

Lemma wrap32_range (z : Z) : INT_MIN <= wrap32 z <= INT_MAX.
Proof.
  unfold wrap32, INT_MIN, INT_MAX.
  pose proof (Z.mod_pos_bound (z + 2 ^ 31) (2 ^ 32) ltac:(lia)). lia.
Qed.

Lemma decode_opcode_range (w : Z) : 0 <= w < 65536 -> 0 <= decode_opcode w < 32.
Proof.
  intros H. rewrite decode_opcode_div. split.
  - apply Z.div_pos; lia.
  - apply Z.div_lt_upper_bound; lia.
Qed.

Lemma opcode_cases (op : Z) :
  0 <= op < 32 ->
  In op [0; 1; 2; 3; 4; 5; 6; 7; 8; 9; 10; 11; 12; 13; 14; 15;
         16; 17; 18; 19; 20; 21; 22; 23; 24; 25; 26; 27; 28; 29; 30; 31].
Proof.
  intros H.
  assert (Hk : exists k : nat, op = Z.of_nat k /\ (k < 32)%nat)
    by (exists (Z.to_nat op); lia).
  destruct Hk as (k & -> & Hk).
  do 32 (destruct k as [| k]; [simpl; tauto |]). lia.
Qed.

Lemma get_register_print (m : Machine) (e : event) (r : Z) :
  get_register_value (print m e) r = get_register_value m r.
Proof. reflexivity. Qed.

Lemma get_register_with_memory (m : Machine) (mem : list Z) (r : Z) :
  get_register_value (with_memory m mem) r = get_register_value m r.
Proof. reflexivity. Qed.

Lemma set_console (m : Machine) (r v : Z) :
  console (set_register_value m r v) = console m.
Proof.
  unfold set_register_value.
  repeat match goal with
         | |- context [match ?x with _ => _ end] => destruct x
         end; reflexivity.
Qed.

Lemma set_flags (m : Machine) (r v : Z) :
  flags (set_register_value m r v) = flags m.
Proof.
  unfold set_register_value.
  repeat match goal with
         | |- context [match ?x with _ => _ end] => destruct x
         end; reflexivity.
Qed.

(** What [CMP] does, in either form. *)
Lemma compare_step (m : Machine) (cmp pc : Z) :
  decode_opcode cmp = 23 \/ decode_opcode cmp = 21 ->
  execute_instruction m cmp pc =
  Next (compare m (get_register_value m (decode_reg1 cmp))
          (if decode_opcode cmp =? 23 then get_register_value m (decode_reg2 cmp)
           else decode_value cmp))
       (wrap32 (pc + 1)).
Proof.
  intros Hop. unfold execute_instruction.
  destruct Hop as [Hop | Hop]; rewrite Hop; reflexivity.
Qed.

End Instructions.

(** X1: [INC r] followed by [DEC r] gives the register its value back for
    every value an [int] can hold; at the greatest [int] the increment wraps
    to the least one and nothing is reported. *)
Theorem increment_then_decrement (m : Simulator.Machine) (inc dec pc : Z) :
  Simulator.decode_opcode inc = 9 ->
  Simulator.decode_opcode dec = 10 ->
  Simulator.decode_reg1 dec = Simulator.decode_reg1 inc ->
  in_int (Simulator.get_register_value m (Simulator.decode_reg1 inc)) ->
  let r := Simulator.decode_reg1 inc in
  let v := Simulator.get_register_value m r in
  exists r1 r2,
  Simulator.execute_instruction m inc pc = Next (fst r1) (snd r1) /\
  Simulator.execute_instruction (fst r1) dec (snd r1) = Next (fst r2) (snd r2) /\
  Simulator.get_register_value (fst r1) r = (if v =? INT_MAX then INT_MIN else v + 1) /\
  Simulator.get_register_value (fst r2) r = v /\
  Simulator.console (fst r2) = Simulator.console m /\
  Simulator.memory (fst r2) = Simulator.memory m /\
  Simulator.flags (fst r2) = Simulator.flags m.
Proof.
  intros Hinc Hdec Hsame Hv r v.
  pose proof (decode_reg1_range inc) as Hr. fold r in Hr.
  pose (r1 := (Simulator.set_register_value m r (wrap32 (v + 1)), wrap32 (pc + 1))).
  assert (Hexec1 : Simulator.execute_instruction m inc pc = Next (fst r1) (snd r1)).
  { unfold r1. cbn [fst snd]. unfold Simulator.execute_instruction.
    rewrite Hinc. reflexivity. }
  assert (Hr1 : r1 = (Simulator.set_register_value m r (wrap32 (v + 1)), wrap32 (pc + 1)))
    by reflexivity.
  pose (r2 :=
    (Simulator.set_register_value (fst r1) r
       (wrap32 (Simulator.get_register_value (fst r1) r - 1)), wrap32 (snd r1 + 1))).
  assert (Hexec2 : Simulator.execute_instruction (fst r1) dec (snd r1) =
                   Next (fst r2) (snd r2)).
  { unfold r2. cbn [fst snd]. unfold Simulator.execute_instruction. rewrite Hdec.
    change (Simulator.is_base_offset 10) with false. cbv beta iota zeta.
    rewrite Hsame. reflexivity. }
  assert (Hr2 : r2 =
    (Simulator.set_register_value (fst r1) r
       (wrap32 (Simulator.get_register_value (fst r1) r - 1)), wrap32 (snd r1 + 1)))
    by reflexivity.
  clearbody r2. clearbody r1.
  assert (Hv1 : Simulator.get_register_value (fst r1) r = wrap32 (v + 1))
    by (rewrite Hr1; apply get_set_same; exact Hr).
  exists r1, r2.
  refine (conj Hexec1 (conj Hexec2 (conj _ (conj _ (conj _ (conj _ _)))))).
  - rewrite Hv1.
    assert (Hv' : INT_MIN <= v <= INT_MAX) by exact Hv.
    destruct (Z.eqb_spec v INT_MAX) as [Heq | Hne].
    + rewrite Heq. reflexivity.
    + apply wrap32_small. unfold INT_MIN, INT_MAX in *. lia.
  - rewrite Hr2. cbn [fst]. rewrite get_set_same by exact Hr.
    rewrite Hv1, <- Z.add_opp_r, wrap32_absorb.
    replace (v + 1 + - (1)) with v by lia. apply wrap32_small. exact Hv.
  - rewrite Hr2. cbn [fst]. rewrite set_console, Hr1. apply set_console.
  - rewrite Hr2. cbn [fst]. rewrite set_memory, Hr1. apply set_memory.
  - rewrite Hr2. cbn [fst]. rewrite set_flags, Hr1. apply set_flags.
Qed.

Lemma increment_then_decrement_witness :
  let m := Claims.reached
             (Simulator.run_program 1 (assembled ["INP EBX"])
                ("2147483647" ++ String CLib.newline "")) in
  let inc := Extended.encode_instruction [] "INC EBX" 1 in
  let dec := Extended.encode_instruction [] "DEC EBX" 2 in
  in_int (Simulator.get_register_value m (Simulator.decode_reg1 inc)) /\
  exists r1 r2,
    Simulator.execute_instruction m inc 1 = Next (fst r1) (snd r1) /\
    Simulator.execute_instruction (fst r1) dec (snd r1) = Next (fst r2) (snd r2) /\
    Simulator.get_register_value (fst r1) 1 = INT_MIN /\
    Simulator.get_register_value (fst r2) 1 = INT_MAX.
Proof.
  intros m inc dec.
  assert (Hv : in_int (Simulator.get_register_value m (Simulator.decode_reg1 inc)))
    by (vm_compute; split; discriminate).
  split; [exact Hv |].
  destruct (increment_then_decrement m inc dec 1 eq_refl eq_refl eq_refl Hv)
    as (r1 & r2 & Hexec1 & Hexec2 & Hone & Hback & _).
  exists r1, r2.
  split; [exact Hexec1 | split; [exact Hexec2 | split; [exact Hone | exact Hback]]].
Defined.

(** X2: after [CMP] of [a] with [b] whose difference does not wrap around,
    each jump is taken exactly under its condition: [JE] when [a = b], [JNE]
    when they differ, [JG] when [a > b], [JL] when [a < b], [JGE] when
    [a >= b], [JLE] when [a <= b], [JMP] always; a jump changes nothing but
    the program counter. *)
Theorem compare_then_jump (m : Simulator.Machine) (cmp jump pc : Z) :
  Simulator.decode_opcode cmp = 23 \/ Simulator.decode_opcode cmp = 21 ->
  24 <= Simulator.decode_opcode jump <= 30 ->
  let a := Simulator.get_register_value m (Simulator.decode_reg1 cmp) in
  let b := if Simulator.decode_opcode cmp =? 23
           then Simulator.get_register_value m (Simulator.decode_reg2 cmp)
           else Simulator.decode_value cmp in
  in_int (a - b) ->
  exists r1 r2,
  Simulator.execute_instruction m cmp pc = Next (fst r1) (snd r1) /\
  Simulator.execute_instruction (fst r1) jump (snd r1) = Next (fst r2) (snd r2) /\
  fst r2 = fst r1 /\
  snd r2 = (if jump_condition (Simulator.decode_opcode jump) a b
            then Simulator.decode_value jump
            else wrap32 (snd r1 + 1)).
Proof.
  intros Hcmp Hjump a b Hdiff.
  pose proof (compare_step m cmp pc Hcmp) as Hexec1.
  fold a b in Hexec1. unfold Simulator.compare in Hexec1.
  assert (Hw : wrap32 (a - b) = a - b) by (apply wrap32_small; exact Hdiff).
  rewrite Hw in Hexec1.
  match type of Hexec1 with
  | _ = Next ?m1 ?pc1 => pose (r1 := (m1, pc1))
  end.
  assert (Hr1 : r1 = (Simulator.with_flags m
                        (Simulator.mkFlags (a - b =? 0) (a - b <? 0)),
                      wrap32 (pc + 1))) by reflexivity.
  change (Simulator.execute_instruction m cmp pc = Next (fst r1) (snd r1)) in Hexec1.
  clearbody r1.
  assert (Hzf : Simulator.ZF (Simulator.flags (fst r1)) = (a =? b)).
  { rewrite Hr1. cbn. destruct (Z.eqb_spec (a - b) 0), (Z.eqb_spec a b); try reflexivity; lia. }
  assert (Hsf : Simulator.SF (Simulator.flags (fst r1)) = (a <? b)).
  { rewrite Hr1. cbn. destruct (Z.ltb_spec (a - b) 0), (Z.ltb_spec a b); try reflexivity; lia. }
  exists r1.
  exists (fst r1,
          if jump_condition (Simulator.decode_opcode jump) a b
          then Simulator.decode_value jump
          else wrap32 (snd r1 + 1)).
  cbn [fst snd].
  refine (conj Hexec1 (conj _ (conj eq_refl eq_refl))).
  unfold Simulator.execute_instruction.
  assert (Hop : In (Simulator.decode_opcode jump) [24; 25; 26; 27; 28; 29; 30]).
  { assert (Hk : exists k : nat, Simulator.decode_opcode jump = 24 + Z.of_nat k /\ (k < 7)%nat)
      by (exists (Z.to_nat (Simulator.decode_opcode jump - 24)); lia).
    destruct Hk as (k & -> & Hk).
    do 7 (destruct k as [| k]; [simpl; tauto |]). lia. }
  simpl in Hop.
  destruct Hop as [<- | [<- | [<- | [<- | [<- | [<- | [<- | []]]]]]]];
    cbv beta iota zeta; cbn [Simulator.is_base_offset Z.eqb orb fst snd jump_condition];
    rewrite ?Hzf, ?Hsf; f_equal.
  - destruct (Z.eqb_spec a b), (Z.ltb_spec a b), (Z.gtb_spec a b);
      try reflexivity; lia.
  - destruct (Z.ltb_spec a b), (Z.geb_spec a b); try reflexivity; lia.
  - destruct (Z.eqb_spec a b), (Z.ltb_spec a b), (Z.leb_spec a b);
      try reflexivity; lia.
Qed.

Lemma compare_then_jump_witness :
  let m := Claims.reached
             (Simulator.run_program 2 (assembled ["MOV EAX, #3"; "MOV EBX, #7"])
                Claims.no_input) in
  let cmp := Extended.encode_instruction [] "CMP EAX, EBX" 2 in
  let jump := Extended.encode_instruction [] "JL 9" 3 in
  in_int (Simulator.get_register_value m 0 - Simulator.get_register_value m 1) /\
  exists r1 r2,
    Simulator.execute_instruction m cmp 2 = Next (fst r1) (snd r1) /\
    Simulator.execute_instruction (fst r1) jump (snd r1) = Next (fst r2) (snd r2) /\
    snd r2 = 9.
Proof.
  intros m cmp jump.
  assert (Hd : in_int (Simulator.get_register_value m 0 - Simulator.get_register_value m 1))
    by (vm_compute; split; discriminate).
  split; [exact Hd |].
  assert (Hj : 24 <= Simulator.decode_opcode jump <= 30)
    by (vm_compute; split; discriminate).
  destruct (compare_then_jump m cmp jump 2 (or_introl eq_refl) Hj Hd)
    as (r1 & r2 & Hexec1 & Hexec2 & _ & Hpc).
  exists r1, r2.
  split; [exact Hexec1 | split; [exact Hexec2 | exact Hpc]].
Defined.

Section Memory.

Import Simulator.

Lemma valid_address_value (w : Z) : valid_address (decode_value w) = true.
Proof.
  pose proof (decode_value_range w) as H. unfold valid_address, MEMORY_SIZE.
  apply andb_true_intro. split; [apply Z.leb_le | apply Z.ltb_lt]; lia.
Qed.

Lemma set_registers_only (m : Machine) (r v : Z) :
  stdin (set_register_value m r v) = stdin m.
Proof.
  unfold set_register_value.
  repeat match goal with
         | |- context [match ?x with _ => _ end] => destruct x
         end; reflexivity.
Qed.

End Memory.

(** X3: a direct store [MOV [addr], r] followed by a direct load
    [MOV r', [addr]] of the same address gives [r'] the value of [r]; the
    address field has eight bits and the memory 256 words, so neither
    instruction can address outside the memory and nothing is reported. *)
Theorem store_then_load (m : Simulator.Machine) (store load pc : Z) :
  Claims.well_formed m ->
  Simulator.decode_opcode store = 8 ->
  Simulator.decode_opcode load = 7 ->
  Simulator.decode_value load = Simulator.decode_value store ->
  exists r1 r2,
  Simulator.execute_instruction m store pc = Next (fst r1) (snd r1) /\
  Simulator.execute_instruction (fst r1) load (snd r1) = Next (fst r2) (snd r2) /\
  Simulator.memory (fst r1) =
    <[Z.to_nat (Simulator.decode_value store) :=
        Simulator.get_register_value m (Simulator.decode_reg1 store)]>
      (Simulator.memory m) /\
  Simulator.get_register_value (fst r2) (Simulator.decode_reg1 load) =
    Simulator.get_register_value m (Simulator.decode_reg1 store) /\
  Simulator.console (fst r2) = Simulator.console m.
Proof.
  intros Hwf Hstore Hload Hsame.
  unfold Claims.well_formed in Hwf.
  pose proof (valid_address_value store) as Hvalid.
  pose (r1 :=
    (Simulator.with_memory m
       (<[Z.to_nat (Simulator.decode_value store) :=
            Simulator.get_register_value m (Simulator.decode_reg1 store)]>
          (Simulator.memory m)),
     wrap32 (pc + 1))).
  assert (Hexec1 : Simulator.execute_instruction m store pc = Next (fst r1) (snd r1)).
  { unfold r1. cbn [fst snd]. unfold Simulator.execute_instruction. rewrite Hstore.
    change (Simulator.is_base_offset 8) with false. cbv beta iota zeta.
    unfold Simulator.write_memory. rewrite Hvalid. reflexivity. }
  assert (Hr1 : r1 =
    (Simulator.with_memory m
       (<[Z.to_nat (Simulator.decode_value store) :=
            Simulator.get_register_value m (Simulator.decode_reg1 store)]>
          (Simulator.memory m)),
     wrap32 (pc + 1))) by reflexivity.
  clearbody r1.
  pose (r2 :=
    (Simulator.set_register_value (fst r1) (Simulator.decode_reg1 load)
       (Simulator.get_register_value m (Simulator.decode_reg1 store)),
     wrap32 (snd r1 + 1))).
  assert (Hexec2 : Simulator.execute_instruction (fst r1) load (snd r1) =
                   Next (fst r2) (snd r2)).
  { unfold r2. cbn [fst snd]. unfold Simulator.execute_instruction. rewrite Hload.
    change (Simulator.is_base_offset 7) with false. cbv beta iota zeta.
    unfold Simulator.read_memory. rewrite Hsame, Hvalid.
    assert (Hmem1 : Simulator.memory (fst r1) =
              <[Z.to_nat (Simulator.decode_value store) :=
                  Simulator.get_register_value m (Simulator.decode_reg1 store)]>
                (Simulator.memory m)) by (rewrite Hr1; reflexivity).
    rewrite Hmem1, read_written by assumption. reflexivity. }
  assert (Hr2 : r2 =
    (Simulator.set_register_value (fst r1) (Simulator.decode_reg1 load)
       (Simulator.get_register_value m (Simulator.decode_reg1 store)),
     wrap32 (snd r1 + 1))) by reflexivity.
  clearbody r2.
  exists r1, r2.
  refine (conj Hexec1 (conj Hexec2 (conj _ (conj _ _)))).
  - rewrite Hr1. reflexivity.
  - rewrite Hr2. cbn [fst]. apply get_set_same. apply decode_reg1_range.
  - rewrite Hr2. cbn [fst]. rewrite set_console, Hr1. reflexivity.
Qed.

Lemma store_then_load_witness :
  let m := Claims.reached
             (Simulator.run_program 1 (assembled ["MOV ECX, #42"]) Claims.no_input) in
  let store := Extended.encode_instruction [] "MOV [255], ECX" 1 in
  let load := Extended.encode_instruction [] "MOV EDX, [255]" 2 in
  Claims.well_formed m /\
  exists r1 r2,
    Simulator.execute_instruction m store 1 = Next (fst r1) (snd r1) /\
    Simulator.execute_instruction (fst r1) load (snd r1) = Next (fst r2) (snd r2) /\
    Simulator.get_register_value (fst r2) 3 = 42.
Proof.
  intros m store load.
  assert (Hwf : Claims.well_formed m) by reflexivity.
  split; [exact Hwf |].
  destruct (store_then_load m store load 1 Hwf eq_refl eq_refl eq_refl)
    as (r1 & r2 & Hexec1 & Hexec2 & _ & Hvalue & _).
  exists r1, r2.
  split; [exact Hexec1 | split; [exact Hexec2 | exact Hvalue]].
Defined.

(** X4: a base+offset store addresses the word at the base register plus
    the offset.  Inside the memory, a load with the same base and offset
    reads back the register that was stored and nothing is reported; outside
    it, the store changes no word and is reported, and the load that follows
    gives 0 and is reported too. *)
Theorem base_offset_store_then_load (m : Simulator.Machine) (store load pc : Z) :
  Claims.well_formed m ->
  Simulator.decode_opcode store = 31 ->
  Simulator.decode_opcode load = 15 ->
  Simulator.decode_reg2 load = Simulator.decode_reg2 store ->
  Simulator.decode_offset load = Simulator.decode_offset store ->
  let address :=
    wrap32 (Simulator.get_register_value m (Simulator.decode_reg2 store) +
            Simulator.decode_offset store) in
  let value := Simulator.get_register_value m (Simulator.decode_reg1 store) in
  exists r1 r2,
  Simulator.execute_instruction m store pc = Next (fst r1) (snd r1) /\
  Simulator.execute_instruction (fst r1) load (snd r1) = Next (fst r2) (snd r2) /\
  if Simulator.valid_address address then
    Simulator.memory (fst r1) = <[Z.to_nat address := value]> (Simulator.memory m) /\
    Simulator.get_register_value (fst r2) (Simulator.decode_reg1 load) = value /\
    Simulator.console (fst r2) = Simulator.console m
  else
    Simulator.memory (fst r2) = Simulator.memory m /\
    Simulator.get_register_value (fst r2) (Simulator.decode_reg1 load) = 0 /\
    Simulator.console (fst r2) =
      Simulator.console m ++
      [Simulator.InvalidWrite address; Simulator.InvalidRead address].
Proof.
  intros Hwf Hstore Hload Hbase Hoff address value.
  unfold Claims.well_formed in Hwf.
  pose (r1 := (Simulator.write_memory m address value, wrap32 (pc + 1))).
  assert (Hexec1 : Simulator.execute_instruction m store pc = Next (fst r1) (snd r1)).
  { unfold r1. cbn [fst snd]. unfold Simulator.execute_instruction.
    rewrite Hstore. reflexivity. }
  assert (Hr1 : r1 = (Simulator.write_memory m address value, wrap32 (pc + 1)))
    by reflexivity.
  clearbody r1.
  assert (Hbase1 : Simulator.get_register_value (fst r1) (Simulator.decode_reg2 store) =
                   Simulator.get_register_value m (Simulator.decode_reg2 store)).
  { rewrite Hr1. cbn [fst]. unfold Simulator.write_memory.
    destruct (Simulator.valid_address address); reflexivity. }
  pose (r2 :=
    (Simulator.set_register_value (snd (Simulator.read_memory (fst r1) address))
       (Simulator.decode_reg1 load) (fst (Simulator.read_memory (fst r1) address)),
     wrap32 (snd r1 + 1))).
  assert (Hexec2 : Simulator.execute_instruction (fst r1) load (snd r1) =
                   Next (fst r2) (snd r2)).
  { unfold r2. cbn [fst snd]. unfold Simulator.execute_instruction. rewrite Hload.
    change (Simulator.is_base_offset 15) with true. cbv beta iota zeta.
    change (15 =? 15) with true. cbv iota.
    rewrite Hbase, Hoff, Hbase1. fold address.
    destruct (Simulator.read_memory (fst r1) address). reflexivity. }
  assert (Hr2 : r2 =
    (Simulator.set_register_value (snd (Simulator.read_memory (fst r1) address))
       (Simulator.decode_reg1 load) (fst (Simulator.read_memory (fst r1) address)),
     wrap32 (snd r1 + 1))) by reflexivity.
  clearbody r2.
  pose proof (decode_reg1_range load) as Hr.
  exists r1, r2.
  refine (conj Hexec1 (conj Hexec2 _)).
  destruct (Simulator.valid_address address) eqn:Hvalid.
  - assert (Hm1 : fst r1 = Simulator.with_memory m
                    (<[Z.to_nat address := value]> (Simulator.memory m))).
    { rewrite Hr1. cbn [fst]. unfold Simulator.write_memory. rewrite Hvalid. reflexivity. }
    assert (Hread : Simulator.read_memory (fst r1) address = (value, fst r1)).
    { unfold Simulator.read_memory. rewrite Hvalid. rewrite Hm1.
      cbn [Simulator.with_memory Simulator.memory].
      rewrite read_written by assumption. reflexivity. }
    rewrite Hread in Hr2. cbn [fst snd] in Hr2.
    refine (conj _ (conj _ _)).
    + rewrite Hm1. reflexivity.
    + rewrite Hr2. cbn [fst]. apply get_set_same. exact Hr.
    + rewrite Hr2. cbn [fst]. rewrite set_console, Hm1. reflexivity.
  - assert (Hm1 : fst r1 = Simulator.print m (Simulator.InvalidWrite address)).
    { rewrite Hr1. cbn [fst]. unfold Simulator.write_memory. rewrite Hvalid. reflexivity. }
    assert (Hread : Simulator.read_memory (fst r1) address =
                    (0, Simulator.print (fst r1) (Simulator.InvalidRead address))).
    { unfold Simulator.read_memory. rewrite Hvalid. reflexivity. }
    rewrite Hread in Hr2. cbn [fst snd] in Hr2.
    refine (conj _ (conj _ _)).
    + rewrite Hr2. cbn [fst]. rewrite set_memory, Hm1. reflexivity.
    + rewrite Hr2. cbn [fst]. apply get_set_same. exact Hr.
    + rewrite Hr2. cbn [fst]. rewrite set_console, Hm1.
      cbn [Simulator.print Simulator.console]. rewrite <- app_assoc. reflexivity.
Qed.

Lemma base_offset_store_then_load_witness :
  let m := Claims.reached
             (Simulator.run_program 1 (assembled ["MOV ECX, #42"]) Claims.no_input) in
  let store := Extended.encode_instruction [] "MOV [EAX+31], ECX" 1 in
  let load := Extended.encode_instruction [] "MOV EDX, [EAX+31]" 2 in
  Claims.well_formed m /\
  exists r1 r2,
    Simulator.execute_instruction m store 1 = Next (fst r1) (snd r1) /\
    Simulator.execute_instruction (fst r1) load (snd r1) = Next (fst r2) (snd r2) /\
    Simulator.get_register_value (fst r2) 3 = 42.
Proof.
  intros m store load.
  assert (Hwf : Claims.well_formed m) by reflexivity.
  split; [exact Hwf |].
  pose proof (base_offset_store_then_load m store load 1 Hwf eq_refl eq_refl eq_refl eq_refl)
    as H.
  cbv zeta in H.
  destruct H as (r1 & r2 & Hexec1 & Hexec2 & H).
  change (Simulator.valid_address
            (wrap32 (Simulator.get_register_value m (Simulator.decode_reg2 store) +
                     Simulator.decode_offset store))) with true in H.
  cbv iota in H.
  destruct H as (_ & Hvalue & _).
  exists r1, r2.
  split; [exact Hexec1 | split; [exact Hexec2 | exact Hvalue]].
Defined.

Section Outcomes.

Import Simulator.

Lemma nothing_reported (c : list event) : no_unknown_opcode_reported c c.
Proof. exists []. rewrite app_nil_r. split; reflexivity. Qed.

Lemma one_reported (c : list event) (e : event) :
  is_unknown_opcode e = false -> no_unknown_opcode_reported c (c ++ [e]).
Proof. intros H. exists [e]. split; [reflexivity |]. simpl. rewrite H. reflexivity. Qed.

Lemma two_reported (c : list event) (e1 e2 : event) :
  is_unknown_opcode e1 = false -> is_unknown_opcode e2 = false ->
  no_unknown_opcode_reported c ((c ++ [e1]) ++ [e2]).
Proof.
  intros H1 H2. exists [e1; e2]. split; [rewrite <- app_assoc; reflexivity |].
  simpl. rewrite H1, H2. reflexivity.
Qed.

End Outcomes.

(** Open the helpers of a step and split on the tests they make. *)
Ltac open_step :=
  unfold Simulator.write_memory, Simulator.read_memory, Simulator.input,
    Simulator.compare, Simulator.dec_ESP, Simulator.inc_ESP;
  repeat match goal with
         | |- context [CLib.scanf_int ?s] => destruct (CLib.scanf_int s)
         | |- context [if ?b then _ else _] => destruct b
         | |- context [match ?o with Some _ => _ | None => _ end] => destruct o
         end;
  cbv beta iota zeta;
  repeat (progress cbn [fst snd Simulator.console Simulator.print Simulator.with_flags
                        Simulator.with_memory Simulator.with_stdin]
          || rewrite set_console).

(** X5: the extended simulator knows all 32 opcodes: whatever 16-bit word
    it executes, it never reports an unknown opcode, whether the instruction
    returns or not; and an instruction that has no result is a [DIV] or an
    [INP]. *)
Theorem every_word_is_an_instruction (m : Simulator.Machine) (instruction pc : Z) :
  0 <= instruction < 65536 ->
  match Simulator.execute_instruction m instruction pc with
  | Next m' _ =>
      no_unknown_opcode_reported (Simulator.console m) (Simulator.console m')
  | Blocked m' =>
      no_unknown_opcode_reported (Simulator.console m) (Simulator.console m')
  | Undefined =>
      Simulator.decode_opcode instruction = 2 \/
      Simulator.decode_opcode instruction = 4
  end.
Proof.
  intros Hword.
  pose proof (opcode_cases _ (decode_opcode_range instruction Hword)) as Hop.
  unfold Simulator.execute_instruction.
  simpl In in Hop.
  repeat (destruct Hop as [Hop | Hop];
          [rewrite <- Hop;
           cbv beta iota zeta;
           cbn [Simulator.is_base_offset Z.eqb Pos.eqb orb];
           open_step;
           first [left; reflexivity
                 | right; reflexivity
                 | apply nothing_reported
                 | apply one_reported; reflexivity
                 | apply two_reported; reflexivity] |]).
  destruct Hop.
Qed.

(** X6: how an instruction of the extended simulator ends, from a program
    counter inside the program.  It ends the run (returns a negative program
    counter) only if it is [HLT], a [DIV] whose divisor is zero, or a [RET]
    (which takes whatever the stack slot holds); otherwise, when it returns,
    the run goes on at the next word or at the address in its low eight
    bits.  It does not return only if it is an [INP] and no newline is left
    on the input after what [scanf] read.  It has no result only if it is an
    [INP] and the number typed is no [int], or a [DIV] of the least [int] by
    [-1]; sums, differences and products wrap around. *)
Theorem what_stops_the_run (m : Simulator.Machine) (instruction pc : Z) :
  0 <= instruction < 65536 ->
  0 <= pc < Simulator.PROGRAM_SIZE ->
  let opcode := Simulator.decode_opcode instruction in
  match Simulator.execute_instruction m instruction pc with
  | Next _ next =>
      (next < 0 ->
       opcode = 0 \/
       (opcode = 2 /\
        Simulator.get_register_value m (Simulator.decode_reg2 instruction) = 0) \/
       opcode = 14) /\
      (0 <= next -> opcode <> 14 ->
       next = pc + 1 \/ next = Simulator.decode_value instruction)
  | Blocked _ =>
      opcode = 4 /\
      CLib.skip_line (unread_after_scanf (Simulator.stdin m)) = None
  | Undefined =>
      (opcode = 4 /\
       exists input_val unread,
         CLib.scanf_int (Simulator.stdin m) = CLib.Converted input_val unread /\
         ~ in_int input_val) \/
      (opcode = 2 /\
       Simulator.get_register_value m (Simulator.decode_reg1 instruction) = INT_MIN /\
       Simulator.get_register_value m (Simulator.decode_reg2 instruction) = -1)
  end.
Proof.
  intros Hword Hpc opcode. subst opcode.
  pose proof (opcode_cases _ (decode_opcode_range instruction Hword)) as Hop.
  pose proof (decode_value_range instruction) as Hvalue.
  assert (Hnext : wrap32 (pc + 1) = pc + 1)
    by (apply wrap32_small; unfold INT_MIN, INT_MAX, Simulator.PROGRAM_SIZE in *; lia).
  unfold Simulator.execute_instruction. rewrite Hnext.
  simpl In in Hop.
  repeat (destruct Hop as [Hop | Hop];
          [rewrite <- Hop;
           cbv beta iota zeta;
           cbn [Simulator.is_base_offset Z.eqb Pos.eqb orb];
           unfold Simulator.read_memory, Simulator.input, unread_after_scanf;
           cbn [Simulator.print Simulator.stdin];
           repeat match goal with
                  | |- context [CLib.scanf_int ?s] => destruct (CLib.scanf_int s) eqn:?
                  | |- context [if ?b then _ else _] => destruct b eqn:?
                  | |- context [match ?o with Some _ => _ | None => _ end] =>
                      destruct o eqn:?
                  end;
           cbv beta iota zeta;
           lazymatch goal with
           | |- (_ -> _) /\ (_ -> _ -> _) =>
               (split; [intros Hneg | intros Hpos Hret]);
               first [lia
                     | right; left; split; [reflexivity | apply Z.eqb_eq; assumption]
                     | right; right; reflexivity
                     | exfalso; apply Hret; reflexivity]
           | |- _ /\ None = None => split; reflexivity
           | |- _ \/ _ =>
               first
                 [ left; split; [reflexivity |];
                   eexists _, _; split; [reflexivity |];
                   intros [Hlow Hhigh];
                   apply Z.leb_le in Hlow; apply Z.leb_le in Hhigh;
                   match goal with
                   | H : _ && _ = false |- _ => rewrite Hlow, Hhigh in H; discriminate H
                   end
                 | right; split; [reflexivity |];
                   match goal with
                   | H : _ && _ = true |- _ =>
                       apply andb_prop in H as [H1 H2];
                       apply Z.eqb_eq in H1; apply Z.eqb_eq in H2;
                       split; assumption
                   end ]
           end |]).
  destruct Hop.
Qed.

Lemma what_stops_the_run_witness :
  let m := Simulator.initial Claims.no_input in
  let jump := Extended.encode_instruction [] "JMP 200" 3 in
  0 <= jump < 65536 /\
  exists m',
    Simulator.execute_instruction m jump 3 = Next m' (Simulator.decode_value jump).
Proof.
  intros m jump.
  assert (Hword : 0 <= jump < 65536) by (vm_compute; split; [discriminate | reflexivity]).
  split; [exact Hword |].
  assert (Hpc : 0 <= 3 < Simulator.PROGRAM_SIZE)
    by (vm_compute; split; [discriminate | reflexivity]).
  pose proof (what_stops_the_run m jump 3 Hword Hpc) as H.
  cbv zeta in H.
  destruct (Simulator.execute_instruction m jump 3) as [m' next | m' |] eqn:Hexec;
    [| discriminate Hexec | discriminate Hexec].
  exists m'. f_equal.
  destruct H as [_ Hgo].
  assert (Hnext : next = 200) by (vm_compute in Hexec; congruence).
  destruct (Hgo ltac:(lia) ltac:(vm_compute; discriminate)) as [Hone | Htarget];
    [exfalso; lia | exact Htarget].
Defined.

Lemma every_word_is_an_instruction_witness :
  0 <= ENCODE_ERROR < 65536 /\
  exists m' next,
    Simulator.execute_instruction (Simulator.initial Claims.no_input) ENCODE_ERROR 0 =
      Next m' next /\
    no_unknown_opcode_reported
      (Simulator.console (Simulator.initial Claims.no_input))
      (Simulator.console m').
Proof.
  assert (Hword : 0 <= ENCODE_ERROR < 65536)
    by (vm_compute; split; [discriminate | reflexivity]).
  split; [exact Hword |].
  pose proof (every_word_is_an_instruction (Simulator.initial Claims.no_input)
                ENCODE_ERROR 0 Hword) as H.
  destruct (Simulator.execute_instruction (Simulator.initial Claims.no_input)
              ENCODE_ERROR 0) as [m' next | m' |] eqn:Hexec;
    [| discriminate Hexec | discriminate Hexec].
  exists m', next. split; [reflexivity | exact H].
Defined.

Section Lifo.

Import Simulator.

(** One [POP] with the stack pointer on a word of the memory. *)
Lemma pop_step (m : Machine) (pop pc : Z) :
  decode_opcode pop = 12 ->
  valid_address (ESP (registers m)) = true ->
  execute_instruction m pop pc =
  Next (inc_ESP (set_register_value m (decode_reg1 pop)
                   (default 0 (memory m !! Z.to_nat (ESP (registers m))))))
       (wrap32 (pc + 1)).
Proof.
  intros Hop Hvalid. unfold execute_instruction. rewrite Hop.
  change (is_base_offset 12) with false. cbv beta iota zeta.
  unfold read_memory. rewrite Hvalid. reflexivity.
Qed.

Lemma ESP_dec_ESP (m : Machine) :
  INT_MIN < ESP (registers m) <= INT_MAX ->
  ESP (registers (dec_ESP m)) = ESP (registers m) - 1.
Proof.
  intros H. unfold dec_ESP. rewrite ESP_is_register_7, get_set_same by lia.
  apply wrap32_small. unfold INT_MIN, INT_MAX in *. lia.
Qed.

Lemma ESP_inc_ESP (m : Machine) :
  INT_MIN <= ESP (registers m) < INT_MAX ->
  ESP (registers (inc_ESP m)) = ESP (registers m) + 1.
Proof.
  intros H. unfold inc_ESP. rewrite ESP_is_register_7, get_set_same by lia.
  apply wrap32_small. unfold INT_MIN, INT_MAX in *. lia.
Qed.

Lemma get_dec_ESP (m : Machine) (r : Z) :
  0 <= r < 7 -> get_register_value (dec_ESP m) r = get_register_value m r.
Proof. intros H. unfold dec_ESP. apply get_set_other; lia. Qed.

Lemma get_inc_ESP (m : Machine) (r : Z) :
  0 <= r < 7 -> get_register_value (inc_ESP m) r = get_register_value m r.
Proof. intros H. unfold inc_ESP. apply get_set_other; lia. Qed.

Lemma memory_inc_ESP (m : Machine) : memory (inc_ESP m) = memory m.
Proof. unfold inc_ESP. apply set_memory. Qed.

Lemma memory_dec_ESP (m : Machine) : memory (dec_ESP m) = memory m.
Proof. unfold dec_ESP. apply set_memory. Qed.

Lemma ESP_set_other (m : Machine) (r v : Z) :
  0 <= r < 7 -> ESP (registers (set_register_value m r v)) = ESP (registers m).
Proof. intros H. rewrite !ESP_is_register_7. apply get_set_other; lia. Qed.

End Lifo.

(** X7: the stack is last in, first out.  With room for two words below
    the stack pointer, [PUSH a], [PUSH b], [POP x], [POP y] (none of the four
    the stack pointer itself) leaves in [y] what [a] held and, when [x] is
    another register than [y], in [x] what [b] held, and the stack pointer
    where it was. *)
Theorem last_in_first_out (m : Simulator.Machine) (push_a push_b pop_x pop_y pc : Z) :
  Claims.well_formed m ->
  Simulator.decode_opcode push_a = 11 -> Simulator.decode_opcode push_b = 11 ->
  Simulator.decode_opcode pop_x = 12 -> Simulator.decode_opcode pop_y = 12 ->
  Simulator.decode_reg1 push_a <> 7 -> Simulator.decode_reg1 push_b <> 7 ->
  Simulator.decode_reg1 pop_x <> 7 -> Simulator.decode_reg1 pop_y <> 7 ->
  2 <= Simulator.ESP (Simulator.registers m) <= Simulator.MEMORY_SIZE ->
  exists r1 r2 r3 r4,
  Simulator.execute_instruction m push_a pc = Next (fst r1) (snd r1) /\
  Simulator.execute_instruction (fst r1) push_b (snd r1) = Next (fst r2) (snd r2) /\
  Simulator.execute_instruction (fst r2) pop_x (snd r2) = Next (fst r3) (snd r3) /\
  Simulator.execute_instruction (fst r3) pop_y (snd r3) = Next (fst r4) (snd r4) /\
  Simulator.get_register_value (fst r4) (Simulator.decode_reg1 pop_y) =
    Simulator.get_register_value m (Simulator.decode_reg1 push_a) /\
  (Simulator.decode_reg1 pop_x <> Simulator.decode_reg1 pop_y ->
   Simulator.get_register_value (fst r4) (Simulator.decode_reg1 pop_x) =
     Simulator.get_register_value m (Simulator.decode_reg1 push_b)) /\
  Simulator.ESP (Simulator.registers (fst r4)) = Simulator.ESP (Simulator.registers m) /\
  Simulator.console (fst r4) = Simulator.console m.
Proof.
  intros Hwf Ha Hb Hx Hy Hra Hrb Hrx Hry Hsp.
  unfold Claims.well_formed in Hwf.
  pose proof (decode_reg1_range push_a) as Ra.
  pose proof (decode_reg1_range push_b) as Rb.
  pose proof (decode_reg1_range pop_x) as Rx.
  pose proof (decode_reg1_range pop_y) as Ry.
  set (sp := Simulator.ESP (Simulator.registers m)) in *.
  set (va := Simulator.get_register_value m (Simulator.decode_reg1 push_a)).
  set (vb := Simulator.get_register_value m (Simulator.decode_reg1 push_b)).
  assert (Hbounds : 2 <= sp <= 256) by exact Hsp.
  (* first push *)
  pose proof (push_step m push_a pc Ha
                ltac:(unfold Simulator.MEMORY_SIZE; fold sp; lia)) as Hexec1.
  match type of Hexec1 with
  | _ = Next ?m1 ?pc1 => pose (r1 := (m1, pc1))
  end.
  change (Simulator.execute_instruction m push_a pc = Next (fst r1) (snd r1)) in Hexec1.
  assert (E1 : fst r1 = Simulator.with_memory (Simulator.dec_ESP m)
                          (<[Z.to_nat (sp - 1) := va]> (Simulator.memory m))).
  { unfold r1. cbn [fst]. rewrite get_dec_ESP by lia. reflexivity. }
  clearbody r1.
  assert (S1 : Simulator.ESP (Simulator.registers (fst r1)) = sp - 1).
  { rewrite E1. cbn [Simulator.with_memory Simulator.registers].
    apply ESP_dec_ESP. fold sp. unfold INT_MIN, INT_MAX. lia. }
  assert (M1 : Simulator.memory (fst r1) = <[Z.to_nat (sp - 1) := va]> (Simulator.memory m))
    by (rewrite E1; reflexivity).
  assert (B1 : Simulator.get_register_value (fst r1) (Simulator.decode_reg1 push_b) = vb).
  { rewrite E1, get_register_with_memory. apply get_dec_ESP. lia. }
  assert (C1 : Simulator.console (fst r1) = Simulator.console m).
  { rewrite E1. cbn [Simulator.with_memory Simulator.console].
    unfold Simulator.dec_ESP. apply set_console. }
  (* second push *)
  pose proof (push_step (fst r1) push_b (snd r1) Hb
                ltac:(rewrite S1; unfold Simulator.MEMORY_SIZE; lia)) as Hexec2.
  match type of Hexec2 with
  | _ = Next ?m2 ?pc2 => pose (r2 := (m2, pc2))
  end.
  change (Simulator.execute_instruction (fst r1) push_b (snd r1) =
          Next (fst r2) (snd r2)) in Hexec2.
  assert (E2 : fst r2 = Simulator.with_memory (Simulator.dec_ESP (fst r1))
                          (<[Z.to_nat (sp - 2) := vb]> (Simulator.memory (fst r1)))).
  { unfold r2. cbn [fst]. rewrite get_dec_ESP by lia. rewrite B1, S1.
    replace (sp - 1 - 1) with (sp - 2) by lia. reflexivity. }
  clearbody r2.
  assert (S2 : Simulator.ESP (Simulator.registers (fst r2)) = sp - 2).
  { rewrite E2. cbn [Simulator.with_memory Simulator.registers].
    rewrite ESP_dec_ESP by (rewrite S1; unfold INT_MIN, INT_MAX; lia). rewrite S1. lia. }
  assert (M2 : Simulator.memory (fst r2) =
               <[Z.to_nat (sp - 2) := vb]> (<[Z.to_nat (sp - 1) := va]> (Simulator.memory m)))
    by (rewrite E2; cbn [Simulator.with_memory Simulator.memory]; rewrite M1; reflexivity).
  assert (C2 : Simulator.console (fst r2) = Simulator.console m).
  { rewrite E2. cbn [Simulator.with_memory Simulator.console].
    unfold Simulator.dec_ESP. rewrite set_console. exact C1. }
  assert (V2 : Simulator.valid_address (sp - 2) = true).
  { unfold Simulator.valid_address, Simulator.MEMORY_SIZE.
    apply andb_true_intro. split; [apply Z.leb_le | apply Z.ltb_lt]; lia. }
  assert (V1 : Simulator.valid_address (sp - 1) = true).
  { unfold Simulator.valid_address, Simulator.MEMORY_SIZE.
    apply andb_true_intro. split; [apply Z.leb_le | apply Z.ltb_lt]; lia. }
  (* first pop *)
  pose proof (pop_step (fst r2) pop_x (snd r2) Hx ltac:(rewrite S2; exact V2)) as Hexec3.
  match type of Hexec3 with
  | _ = Next ?m3 ?pc3 => pose (r3 := (m3, pc3))
  end.
  change (Simulator.execute_instruction (fst r2) pop_x (snd r2) =
          Next (fst r3) (snd r3)) in Hexec3.
  assert (E3 : fst r3 = Simulator.inc_ESP
                 (Simulator.set_register_value (fst r2) (Simulator.decode_reg1 pop_x) vb)).
  { unfold r3. cbn [fst]. rewrite S2, M2.
    rewrite list_lookup_insert_eq by (rewrite length_insert, Hwf; unfold Simulator.MEMORY_SIZE; lia).
    reflexivity. }
  clearbody r3.
  assert (S3 : Simulator.ESP (Simulator.registers (fst r3)) = sp - 1).
  { rewrite E3. rewrite ESP_inc_ESP; rewrite ESP_set_other by lia; rewrite S2;
      [lia | unfold INT_MIN, INT_MAX; lia]. }
  assert (M3 : Simulator.memory (fst r3) = Simulator.memory (fst r2))
    by (rewrite E3, memory_inc_ESP; apply set_memory).
  assert (X3 : Simulator.get_register_value (fst r3) (Simulator.decode_reg1 pop_x) = vb).
  { rewrite E3, get_inc_ESP by lia. apply get_set_same. exact Rx. }
  assert (C3 : Simulator.console (fst r3) = Simulator.console m).
  { rewrite E3. unfold Simulator.inc_ESP. rewrite !set_console. exact C2. }
  (* second pop *)
  pose proof (pop_step (fst r3) pop_y (snd r3) Hy ltac:(rewrite S3; exact V1)) as Hexec4.
  match type of Hexec4 with
  | _ = Next ?m4 ?pc4 => pose (r4 := (m4, pc4))
  end.
  change (Simulator.execute_instruction (fst r3) pop_y (snd r3) =
          Next (fst r4) (snd r4)) in Hexec4.
  assert (E4 : fst r4 = Simulator.inc_ESP
                 (Simulator.set_register_value (fst r3) (Simulator.decode_reg1 pop_y) va)).
  { unfold r4. cbn [fst]. rewrite S3, M3, M2.
    rewrite list_lookup_insert_ne by lia.
    rewrite list_lookup_insert_eq by (rewrite Hwf; unfold Simulator.MEMORY_SIZE; lia).
    reflexivity. }
  clearbody r4.
  exists r1, r2, r3, r4.
  refine (conj Hexec1 (conj Hexec2 (conj Hexec3 (conj Hexec4
            (conj _ (conj _ (conj _ _))))))).
  - rewrite E4, get_inc_ESP by lia. apply get_set_same. exact Ry.
  - intros Hdiff. rewrite E4, get_inc_ESP by lia.
    rewrite get_set_other by (try lia; congruence). exact X3.
  - rewrite E4. rewrite ESP_inc_ESP; rewrite ESP_set_other by lia; rewrite S3;
      [fold sp; lia | unfold INT_MIN, INT_MAX; lia].
  - rewrite E4. unfold Simulator.inc_ESP. rewrite !set_console. exact C3.
Qed.

Lemma last_in_first_out_witness :
  let m := Claims.reached
             (Simulator.run_program 2 (assembled ["MOV EAX, #11"; "MOV EBX, #22"])
                Claims.no_input) in
  let push_a := Extended.encode_instruction [] "PUSH EAX" 2 in
  let push_b := Extended.encode_instruction [] "PUSH EBX" 3 in
  let pop_x := Extended.encode_instruction [] "POP ECX" 4 in
  let pop_y := Extended.encode_instruction [] "POP EDX" 5 in
  Claims.well_formed m /\
  exists r1 r2 r3 r4,
    Simulator.execute_instruction m push_a 2 = Next (fst r1) (snd r1) /\
    Simulator.execute_instruction (fst r1) push_b (snd r1) = Next (fst r2) (snd r2) /\
    Simulator.execute_instruction (fst r2) pop_x (snd r2) = Next (fst r3) (snd r3) /\
    Simulator.execute_instruction (fst r3) pop_y (snd r3) = Next (fst r4) (snd r4) /\
    Simulator.get_register_value (fst r4) 3 = 11 /\
    Simulator.get_register_value (fst r4) 2 = 22.
Proof.
  intros m push_a push_b pop_x pop_y.
  assert (Hwf : Claims.well_formed m) by reflexivity.
  split; [exact Hwf |].
  assert (Hsp : 2 <= Simulator.ESP (Simulator.registers m) <= Simulator.MEMORY_SIZE)
    by (vm_compute; split; discriminate).
  destruct (last_in_first_out m push_a push_b pop_x pop_y 2 Hwf
              eq_refl eq_refl eq_refl eq_refl
              ltac:(vm_compute; discriminate) ltac:(vm_compute; discriminate)
              ltac:(vm_compute; discriminate) ltac:(vm_compute; discriminate) Hsp)
    as (r1 & r2 & r3 & r4 & H1 & H2 & H3 & H4 & Hy & Hx & _).
  exists r1, r2, r3, r4.
  refine (conj H1 (conj H2 (conj H3 (conj H4 (conj Hy _))))).
  apply Hx. vm_compute. discriminate.
Defined.

(** ** The simple profile *)

Section SimpleRoundTrip.

Lemma simple_register_code_range (reg_name : string) :
  (Simple.get_register_code reg_name =? -1) = false ->
  0 <= Simple.get_register_code reg_name < 3.
Proof.
  unfold Simple.get_register_code.
  repeat match goal with
         | |- context [if ?b then _ else _] => destruct b
         end; simpl; intros H; try lia; discriminate.
Qed.

Ltac walk_chain :=
  repeat match goal with
         | |- context [if ?b then _ else _] => destruct b
         end.

Lemma simple_register_pair_opcode_range (m : string) :
  0 <= Simple.register_pair_opcode m < 32 /\
  simple_known_opcode (Simple.register_pair_opcode m) = true.
Proof. unfold Simple.register_pair_opcode. walk_chain; split; (lia || reflexivity). Qed.

Lemma simple_one_register_opcode_range (m : string) :
  0 <= Simple.one_register_opcode m < 32 /\
  simple_known_opcode (Simple.one_register_opcode m) = true.
Proof. unfold Simple.one_register_opcode. walk_chain; split; (lia || reflexivity). Qed.

Lemma simple_branch_opcode_range (m : string) :
  0 <= Simple.branch_opcode m < 32 /\
  simple_known_opcode (Simple.branch_opcode m) = true.
Proof. unfold Simple.branch_opcode. walk_chain; split; (lia || reflexivity). Qed.

Lemma simple_out_of_range_false (value max : Z) :
  Simple.out_of_range value max = false -> 0 <= value <= max.
Proof.
  unfold Simple.out_of_range. intros H.
  apply orb_false_elim in H as [H1 H2].
  apply Z.ltb_ge in H1. rewrite Z.gtb_ltb in H2. apply Z.ltb_ge in H2. lia.
Qed.

Ltac simple_cases H :=
  repeat match type of H with
         | Failure _ _ = Fields _ => discriminate H
         | NoTokens = Fields _ => discriminate H
         | context [if ?b then _ else _] => destruct b eqn:?
         end.

Ltac simple_ranges :=
  repeat match goal with
         | H : (Simple.get_register_code _ =? -1) = false |- _ =>
             apply simple_register_code_range in H
         | H : (_ || _) = false |- _ => apply orb_false_elim in H as [? ?]
         | H : Simple.out_of_range _ _ = false |- _ =>
             apply simple_out_of_range_false in H
         end.

Ltac finish_simple_fits :=
  unfold simple_fits; repeat split; first [lia | reflexivity | assumption].

Lemma simple_register_address_fits symbol_table pc opcode parts f :
  0 <= opcode < 32 -> simple_known_opcode opcode = true ->
  Simple.encode_register_address symbol_table pc opcode parts = Fields f ->
  simple_fits f.
Proof.
  unfold Simple.encode_register_address. intros Hop Hknown H.
  simple_cases H; apply Fields_inj in H; subst f; simple_ranges; finish_simple_fits.
Qed.

Lemma simple_encode_fields_fits symbol_table line pc f :
  Simple.encode_fields symbol_table line pc = Fields f -> simple_fits f.
Proof.
  unfold Simple.encode_fields. intros H.
  set (parts := split_parts (CLib.strncpy MAX_LINE_LENGTH line)) in *.
  set (m := CLib.strupr (part parts 0)) in *.
  pose proof (simple_register_pair_opcode_range m) as [? ?].
  pose proof (simple_one_register_opcode_range m) as [? ?].
  pose proof (simple_branch_opcode_range m) as [? ?].
  destruct (length parts =? 0)%nat; [discriminate H |].
  destruct (String.eqb m "HLT"); [apply Fields_inj in H; subst f; finish_simple_fits |].
  destruct (String.eqb m "DMP"); [apply Fields_inj in H; subst f; finish_simple_fits |].
  destruct (String.eqb m "CLRM"); [apply Fields_inj in H; subst f; finish_simple_fits |].
  destruct (String.eqb m "CLRR"); [apply Fields_inj in H; subst f; finish_simple_fits |].
  destruct (String.eqb m "ADD" || String.eqb m "SUB" || String.eqb m "MOV").
  { simple_cases H; apply Fields_inj in H; subst f; simple_ranges; finish_simple_fits. }
  destruct (String.eqb m "INP" || String.eqb m "OUT" || String.eqb m "INC" || String.eqb m "DEC").
  { simple_cases H; apply Fields_inj in H; subst f; simple_ranges; finish_simple_fits. }
  destruct (String.eqb m "SET").
  { simple_cases H; apply Fields_inj in H; subst f; simple_ranges; finish_simple_fits. }
  destruct (String.eqb m "LDA" || String.eqb m "STA").
  { destruct (negb (length parts =? 3)%nat); [discriminate H |].
    apply simple_register_address_fits in H; [exact H | |];
      destruct (String.eqb m "LDA"); (lia || reflexivity). }
  destruct (String.eqb m "JMP").
  { simple_cases H; apply Fields_inj in H; subst f; simple_ranges; finish_simple_fits. }
  destruct (String.eqb m "JZ" || String.eqb m "JNZ" || String.eqb m "JP" || String.eqb m "JN");
    [| discriminate H].
  destruct (negb (length parts =? 3)%nat); [discriminate H |].
  apply simple_register_address_fits in H; assumption.
Qed.

Lemma simple_decode_opcode_div w : Simple.decode_opcode w = w / 2048.
Proof. unfold Simple.decode_opcode. rewrite shiftr_div by lia. reflexivity. Qed.

Lemma simple_decode_reg1_div w : Simple.decode_reg1 w = (w / 512) mod 4.
Proof.
  unfold Simple.decode_reg1. rewrite shiftr_div by lia.
  change 0x03 with (2 ^ 2 - 1). rewrite land_mask by lia. reflexivity.
Qed.

Lemma simple_decode_reg2_div w : Simple.decode_reg2 w = (w / 128) mod 4.
Proof.
  unfold Simple.decode_reg2. rewrite shiftr_div by lia.
  change 0x03 with (2 ^ 2 - 1). rewrite land_mask by lia. reflexivity.
Qed.

Lemma simple_decode_value_mod w : Simple.decode_value w = w mod 512.
Proof.
  unfold Simple.decode_value.
  change 0x1FF with (2 ^ 9 - 1). rewrite land_mask by lia. reflexivity.
Qed.

Lemma simple_pack_sum (f : Simple.fields) :
  simple_fits f ->
  Simple.pack f =
  match f with
  | Simple.OpOnly opcode => opcode * 2048
  | Simple.OpReg opcode reg1_code => opcode * 2048 + reg1_code * 512
  | Simple.OpAddr opcode value => opcode * 2048 + value
  | Simple.OpRegImm opcode reg1_code value => opcode * 2048 + reg1_code * 512 + value
  | Simple.OpRegReg opcode reg1_code reg2_code =>
      opcode * 2048 + reg1_code * 512 + reg2_code * 128
  end.
Proof.
  destruct f; unfold simple_fits, Simple.pack, u16; intros H;
    repeat rewrite Z.shiftl_mul_pow2 by lia;
    change (2 ^ 11) with 2048; change (2 ^ 9) with 512; change (2 ^ 7) with 128.
  - apply Z.mod_small. lia.
  - rewrite (lor_low_bits _ _ 11) by (try apply Z.mod_mul; lia).
    apply Z.mod_small. lia.
  - rewrite (lor_low_bits _ _ 11) by (try apply Z.mod_mul; lia).
    apply Z.mod_small. lia.
  - rewrite (lor_low_bits (opcode * 2048) _ 11) by (try apply Z.mod_mul; lia).
    rewrite (lor_low_bits _ value 9).
    + apply Z.mod_small. lia.
    + lia.
    + lia.
    + replace (opcode * 2048 + reg1_code * 512)
        with ((opcode * 4 + reg1_code) * 2 ^ 9) by lia.
      apply Z.mod_mul. lia.
  - rewrite (lor_low_bits (opcode * 2048) _ 11) by (try apply Z.mod_mul; lia).
    rewrite (lor_low_bits _ (reg2_code * 128) 9).
    + apply Z.mod_small. lia.
    + lia.
    + lia.
    + replace (opcode * 2048 + reg1_code * 512)
        with ((opcode * 4 + reg1_code) * 2 ^ 9) by lia.
      apply Z.mod_mul. lia.
Qed.

Lemma simple_pack_decodes (f : Simple.fields) :
  simple_fits f -> simple_decodes_to (Simple.pack f) f.
Proof.
  intros Hfits. rewrite (simple_pack_sum f Hfits).
  destruct f; unfold simple_fits in Hfits; unfold simple_decodes_to;
    rewrite ?simple_decode_opcode_div, ?simple_decode_reg1_div,
            ?simple_decode_reg2_div, ?simple_decode_value_mod;
    repeat split; Z.div_mod_to_equations; lia.
Qed.

(** The two facts the round trip rests on, for use in later proofs. *)
Lemma simple_round_trip_fields symbol_table line pc f :
  Simple.encode_fields symbol_table line pc = Fields f ->
  simple_decodes_to (Simple.encode_instruction symbol_table line pc) f /\
  simple_fits f.
Proof.
  intros H.
  pose proof (simple_encode_fields_fits symbol_table line pc f H) as Hfits.
  unfold Simple.encode_instruction. rewrite H.
  split; [apply simple_pack_decodes; exact Hfits | exact Hfits].
Qed.

End SimpleRoundTrip.

(** X8: the round trip of the simple profile.  A line the simple encoder
    turns into fields gives a word from which the simple simulator reads the
    same opcode, register indices and nine-bit value back; the opcode is one
    the simulator executes and every register index names one of [A], [B],
    [C]. *)
Theorem simple_round_trip (symbol_table : list Label) (line : string) (pc : Z)
    (f : Simple.fields) :
  Simple.encode_fields symbol_table line pc = Fields f ->
  Simple.encode_instruction symbol_table line pc = Simple.pack f /\
  simple_decodes_to (Simple.encode_instruction symbol_table line pc) f /\
  simple_fits f /\
  Simple.encode_instruction symbol_table line pc <> ENCODE_ERROR.
Proof.
  intros H.
  pose proof (simple_encode_fields_fits symbol_table line pc f H) as Hfits.
  unfold Simple.encode_instruction. rewrite H.
  refine (conj eq_refl (conj (simple_pack_decodes f Hfits) (conj Hfits _))).
  rewrite (simple_pack_sum f Hfits). unfold ENCODE_ERROR.
  destruct f; unfold simple_fits in Hfits;
    repeat match goal with
           | H : _ /\ _ |- _ => destruct H
           end;
    match goal with
    | Hk : simple_known_opcode ?op = true |- _ =>
        assert (op <= 28)
          by (unfold simple_known_opcode in Hk; simpl in Hk;
              repeat match type of Hk with
                     | (?a =? ?b) || _ = true =>
                         destruct (Z.eqb_spec a b); [lia | simpl in Hk]
                     end; try discriminate Hk)
    end; lia.
Qed.

Lemma simple_round_trip_witness :
  Simple.encode_fields [mkLabel "loop" 1] "JNZ C, loop" 3 =
    Fields (Simple.OpRegImm 26 2 1) /\
  simple_decodes_to (Simple.encode_instruction [mkLabel "loop" 1] "JNZ C, loop" 3)
    (Simple.OpRegImm 26 2 1).
Proof.
  split; [reflexivity |].
  destruct (simple_round_trip [mkLabel "loop" 1] "JNZ C, loop" 3
              (Simple.OpRegImm 26 2 1) eq_refl) as (_ & Hdec & _).
  exact Hdec.
Defined.

Section SimpleEngine.

Import SimpleSimulator.

Lemma simple_set_console (m : Machine) (r v : Z) :
  console (set_register_value m r v) = console m.
Proof.
  unfold set_register_value.
  repeat match goal with
         | |- context [if ?b then _ else _] => destruct b
         end; reflexivity.
Qed.

Lemma simple_set_memory (m : Machine) (r v : Z) :
  memory (set_register_value m r v) = memory m.
Proof.
  unfold set_register_value.
  repeat match goal with
         | |- context [if ?b then _ else _] => destruct b
         end; reflexivity.
Qed.

Lemma simple_get_set_same (m : Machine) (r v : Z) :
  0 <= r < 3 -> get_register_value (set_register_value m r v) r = v.
Proof.
  intros Hr. assert (Hc : r = 0 \/ r = 1 \/ r = 2) by lia.
  destruct Hc as [-> | [-> | ->]]; reflexivity.
Qed.

Lemma simple_get_set_other (m : Machine) (r r' v : Z) :
  0 <= r < 3 -> 0 <= r' < 3 -> r <> r' ->
  get_register_value (set_register_value m r v) r' = get_register_value m r'.
Proof.
  intros Hr Hr' Hne.
  assert (Hc : r = 0 \/ r = 1 \/ r = 2) by lia.
  assert (Hc' : r' = 0 \/ r' = 1 \/ r' = 2) by lia.
  destruct Hc as [-> | [-> | ->]]; destruct Hc' as [-> | [-> | ->]];
    try reflexivity; contradiction.
Qed.

Lemma simple_opcode_range (w : Z) :
  0 <= w < 65536 -> 0 <= Simple.decode_opcode w < 32.
Proof.
  intros H. rewrite simple_decode_opcode_div. split.
  - apply Z.div_pos; lia.
  - apply Z.div_lt_upper_bound; lia.
Qed.

End SimpleEngine.

Ltac open_simple_step :=
  unfold SimpleSimulator.write_memory, SimpleSimulator.read_memory,
    SimpleSimulator.input, SimpleSimulator.dump_contents;
  repeat match goal with
         | |- context [CLib.scanf_int ?s] => destruct (CLib.scanf_int s)
         | |- context [if ?b then _ else _] => destruct b
         | |- context [match ?o with Some _ => _ | None => _ end] => destruct o
         end;
  cbv beta iota zeta;
  repeat (progress cbn [fst snd SimpleSimulator.console SimpleSimulator.print
                        SimpleSimulator.with_memory SimpleSimulator.with_registers
                        SimpleSimulator.with_stdin]
          || rewrite simple_set_console).

(** X9: the simple simulator executes 19 of the 32 opcodes.  A word with
    one of them never makes it report an unknown opcode, whether the
    instruction returns or not, and it has no result only if it is an
    [INP]; a word with any other opcode is reported as unknown and ends the
    run, with registers and memory as they were. *)
Theorem simple_unknown_opcodes (m : SimpleSimulator.Machine) (instruction pc : Z) :
  0 <= instruction < 65536 ->
  if simple_known_opcode (Simple.decode_opcode instruction) then
    match SimpleSimulator.execute_instruction m instruction pc with
    | Next m' _ =>
        exists new,
          SimpleSimulator.console m' = SimpleSimulator.console m ++ new /\
          forallb (fun e => negb (simple_is_unknown_opcode e)) new = true
    | Blocked m' =>
        exists new,
          SimpleSimulator.console m' = SimpleSimulator.console m ++ new /\
          forallb (fun e => negb (simple_is_unknown_opcode e)) new = true
    | Undefined => Simple.decode_opcode instruction = 4
    end
  else
    SimpleSimulator.execute_instruction m instruction pc =
    Next (SimpleSimulator.print m
            (SimpleSimulator.UnknownOpcode (Simple.decode_opcode instruction) pc))
         (-1).
Proof.
  intros Hword.
  pose proof (opcode_cases _ (simple_opcode_range instruction Hword)) as Hop.
  unfold SimpleSimulator.execute_instruction.
  simpl In in Hop.
  repeat (destruct Hop as [Hop | Hop];
          [rewrite <- Hop;
           cbv beta iota zeta;
           cbn [simple_known_opcode existsb Z.eqb Pos.eqb orb];
           try reflexivity;
           open_simple_step;
           first [reflexivity
                 | exists []; rewrite app_nil_r; split; reflexivity
                 | eexists [_]; split; reflexivity
                 | eexists [_; _]; split; [rewrite <- app_assoc; reflexivity | reflexivity]] |]).
  destruct Hop.
Qed.

Lemma simple_unknown_opcodes_witness :
  0 <= Extended.encode_instruction [] "PUSH EAX" 0 < 65536 /\
  SimpleSimulator.execute_instruction (SimpleSimulator.initial Claims.no_input)
    (Extended.encode_instruction [] "PUSH EAX" 0) 0 =
  Next (SimpleSimulator.print (SimpleSimulator.initial Claims.no_input)
          (SimpleSimulator.UnknownOpcode 11 0)) (-1).
Proof.
  assert (Hword : 0 <= Extended.encode_instruction [] "PUSH EAX" 0 < 65536)
    by (vm_compute; split; [discriminate | reflexivity]).
  split; [exact Hword |].
  exact (simple_unknown_opcodes (SimpleSimulator.initial Claims.no_input)
           (Extended.encode_instruction [] "PUSH EAX" 0) 0 Hword).
Defined.

(** X10: the simple assembler takes addresses up to 511, the simple
    memory has 64 words.  For a [STA] and an [LDA] the assembler accepted
    with the same address: below 64 the load reads back what the store wrote
    and nothing is reported; from 64 on the store is dropped, the load gives
    0, and both are reported as invalid. *)
Theorem simple_store_then_load (symbol_table : list Label)
    (sta lda : string) (pc0 pc1 r r' a : Z)
    (m : SimpleSimulator.Machine) (pc : Z) :
  Simple.encode_fields symbol_table sta pc0 = Fields (Simple.OpRegImm 8 r a) ->
  Simple.encode_fields symbol_table lda pc1 = Fields (Simple.OpRegImm 7 r' a) ->
  length (SimpleSimulator.memory m) = Z.to_nat SimpleSimulator.MEMORY_SIZE ->
  let store := Simple.encode_instruction symbol_table sta pc0 in
  let load := Simple.encode_instruction symbol_table lda pc1 in
  let value := SimpleSimulator.get_register_value m r in
  exists r1 r2,
  SimpleSimulator.execute_instruction m store pc = Next (fst r1) (snd r1) /\
  SimpleSimulator.execute_instruction (fst r1) load (snd r1) = Next (fst r2) (snd r2) /\
  0 <= a < 512 /\
  if a <? 64 then
    SimpleSimulator.memory (fst r1) =
      <[Z.to_nat a := value]> (SimpleSimulator.memory m) /\
    SimpleSimulator.get_register_value (fst r2) r' = value /\
    SimpleSimulator.console (fst r2) = SimpleSimulator.console m
  else
    SimpleSimulator.memory (fst r2) = SimpleSimulator.memory m /\
    SimpleSimulator.get_register_value (fst r2) r' = 0 /\
    SimpleSimulator.console (fst r2) =
      SimpleSimulator.console m ++
      [SimpleSimulator.InvalidWrite a; SimpleSimulator.InvalidRead a].
Proof.
  intros Hsta Hlda Hlen store load value.
  destruct (simple_round_trip_fields symbol_table sta pc0 _ Hsta) as (Hs & Hsf).
  destruct (simple_round_trip_fields symbol_table lda pc1 _ Hlda) as (Hl & Hlf).
  fold store in Hs. fold load in Hl.
  cbn [simple_decodes_to] in Hs, Hl. cbn [simple_fits] in Hsf, Hlf.
  destruct Hs as (Hs_op & Hs_r & Hs_a). destruct Hl as (Hl_op & Hl_r & Hl_a).
  destruct Hsf as (_ & _ & Hr & Ha). destruct Hlf as (_ & _ & Hr' & _).
  pose (r1 := (SimpleSimulator.write_memory m a value, wrap32 (pc + 1))).
  assert (Hexec1 : SimpleSimulator.execute_instruction m store pc =
                   Next (fst r1) (snd r1)).
  { unfold r1. cbn [fst snd]. unfold SimpleSimulator.execute_instruction.
    rewrite Hs_op, Hs_r, Hs_a. reflexivity. }
  assert (Hr1 : r1 = (SimpleSimulator.write_memory m a value, wrap32 (pc + 1)))
    by reflexivity.
  clearbody r1.
  pose (r2 :=
    (SimpleSimulator.set_register_value (snd (SimpleSimulator.read_memory (fst r1) a)) r'
       (fst (SimpleSimulator.read_memory (fst r1) a)), wrap32 (snd r1 + 1))).
  assert (Hexec2 : SimpleSimulator.execute_instruction (fst r1) load (snd r1) =
                   Next (fst r2) (snd r2)).
  { unfold r2. cbn [fst snd]. unfold SimpleSimulator.execute_instruction.
    rewrite Hl_op, Hl_r, Hl_a. cbv beta iota zeta.
    destruct (SimpleSimulator.read_memory (fst r1) a). reflexivity. }
  assert (Hr2 : r2 =
    (SimpleSimulator.set_register_value (snd (SimpleSimulator.read_memory (fst r1) a)) r'
       (fst (SimpleSimulator.read_memory (fst r1) a)), wrap32 (snd r1 + 1)))
    by reflexivity.
  clearbody r2.
  exists r1, r2.
  refine (conj Hexec1 (conj Hexec2 (conj Ha _))).
  assert (Hvalid : SimpleSimulator.valid_address a = (a <? 64)).
  { unfold SimpleSimulator.valid_address, SimpleSimulator.MEMORY_SIZE.
    replace (0 <=? a) with true by (symmetry; apply Z.leb_le; lia). reflexivity. }
  destruct (a <? 64) eqn:Hlow.
  - apply Z.ltb_lt in Hlow.
    assert (Hm1 : fst r1 = SimpleSimulator.with_memory m
                    (<[Z.to_nat a := value]> (SimpleSimulator.memory m))).
    { rewrite Hr1. cbn [fst]. unfold SimpleSimulator.write_memory. rewrite Hvalid. reflexivity. }
    assert (Hread : SimpleSimulator.read_memory (fst r1) a = (value, fst r1)).
    { unfold SimpleSimulator.read_memory. rewrite Hvalid, Hm1.
      cbn [SimpleSimulator.with_memory SimpleSimulator.memory].
      rewrite list_lookup_insert_eq
        by (rewrite Hlen; unfold SimpleSimulator.MEMORY_SIZE; lia).
      reflexivity. }
    rewrite Hread in Hr2. cbn [fst snd] in Hr2.
    refine (conj _ (conj _ _)).
    + rewrite Hm1. reflexivity.
    + rewrite Hr2. cbn [fst]. apply simple_get_set_same. exact Hr'.
    + rewrite Hr2. cbn [fst]. rewrite simple_set_console, Hm1. reflexivity.
  - assert (Hm1 : fst r1 = SimpleSimulator.print m (SimpleSimulator.InvalidWrite a)).
    { rewrite Hr1. cbn [fst]. unfold SimpleSimulator.write_memory. rewrite Hvalid. reflexivity. }
    assert (Hread : SimpleSimulator.read_memory (fst r1) a =
                    (0, SimpleSimulator.print (fst r1) (SimpleSimulator.InvalidRead a))).
    { unfold SimpleSimulator.read_memory. rewrite Hvalid. reflexivity. }
    rewrite Hread in Hr2. cbn [fst snd] in Hr2.
    refine (conj _ (conj _ _)).
    + rewrite Hr2. cbn [fst]. rewrite simple_set_memory, Hm1. reflexivity.
    + rewrite Hr2. cbn [fst]. apply simple_get_set_same. exact Hr'.
    + rewrite Hr2. cbn [fst]. rewrite simple_set_console, Hm1.
      cbn [SimpleSimulator.print SimpleSimulator.console].
      rewrite <- app_assoc. reflexivity.
Qed.

Lemma simple_store_then_load_witness :
  let m := SimpleSimulator.initial Claims.no_input in
  Simple.encode_fields [] "STA A, 64" 0 = Fields (Simple.OpRegImm 8 0 64) /\
  exists r1 r2,
    SimpleSimulator.execute_instruction m
      (Simple.encode_instruction [] "STA A, 64" 0) 0 = Next (fst r1) (snd r1) /\
    SimpleSimulator.execute_instruction (fst r1)
      (Simple.encode_instruction [] "LDA B, 64" 1) (snd r1) = Next (fst r2) (snd r2) /\
    SimpleSimulator.console (fst r2) =
    SimpleSimulator.console m ++
      [SimpleSimulator.InvalidWrite 64; SimpleSimulator.InvalidRead 64].
Proof.
  intros m. split; [reflexivity |].
  destruct (simple_store_then_load [] "STA A, 64" "LDA B, 64" 0 1 0 1 64 m 0
              eq_refl eq_refl eq_refl) as (r1 & r2 & Hexec1 & Hexec2 & _ & H).
  change (64 <? 64) with false in H. cbv iota in H.
  destruct H as (_ & _ & Hconsole).
  exists r1, r2.
  split; [exact Hexec1 | split; [exact Hexec2 | exact Hconsole]].
Defined.

Section SimpleAssembly.

Lemma simple_program_memory (lines : list string) :
  forall table i,
    program_memory (Simple.build_symbol_table_from lines table i) =
    map strip_label lines.
Proof.
  induction lines as [| line lines IH]; intros table i; simpl; [reflexivity |].
  unfold strip_label at 1.
  destruct (CLib.strchr ":"%char line) as [colon |].
  - destruct (length table <? MAX_LABELS)%nat; simpl; rewrite IH; reflexivity.
  - simpl. rewrite IH. reflexivity.
Qed.

(** A second pass of the simple profile that does not fail stores one
    word for every line, the word of that line. *)
Lemma simple_assemble_words (symbol_table : list Label) (lines : list string) :
  forall (i : Z) (code result : list Z) (count : Z),
    Simple.assemble_from symbol_table lines i code = (result, count) ->
    0 <= count ->
    exists words,
      result = code ++ words /\
      length words = length lines /\
      count = Z.of_nat (length result) /\
      forall (k : nat) (line : string),
        lines !! k = Some line ->
        words !! k = Some (Simple.encode_instruction symbol_table line (i + Z.of_nat k)) /\
        Simple.encode_instruction symbol_table line (i + Z.of_nat k) <> ENCODE_ERROR.
Proof.
  induction lines as [| line lines IH]; intros i code result count H Hcount;
    cbn [Simple.assemble_from] in H.
  - injection H as <- <-. exists []. rewrite app_nil_r.
    refine (conj eq_refl (conj eq_refl (conj eq_refl _))).
    intros k line Hk. discriminate Hk.
  - destruct (Simple.encode_instruction symbol_table line i =? ENCODE_ERROR) eqn:Hword.
    + injection H as <- <-. lia.
    + apply IH in H as (words & -> & Hlen & -> & Hall); [| assumption].
      exists (Simple.encode_instruction symbol_table line i :: words).
      rewrite <- app_assoc.
      refine (conj eq_refl (conj _ (conj eq_refl _))).
      * cbn [length]. rewrite Hlen. reflexivity.
      * intros k l Hk. destruct k as [| j]; cbn in Hk.
        -- injection Hk as <-. rewrite Z.add_0_r. split; [reflexivity |].
           apply Z.eqb_neq. exact Hword.
        -- destruct (Hall j l Hk) as [Hw Hne].
           replace (i + Z.of_nat (S j)) with (i + 1 + Z.of_nat j) by lia.
           split; assumption.
Qed.

(** What [main] of the simple profile writes, word by word. *)
Lemma simple_main_words (lines : list string) (binary : list Z) :
  Simple.main lines = Exit0 binary ->
  length binary = length lines /\
  forall (k : nat) (line : string),
    lines !! k = Some line ->
    binary !! k =
      Some (Simple.encode_instruction
              (symbol_table (Simple.build_symbol_table lines))
              (strip_label line) (Z.of_nat k)) /\
    Simple.encode_instruction
      (symbol_table (Simple.build_symbol_table lines))
      (strip_label line) (Z.of_nat k) <> ENCODE_ERROR.
Proof.
  unfold Simple.main, Simple.assemble. intros H.
  destruct (Simple.assemble_from _ _ 0 []) as [code count] eqn:Hasm.
  destruct (count <? 0) eqn:Hneg; [discriminate H |].
  apply Z.ltb_ge in Hneg. injection H as <-.
  apply simple_assemble_words in Hasm as (words & -> & Hlen & -> & Hall); [| assumption].
  cbn [app]. rewrite Nat2Z.id, firstn_all.
  unfold Simple.build_symbol_table in *. rewrite simple_program_memory in *.
  rewrite length_map in Hlen. split; [exact Hlen |].
  intros k line Hk.
  apply (Hall k (strip_label line)).
  rewrite list_lookup_fmap, Hk. reflexivity.
Qed.

End SimpleAssembly.

(** X11: in the simple profile a line that holds only a label is assembled
    like any other line: its word is 0, at the address the label resolves to
    (the index of the line), and the simple simulator executes the word 0 as
    [HLT].  A program that reaches such a label stops there. *)
Theorem simple_label_line_halts (pre post : list string) (line : string)
    (binary : list Z) :
  CLib.is_empty (strip_label line) = true ->
  Simple.main (pre ++ line :: post) = Exit0 binary ->
  binary !! length pre = Some 0 /\
  forall (m : SimpleSimulator.Machine) (pc : Z),
    SimpleSimulator.execute_instruction m 0 pc =
    Next (SimpleSimulator.print m (SimpleSimulator.HaltAt pc)) (-1).
Proof.
  intros Hempty Hmain.
  split; [| intros m pc; reflexivity].
  destruct (simple_main_words _ _ Hmain) as [_ Hall].
  destruct (Hall (length pre) line) as [Hword _].
  - rewrite lookup_app_r by lia. rewrite Nat.sub_diag. reflexivity.
  - rewrite Hword. destruct (strip_label line); [reflexivity | discriminate Hempty].
Qed.

Lemma simple_label_line_halts_witness :
  CLib.is_empty (strip_label "loop:") = true /\
  Simple.main (["SET C, #3"] ++ "loop:" :: ["DEC C"; "JNZ C, loop"]) =
    Exit0 [13315; 0; 21504; 54273] /\
  [13315; 0; 21504; 54273] !! length ["SET C, #3"] = Some 0.
Proof.
  split; [reflexivity |]. split; [reflexivity |].
  destruct (simple_label_line_halts ["SET C, #3"] ["DEC C"; "JNZ C, loop"] "loop:"
              [13315; 0; 21504; 54273] eq_refl eq_refl) as [Hword _].
  exact Hword.
Defined.

Section Countdown.

Import SimpleSimulator.

Lemma simple_run_from_add (machine_code : list Z) (a b : nat) :
  forall (m : Machine) (pc : Z),
    run_from (a + b) machine_code m pc =
    match run_from a machine_code m pc with
    | Next m1 pc1 => run_from b machine_code m1 pc1
    | Blocked m1 => Blocked m1
    | Undefined => Undefined
    end.
Proof.
  induction a as [| a IH]; intros m pc; [reflexivity |].
  cbn [Nat.add run_from].
  destruct ((0 <=? pc) && (pc <? Z.of_nat (length machine_code))) eqn:Hin.
  - destruct (execute_instruction m _ pc) as [m1 next_pc | m1 |];
      [apply IH | reflexivity | reflexivity].
  - destruct b; [reflexivity |].
    cbn [run_from]. rewrite Hin. reflexivity.
Qed.

Variable w0 : Z.

Let code : list Z := [w0; 11264; 21504; 54273; 11264].

(** One turn of the loop: [OUT C], [DEC C], [JNZ C, loop]. *)
Lemma countdown_turn (m : Machine) :
  run_from 3 code m 1 =
  Next (set_register_value (print m (Output 2 (get_register_value m 2))) 2
          (wrap32 (get_register_value m 2 - 1)))
       (if negb (wrap32 (get_register_value m 2 - 1) =? 0) then 1 else 4).
Proof. reflexivity. Qed.

Lemma countdown_turns (k : nat) :
  forall m : Machine,
    get_register_value m 2 = Z.of_nat (S k) ->
    Z.of_nat (S k) <= INT_MAX ->
    exists r,
      run_from (S k * 3) code m 1 = Next (fst r) (snd r) /\
      snd r = 4 /\
      get_register_value (fst r) 2 = 0 /\
      console (fst r) = console m ++ map (Output 2) (count_from (S k)).
Proof.
  induction k as [| k IH]; intros m Hc Hmax.
  - change (1 * 3)%nat with 3%nat. rewrite countdown_turn, Hc.
    eexists (_, _). cbn [fst snd].
    refine (conj eq_refl (conj eq_refl (conj _ _))).
    + apply simple_get_set_same. lia.
    + rewrite simple_set_console. reflexivity.
  - change (S (S k) * 3)%nat with (3 + S k * 3)%nat.
    rewrite simple_run_from_add, countdown_turn, Hc.
    assert (Hdec : wrap32 (Z.of_nat (S (S k)) - 1) = Z.of_nat (S k))
      by (rewrite wrap32_small; unfold INT_MIN, INT_MAX in *; lia).
    rewrite Hdec.
    replace (negb (Z.of_nat (S k) =? 0)) with true
      by (symmetry; apply negb_true_iff, Z.eqb_neq; lia).
    cbv iota.
    set (m2 := set_register_value (print m (Output 2 (Z.of_nat (S (S k))))) 2
                 (Z.of_nat (S k))).
    assert (Hc2 : get_register_value m2 2 = Z.of_nat (S k))
      by (apply simple_get_set_same; lia).
    destruct (IH m2 Hc2 ltac:(lia)) as (r & Hrun & Hpc & Hzero & Hconsole).
    exists r.
    refine (conj Hrun (conj Hpc (conj Hzero _))).
    rewrite Hconsole. unfold m2. rewrite simple_set_console.
    cbn [print console]. rewrite <- app_assoc. reflexivity.
Qed.

End Countdown.

Section CountdownProgram.

Lemma countdown_pass1 (first : string) :
  CLib.strchr ":"%char first = None ->
  Simple.build_symbol_table (countdown_program first) =
  mkPass1 [mkLabel "loop" 1] [first; "OUT C"; "DEC C"; "JNZ C, loop"; "OUT C"] ["loop"].
Proof.
  intros H. unfold Simple.build_symbol_table, countdown_program.
  cbn [Simple.build_symbol_table_from]. rewrite H. reflexivity.
Qed.

Lemma countdown_binary (first : string) (n : Z) :
  CLib.strchr ":"%char first = None ->
  Simple.encode_fields [mkLabel "loop" 1] first 0 = Fields (Simple.OpRegImm 6 2 n) ->
  0 <= n < 512 /\
  Simple.main (countdown_program first) =
  Exit0 [6 * 2048 + 2 * 512 + n; 11264; 21504; 54273; 11264].
Proof.
  intros Hcolon Hfields.
  destruct (simple_round_trip_fields _ _ _ _ Hfields) as [_ Hfits].
  pose proof (simple_pack_sum _ Hfits) as Hsum.
  cbn [simple_fits] in Hfits. destruct Hfits as (_ & _ & _ & Hn).
  split; [exact Hn |].
  unfold Simple.main. rewrite countdown_pass1 by assumption.
  assert (Hword : Simple.encode_instruction [mkLabel "loop" 1] first 0 =
                  6 * 2048 + 2 * 512 + n)
    by (unfold Simple.encode_instruction; rewrite Hfields; exact Hsum).
  unfold Simple.assemble. cbn [symbol_table program_memory Simple.assemble_from].
  rewrite Hword.
  replace (6 * 2048 + 2 * 512 + n =? ENCODE_ERROR) with false
    by (symmetry; apply Z.eqb_neq; unfold ENCODE_ERROR; lia).
  reflexivity.
Qed.

End CountdownProgram.

(** X12: the counting loop, assembled and run on the simple profile.  For
    a first line that the assembler reads as [SET C, #n] with [n] at least 1,
    the program [loop: OUT C / DEC C / JNZ C, loop / OUT C] assembles, runs
    for [3 n + 2] instructions, prints [n], [n - 1], ..., [1], [0] and
    nothing else, and ends by running past its last word, which is reported
    as the normal end. *)
Theorem countdown_prints (first : string) (n : Z) (typed : string) :
  CLib.strchr ":"%char first = None ->
  Simple.encode_fields [mkLabel "loop" 1] first 0 = Fields (Simple.OpRegImm 6 2 n) ->
  1 <= n ->
  exists binary,
    Simple.main (countdown_program first) = Exit0 binary /\
    let fuel := (1 + Z.to_nat n * 3 + 1)%nat in
    exists left_at finished,
      SimpleSimulator.run_from fuel binary (SimpleSimulator.initial typed) 0 =
        Next left_at 5 /\
      SimpleSimulator.run_program fuel binary typed = Next finished 5 /\
      SimpleSimulator.console finished =
        map (SimpleSimulator.Output 2) (count_from (Z.to_nat n) ++ [0]) ++
        [SimpleSimulator.ReachedEnd].
Proof.
  intros Hcolon Hfields Hn.
  destruct (countdown_binary first n Hcolon Hfields) as [Hrange Hmain].
  exists [6 * 2048 + 2 * 512 + n; 11264; 21504; 54273; 11264].
  split; [exact Hmain |].
  cbv zeta.
  set (w0 := 6 * 2048 + 2 * 512 + n).
  set (code := [w0; 11264; 21504; 54273; 11264]).
  set (m0 := SimpleSimulator.initial typed).
  assert (Hdec : simple_decodes_to w0 (Simple.OpRegImm 6 2 n)).
  { destruct (simple_round_trip_fields _ _ _ _ Hfields) as [Hd Hfits].
    unfold Simple.encode_instruction in Hd. rewrite Hfields in Hd.
    rewrite (simple_pack_sum _ Hfits) in Hd. exact Hd. }
  cbn [simple_decodes_to] in Hdec. destruct Hdec as (Hop & Hreg & Hval).
  (* the first instruction *)
  assert (Hfirst : SimpleSimulator.run_from 1 code m0 0 =
                   Next (SimpleSimulator.set_register_value m0 2 n) 1).
  { cbn [SimpleSimulator.run_from]. change ((0 <=? 0) && (0 <? Z.of_nat (length code))) with true.
    cbv iota. change (default 0 (code !! Z.to_nat 0)) with w0.
    unfold SimpleSimulator.execute_instruction. rewrite Hop, Hreg, Hval. reflexivity. }
  set (m1 := SimpleSimulator.set_register_value m0 2 n) in *.
  (* the loop *)
  destruct (Z.to_nat n) as [| k] eqn:Hk; [lia |].
  assert (Hc1 : SimpleSimulator.get_register_value m1 2 = Z.of_nat (S k))
    by (unfold m1; rewrite simple_get_set_same by lia; lia).
  destruct (countdown_turns w0 k m1 Hc1 ltac:(unfold INT_MAX; lia))
    as (r & Hloop & Hpc & Hzero & Hconsole).
  fold code in Hloop.
  (* the last instruction *)
  assert (Hlast : SimpleSimulator.run_from 1 code (fst r) (snd r) =
                  Next (SimpleSimulator.print (fst r) (SimpleSimulator.Output 2 0)) 5).
  { rewrite Hpc. cbn [SimpleSimulator.run_from].
    change ((0 <=? 4) && (4 <? Z.of_nat (length code))) with true. cbv iota.
    change (default 0 (code !! Z.to_nat 4)) with 11264.
    change (SimpleSimulator.execute_instruction (fst r) 11264 4)
      with (Next (SimpleSimulator.print (fst r)
                    (SimpleSimulator.Output 2 (SimpleSimulator.get_register_value (fst r) 2)))
                 5).
    rewrite Hzero. reflexivity. }
  assert (Hrun : SimpleSimulator.run_from (1 + S k * 3 + 1) code m0 0 =
                 Next (SimpleSimulator.print (fst r) (SimpleSimulator.Output 2 0)) 5).
  { rewrite <- Nat.add_assoc, simple_run_from_add, Hfirst.
    rewrite simple_run_from_add, Hloop. exact Hlast. }
  eexists _, _. split; [exact Hrun |].
  unfold SimpleSimulator.run_program. fold m0. rewrite Hrun.
  unfold SimpleSimulator.finish.
  change (5 >=? Z.of_nat (length code)) with true. cbv iota.
  split; [reflexivity |].
  cbn [SimpleSimulator.print SimpleSimulator.console].
  rewrite Hconsole. unfold m1. rewrite simple_set_console.
  change (SimpleSimulator.console m0) with (@nil SimpleSimulator.event).
  cbn [app]. rewrite map_app. reflexivity.
Qed.

Lemma countdown_prints_witness :
  CLib.strchr ":"%char "SET C, #3" = None /\
  Simple.encode_fields [mkLabel "loop" 1] "SET C, #3" 0 = Fields (Simple.OpRegImm 6 2 3) /\
  exists binary finished,
    Simple.main (countdown_program "SET C, #3") = Exit0 binary /\
    SimpleSimulator.run_program 11 binary Claims.no_input = Next finished 5 /\
    SimpleSimulator.console finished =
      [SimpleSimulator.Output 2 3; SimpleSimulator.Output 2 2;
       SimpleSimulator.Output 2 1; SimpleSimulator.Output 2 0;
       SimpleSimulator.ReachedEnd].
Proof.
  split; [reflexivity |]. split; [reflexivity |].
  destruct (countdown_prints "SET C, #3" 3 Claims.no_input eq_refl eq_refl ltac:(lia))
    as (binary & Hmain & left_at & finished & _ & Hrun & Hconsole).
  exists binary, finished.
  split; [exact Hmain | split; [exact Hrun | exact Hconsole]].
Defined.

(** ** The symbol table *)

Section SymbolTable.

Lemma extended_table_accounting (lines : list string) :
  forall (table : list Label) (a : Z),
    (length table <= MAX_LABELS)%nat ->
    let r := Extended.build_symbol_table_from lines table a in
    length (symbol_table r) = Nat.min (length table + label_lines lines) MAX_LABELS /\
    length (warnings r) = (length table + label_lines lines - MAX_LABELS)%nat.
Proof.
  unfold MAX_LABELS. cbv zeta.
  induction lines as [| line lines IH]; intros table a Hroom;
    cbn [Extended.build_symbol_table_from label_lines].
  - cbn [symbol_table warnings length]. lia.
  - destruct (CLib.strchr ":"%char line) as [colon |].
    + destruct (length table <? MAX_LABELS)%nat eqn:Hlt; unfold MAX_LABELS in Hlt;
        cbn [symbol_table warnings length].
      * apply Nat.ltb_lt in Hlt.
        match goal with
        | |- context [Extended.build_symbol_table_from lines ?t ?b] =>
            destruct (IH t b) as [Ht Hw]
        end.
        { rewrite length_app. cbn [length]. lia. }
        rewrite Ht, Hw, length_app. cbn [length]. lia.
      * apply Nat.ltb_ge in Hlt.
        match goal with
        | |- context [Extended.build_symbol_table_from lines ?t ?b] =>
            destruct (IH t b Hroom) as [Ht Hw]
        end.
        rewrite Ht, Hw. lia.
    + cbn [symbol_table warnings].
      match goal with
      | |- context [Extended.build_symbol_table_from lines ?t ?b] =>
          destruct (IH t b Hroom) as [Ht Hw]
      end.
      rewrite Ht, Hw. lia.
Qed.

Lemma lookup_found (t1 t2 : list Label) (n : string) :
  In n (map name t1) ->
  get_address_for_label (t1 ++ t2) n = get_address_for_label t1 n.
Proof.
  induction t1 as [| l t1 IH]; intros Hin; [destruct Hin |].
  cbn [app get_address_for_label].
  destruct (String.eqb_spec (name l) n) as [Heq | Hne]; [reflexivity |].
  apply IH. destruct Hin as [Heq | Hin]; [contradiction | exact Hin].
Qed.

Lemma lookup_absent (t : list Label) (n : string) :
  ~ In n (map name t) -> get_address_for_label t n = -1.
Proof.
  induction t as [| l t IH]; intros Hout; [reflexivity |].
  cbn [get_address_for_label].
  destruct (String.eqb_spec (name l) n) as [Heq | Hne].
  - exfalso. apply Hout. left. exact Heq.
  - apply IH. intros Hin. apply Hout. right. exact Hin.
Qed.

Lemma substring_length_le (k : nat) (s : string) :
  (String.length (substring 0 k s) <= k)%nat.
Proof.
  revert s. induction k as [| k IH]; intros s; destruct s; cbn; try lia.
  specialize (IH s). lia.
Qed.

Lemma extended_names_short (lines : list string) :
  forall (table : list Label) (a : Z),
    Forall (fun l => (String.length (name l) <= 31)%nat) table ->
    Forall (fun l => (String.length (name l) <= 31)%nat)
           (symbol_table (Extended.build_symbol_table_from lines table a)).
Proof.
  induction lines as [| line lines IH]; intros table a Hall;
    cbn [Extended.build_symbol_table_from]; [exact Hall |].
  destruct (CLib.strchr ":"%char line) as [colon |].
  - destruct (length table <? MAX_LABELS)%nat; cbn [symbol_table]; apply IH;
      [| exact Hall].
    apply Forall_app. split; [exact Hall |].
    constructor; [| constructor].
    cbn [name]. unfold stored_name, CLib.strncpy. apply substring_length_le.
  - cbn [symbol_table]. apply IH. exact Hall.
Qed.

Lemma simple_names_short (lines : list string) :
  forall (table : list Label) (i : Z),
    Forall (fun l => (String.length (name l) <= 31)%nat) table ->
    Forall (fun l => (String.length (name l) <= 31)%nat)
           (symbol_table (Simple.build_symbol_table_from lines table i)).
Proof.
  induction lines as [| line lines IH]; intros table i Hall;
    cbn [Simple.build_symbol_table_from]; [exact Hall |].
  destruct (CLib.strchr ":"%char line) as [colon |].
  - destruct (length table <? MAX_LABELS)%nat; cbn [symbol_table]; apply IH;
      [| exact Hall].
    apply Forall_app. split; [exact Hall |].
    constructor; [| constructor].
    cbn [name]. unfold stored_name, CLib.strncpy. apply substring_length_le.
  - cbn [symbol_table]. apply IH. exact Hall.
Qed.

End SymbolTable.

(** X13: the symbol table of the extended profile never holds more than
    [MAX_LABELS] entries: it holds the first 64 labels of the program, and
    one warning is printed for each label beyond them. *)
Theorem table_capacity (lines : list string) :
  length (symbol_table (Extended.build_symbol_table lines)) =
    Nat.min (label_lines lines) MAX_LABELS /\
  length (warnings (Extended.build_symbol_table lines)) =
    (label_lines lines - MAX_LABELS)%nat.
Proof.
  unfold Extended.build_symbol_table.
  destruct (extended_table_accounting lines [] 0) as [Ht Hw].
  - cbn. unfold MAX_LABELS. lia.
  - cbn [length Nat.add] in Ht, Hw. split; assumption.
Qed.

(** X14: the first definition of a name wins.  Once a name is in the
    table, the lines that follow, whatever labels they define, do not change
    the address it resolves to; this holds in both profiles. *)
Theorem first_definition_wins (pre rest : list string) (n : string) :
  (In n (map name (symbol_table (Extended.build_symbol_table pre))) ->
   get_address_for_label (symbol_table (Extended.build_symbol_table (pre ++ rest))) n =
   get_address_for_label (symbol_table (Extended.build_symbol_table pre)) n) /\
  (In n (map name (symbol_table (Simple.build_symbol_table pre))) ->
   get_address_for_label (symbol_table (Simple.build_symbol_table (pre ++ rest))) n =
   get_address_for_label (symbol_table (Simple.build_symbol_table pre)) n).
Proof.
  split; intros Hin.
  - unfold Extended.build_symbol_table in *.
    rewrite extended_build_app. cbn [symbol_table].
    match goal with
    | |- context [Extended.build_symbol_table_from rest ?t ?a] =>
        destruct (extended_table_extends rest t a) as [more ->]
    end.
    apply lookup_found. exact Hin.
  - unfold Simple.build_symbol_table in *.
    rewrite simple_build_app. cbn [symbol_table].
    match goal with
    | |- context [Simple.build_symbol_table_from rest ?t ?a] =>
        destruct (simple_table_extends rest t a) as [more ->]
    end.
    apply lookup_found. exact Hin.
Qed.

Lemma first_definition_wins_witness :
  In "x" (map name (symbol_table (Extended.build_symbol_table ["x: INC EAX"]))) /\
  get_address_for_label
    (symbol_table (Extended.build_symbol_table (["x: INC EAX"] ++ ["x: DEC EAX"]))) "x" = 0.
Proof.
  assert (Hin : In "x" (map name (symbol_table (Extended.build_symbol_table ["x: INC EAX"]))))
    by (left; reflexivity).
  split; [exact Hin |].
  destruct (first_definition_wins ["x: INC EAX"] ["x: DEC EAX"] "x") as [Hext _].
  exact (Hext Hin).
Defined.

(** X15: a label name keeps its first 31 characters only, and a reference
    is compared in full: a name of more than 31 characters is never found,
    in either profile, whatever the program defines. *)
Theorem long_name_is_never_found (lines : list string) (n : string) :
  (31 < String.length n)%nat ->
  get_address_for_label (symbol_table (Extended.build_symbol_table lines)) n = -1 /\
  get_address_for_label (symbol_table (Simple.build_symbol_table lines)) n = -1.
Proof.
  intros Hlong.
  assert (Hout : forall t : list Label,
             Forall (fun l => (String.length (name l) <= 31)%nat) t ->
             ~ In n (map name t)).
  { intros t Hall Hin. apply in_map_iff in Hin as (l & Hname & Hl).
    rewrite Forall_forall in Hall. specialize (Hall l).
    assert (Hle : (String.length (name l) <= 31)%nat).
    { apply Hall. apply list_elem_of_In. exact Hl. }
    rewrite Hname in Hle. lia. }
  split; apply lookup_absent, Hout.
  - apply extended_names_short. constructor.
  - apply simple_names_short. constructor.
Qed.

Lemma long_name_is_never_found_witness :
  (31 < String.length "a_label_name_of_thirty_two_chars")%nat /\
  get_address_for_label
    (symbol_table (Extended.build_symbol_table
       ["a_label_name_of_thirty_two_chars: INC EAX"]))
    "a_label_name_of_thirty_two_chars" = -1.
Proof.
  assert (Hlong : (31 < String.length "a_label_name_of_thirty_two_chars")%nat)
    by (vm_compute; lia).
  split; [exact Hlong |].
  destruct (long_name_is_never_found ["a_label_name_of_thirty_two_chars: INC EAX"]
              "a_label_name_of_thirty_two_chars" Hlong) as [Hext _].
  exact Hext.
Defined.

(** ** What the extended assembler writes *)

(** X16: assembly is all or nothing in both profiles.  When the encoder
    refuses a line of the program, whatever the error and wherever the line
    stands, [main] exits with status 1 and no binary is written, also when
    all the lines before it were encoded. *)
Theorem refused_line_aborts (pre post : list string) (line : string)
    (pc : Z) (e : encode_error) :
  (program_memory (Extended.build_symbol_table (pre ++ line :: post)) =
     map strip_label pre ++ strip_label line :: map strip_label post /\
   (CLib.is_empty (strip_label line) = false ->
    Extended.encode_fields
      (symbol_table (Extended.build_symbol_table (pre ++ line :: post)))
      (strip_label line) (Z.of_nat (length pre)) = Failure pc e ->
    Extended.main (pre ++ line :: post) = Exit1)) /\
  (Simple.encode_fields
     (symbol_table (Simple.build_symbol_table (pre ++ line :: post)))
     (strip_label line) (Z.of_nat (length pre)) = Failure pc e ->
   Simple.main (pre ++ line :: post) = Exit1).
Proof.
  assert (Hmem : program_memory (Extended.build_symbol_table (pre ++ line :: post)) =
                 map strip_label pre ++ strip_label line :: map strip_label post).
  { unfold Extended.build_symbol_table. rewrite extended_program_memory.
    rewrite map_app. reflexivity. }
  split; [split; [exact Hmem |] |].
  - intros Hline Hfail.
    apply (extended_failure_writes_nothing _ (map strip_label pre)
             (map strip_label post) (strip_label line) pc e);
      [exact Hmem | exact Hline |].
    rewrite length_map. exact Hfail.
  - intros Hfail.
    destruct (Simple.main (pre ++ line :: post)) as [| binary] eqn:Hmain;
      [reflexivity | exfalso].
    destruct (simple_main_words _ _ Hmain) as [_ Hall].
    destruct (Hall (length pre) line) as [_ Hok].
    + rewrite lookup_app_r by lia. rewrite Nat.sub_diag. reflexivity.
    + apply Hok. unfold Simple.encode_instruction. rewrite Hfail. reflexivity.
Qed.

Lemma refused_line_aborts_witness :
  Extended.main (["start: MOV EAX, #1"] ++ "FOO EAX" :: ["HLT"]) = Exit1 /\
  Simple.main (["start: SET A, #1"] ++ "FOO A" :: ["HLT"]) = Exit1.
Proof.
  split.
  - destruct (refused_line_aborts ["start: MOV EAX, #1"] ["HLT"] "FOO EAX" 1
                ErrUnknownMnemonic) as [[_ Hext] _].
    exact (Hext eq_refl eq_refl).
  - destruct (refused_line_aborts ["start: SET A, #1"] ["HLT"] "FOO A" 1
                ErrUnknownMnemonic) as [_ Hsimple].
    exact (Hsimple eq_refl).
Defined.

Section Binary.

Lemma extended_word_range (symbol_table : list Label) (line : string) (pc : Z) :
  0 <= Extended.encode_instruction symbol_table line pc < 65536.
Proof.
  unfold Extended.encode_instruction.
  destruct (Extended.encode_fields symbol_table line pc) as [| ? ? | f].
  - lia.
  - unfold ENCODE_ERROR. lia.
  - destruct f; unfold Extended.pack, u16; apply Z.mod_pos_bound; lia.
Qed.

Lemma extended_assemble_words (symbol_table : list Label) (lines : list string) :
  forall (i : Z) (code result : list Z) (count : Z),
    Extended.assemble_from symbol_table lines i code = (result, count) ->
    0 <= count ->
    result = code ++ map (fun l => Extended.encode_instruction symbol_table l 0)
                         (instruction_lines lines) /\
    Forall (fun l => Extended.encode_instruction symbol_table l 0 <> ENCODE_ERROR)
           (instruction_lines lines).
Proof.
  induction lines as [| line lines IH]; intros i code result count H Hcount;
    cbn [Extended.assemble_from instruction_lines] in *.
  - injection H as <- <-. rewrite app_nil_r. split; [reflexivity | constructor].
  - destruct (CLib.is_empty line).
    + apply (IH _ _ _ _ H Hcount).
    + destruct (Extended.encode_instruction symbol_table line i =? ENCODE_ERROR) eqn:Hword.
      * injection H as <- <-. lia.
      * destruct (IH _ _ _ _ H Hcount) as [-> Hall].
        rewrite (encode_instruction_pc symbol_table line i 0) in *.
        rewrite <- app_assoc. split; [reflexivity |].
        constructor; [apply Z.eqb_neq; exact Hword | exact Hall].
Qed.

Lemma instruction_lines_count (lines : list string) :
  Z.of_nat (length (instruction_lines lines)) = instruction_count lines.
Proof.
  induction lines as [| line lines IH]; cbn [instruction_lines instruction_count];
    [reflexivity |].
  destruct (CLib.is_empty line); cbn [length]; lia.
Qed.

End Binary.

(** X17: when the extended assembler succeeds, the binary it writes holds
    exactly the words of the lines that carry an instruction, in source
    order, one word each; every word is a 16-bit value other than the
    sentinel [0xFFFF]. *)
Theorem extended_binary (lines : list string) (binary : list Z) :
  Extended.main lines = Exit0 binary ->
  let table := symbol_table (Extended.build_symbol_table lines) in
  binary = map (fun l => Extended.encode_instruction table l 0)
               (instruction_lines (map strip_label lines)) /\
  Z.of_nat (length binary) = instruction_count (map strip_label lines) /\
  Forall (fun w => 0 <= w < 65535) binary.
Proof.
  intros H table. unfold Extended.main, Extended.assemble in H.
  destruct (Extended.assemble_from _ _ 0 []) as [code count] eqn:Hasm.
  destruct (count <? 0) eqn:Hneg; [discriminate H |].
  apply Z.ltb_ge in Hneg. injection H as <-.
  destruct (extended_assemble_emits _ _ _ _ _ _ Hasm Hneg) as (e & He & _ & Hcnt).
  destruct (extended_assemble_words _ _ _ _ _ _ Hasm Hneg) as [Hwords Hall].
  rewrite Hcnt, Nat2Z.id, firstn_all.
  unfold Extended.build_symbol_table in Hwords, Hall.
  rewrite extended_program_memory in Hwords, Hall.
  cbn [app] in Hwords. fold (Extended.build_symbol_table lines) in Hwords, Hall.
  fold table in Hwords, Hall.
  refine (conj Hwords (conj _ _)).
  - rewrite Hwords, length_map. apply instruction_lines_count.
  - rewrite Hwords. apply Forall_map.
    eapply Forall_impl; [exact Hall |].
    intros l Hne. cbn beta in *.
    pose proof (extended_word_range table l 0) as Hrange.
    unfold ENCODE_ERROR in Hne. lia.
Qed.

Lemma extended_binary_witness :
  Extended.main readme_program =
    Exit0 [12293; 22528; 26630; 24576; 10240; 0; 24064; 38624; 30914; 43009;
           61457; 20480; 22528; 26630; 24832; 31170; 2080; 38848; 26112; 28672] /\
  Z.of_nat (length
    [12293; 22528; 26630; 24576; 10240; 0; 24064; 38624; 30914; 43009;
     61457; 20480; 22528; 26630; 24832; 31170; 2080; 38848; 26112; 28672]) =
  instruction_count (map strip_label readme_program).
Proof.
  split; [reflexivity |].
  pose proof (extended_binary readme_program _ eq_refl) as H.
  cbv zeta in H. destruct H as (_ & Hlen & _).
  exact Hlen.
Defined.

(** ** References to labels *)

Section References.

Lemma append_empty_r (s : string) : (s ++ "")%string = s.
Proof. induction s as [| c s IH]; cbn; [reflexivity | rewrite IH; reflexivity]. Qed.

Lemma append_step (cur r : string) (c : ascii) :
  ((cur ++ String c "") ++ r)%string = (cur ++ String c r)%string.
Proof. induction cur as [| d cur IH]; cbn; [reflexivity | rewrite IH; reflexivity]. Qed.

(** A string without delimiters is one token. *)
Lemma strtok_token (n : string) :
  forall cur : string,
    no_delimiter n = true ->
    CLib.strtok_from cur n =
    if CLib.is_empty (cur ++ n)%string then [] else [(cur ++ n)%string].
Proof.
  induction n as [| c r IH]; intros cur Hn; cbn [CLib.strtok_from].
  - rewrite append_empty_r. reflexivity.
  - cbn [no_delimiter] in Hn. apply andb_prop in Hn as [Hc Hr].
    apply negb_true_iff in Hc. rewrite Hc.
    rewrite IH by exact Hr. rewrite append_step. reflexivity.
Qed.

Lemma substring_all (k : nat) :
  forall s : string, (String.length s <= k)%nat -> substring 0 k s = s.
Proof.
  induction k as [| k IH]; intros s Hs; destruct s as [| c s]; cbn in *;
    try reflexivity; try lia.
  rewrite IH by lia. reflexivity.
Qed.

Lemma stored_name_short (label : string) :
  (String.length (stored_name label) <= 31)%nat.
Proof. unfold stored_name, CLib.strncpy. apply substring_length_le. Qed.

Lemma length_append (a b : string) :
  String.length (a ++ b) = (String.length a + String.length b)%nat.
Proof. induction a as [| c a IH]; cbn; [reflexivity | rewrite IH; reflexivity]. Qed.

(** The tokens of a jump to a name. *)
Lemma jump_parts (n : string) :
  no_delimiter n = true -> CLib.is_empty n = false ->
  (String.length n <= 31)%nat ->
  split_parts (CLib.strncpy (MAX_LINE_LENGTH - 1) ("JMP " ++ n)) = ["JMP"; n].
Proof.
  intros Hn Hne Hlen. unfold CLib.strncpy.
  rewrite substring_all
    by (rewrite length_append; unfold MAX_LINE_LENGTH; cbn [String.length]; lia).
  unfold split_parts, CLib.strtok.
  change (CLib.strtok_from "" ("JMP " ++ n)) with ("JMP" :: CLib.strtok_from "" n).
  rewrite strtok_token by exact Hn.
  cbn [append]. rewrite Hne. reflexivity.
Qed.

(** How the encoder reads a line whose tokens are [JMP] and one operand. *)
Lemma jump_line (symbol_table : list Label) (line operand : string) (pc : Z) :
  split_parts (CLib.strncpy (MAX_LINE_LENGTH - 1) line) = ["JMP"; operand] ->
  Extended.encode_fields symbol_table line pc =
  (if resolve_address symbol_table operand =? -1
   then Failure pc ErrUndefinedLabel
   else if Extended.out_of_range (resolve_address symbol_table operand) 0xFF
        then Failure pc (ErrOutOfRange (resolve_address symbol_table operand))
        else Fields (Extended.OpAddr 24 (resolve_address symbol_table operand))).
Proof. intros H. unfold Extended.encode_fields. rewrite H. reflexivity. Qed.

Lemma alpha_not_empty (n : string) :
  CLib.isalpha (CLib.head n) = true -> CLib.is_empty n = false.
Proof. destruct n; [discriminate | reflexivity]. Qed.

End References.

(** X18: how a jump to a name is resolved.  For a name that is one token
    of at most 31 characters: if it starts with a letter it is looked up in
    the symbol table, and the jump is refused as an undefined label when it
    is absent, refused as out of range when its address is above 255, and
    encoded with its address otherwise; if it does not start with a letter
    the table is not consulted at all and the operand is read as a number,
    even when the program defines a label of that name. *)
Theorem jump_resolution (symbol_table : list Label) (n : string) (pc : Z) :
  no_delimiter n = true -> CLib.is_empty n = false ->
  (String.length n <= 31)%nat ->
  let a := get_address_for_label symbol_table n in
  Extended.encode_fields symbol_table ("JMP " ++ n) pc =
  if CLib.isalpha (CLib.head n) then
    if a =? -1 then Failure pc ErrUndefinedLabel
    else if Extended.out_of_range a 0xFF then Failure pc (ErrOutOfRange a)
    else Fields (Extended.OpAddr 24 a)
  else Extended.encode_fields [] ("JMP " ++ n) pc.
Proof.
  intros Hn Hne Hlen a.
  rewrite !(jump_line _ ("JMP " ++ n) n pc) by (apply jump_parts; assumption).
  unfold resolve_address. fold a.
  destruct (CLib.isalpha (CLib.head n)); reflexivity.
Qed.

Lemma jump_resolution_witness :
  no_delimiter "_loop" = true /\
  Extended.encode_fields [mkLabel "_loop" 7] ("JMP " ++ "_loop") 0 =
    Fields (Extended.OpAddr 24 0).
Proof.
  split; [reflexivity |].
  pose proof (jump_resolution [mkLabel "_loop" 7] "_loop" 0 eq_refl eq_refl
                ltac:(vm_compute; lia)) as H.
  cbv zeta in H.
  change (CLib.isalpha (CLib.head "_loop")) with false in H. cbv iota in H.
  rewrite H. reflexivity.
Defined.

(** X19: a jump to a label defined in the program goes to the instruction
    that follows the label.  For a label recorded under a new name that is
    one token starting with a letter, with at most 255 instructions before
    it: [JMP name], wherever it stands, is encoded with the number of
    instructions before the definition, and the simulator, executing that
    word, continues there and changes nothing else. *)
Theorem jump_reaches_label (pre post : list string) (line n : string)
    (pc : Z) (m : Simulator.Machine) (pc' : Z) :
  defines line n ->
  (length (symbol_table (Extended.build_symbol_table pre)) < MAX_LABELS)%nat ->
  unused (symbol_table (Extended.build_symbol_table pre)) n ->
  no_delimiter n = true ->
  CLib.isalpha (CLib.head n) = true ->
  instruction_count (map strip_label pre) <= 255 ->
  let table := symbol_table (Extended.build_symbol_table (pre ++ line :: post)) in
  let target := instruction_count (map strip_label pre) in
  Extended.encode_fields table ("JMP " ++ n) pc = Fields (Extended.OpAddr 24 target) /\
  Simulator.execute_instruction m (Extended.encode_instruction table ("JMP " ++ n) pc) pc' =
    Next m target.
Proof.
  intros Hdef Hroom Hnew Hn Halpha Hmax table target.
  assert (Hlen : (String.length n <= 31)%nat).
  { destruct Hdef as (colon & _ & ->). apply stored_name_short. }
  assert (Haddr : get_address_for_label table n = target)
    by (apply extended_label_address; assumption).
  pose proof (instruction_count_nonneg (map strip_label pre)) as Hpos.
  fold target in Hpos, Hmax.
  assert (Hfields : Extended.encode_fields table ("JMP " ++ n) pc =
                    Fields (Extended.OpAddr 24 target)).
  { rewrite (jump_line _ ("JMP " ++ n) n pc)
      by (apply jump_parts; [assumption | apply alpha_not_empty; assumption | assumption]).
    unfold resolve_address. rewrite Halpha, Haddr.
    replace (target =? -1) with false by (symmetry; apply Z.eqb_neq; lia).
    unfold Extended.out_of_range.
    replace (target <? 0) with false by (symmetry; apply Z.ltb_ge; lia).
    replace (target >? 255) with false
      by (symmetry; rewrite Z.gtb_ltb; apply Z.ltb_ge; lia).
    reflexivity. }
  split; [exact Hfields |].
  unfold Extended.encode_instruction. rewrite Hfields.
  pose proof (pack_decodes (Extended.OpAddr 24 target)) as Hdec.
  cbn [fits decodes_to] in Hdec.
  destruct Hdec as (Hop & _ & Hvalue); [repeat split; (lia || reflexivity) |].
  unfold Simulator.execute_instruction. rewrite Hop, Hvalue. reflexivity.
Qed.

Lemma jump_reaches_label_witness :
  defines "factorial:" "factorial" /\
  Extended.encode_fields
    (symbol_table (Extended.build_symbol_table readme_program))
    ("JMP " ++ "factorial") 3 = Fields (Extended.OpAddr 24 6).
Proof.
  assert (Hdef : defines "factorial:" "factorial") by (exists 9%nat; split; reflexivity).
  split; [exact Hdef |].
  pose proof (jump_reaches_label
                (firstn 7 readme_program) (skipn 8 readme_program)
                "factorial:" "factorial" 3 (Simulator.initial Claims.no_input) 0
                Hdef ltac:(cbv; lia) ltac:(repeat constructor; discriminate)
                eq_refl eq_refl ltac:(vm_compute; discriminate)) as H.
  cbv zeta in H. destruct H as [Hfields _]. exact Hfields.
Defined.

(** X20: the extended assembler numbers the registers in the order in
    which the simulator names them.  A register name is read in any letter
    case (its first 31 characters count); its code is the position of the
    upper-case name in the simulator's [register_names], and [-1] when the
    name is not there. *)
Theorem register_codes_follow_names (reg_name : string) :
  let upper := CLib.strupr (CLib.strncpy (MAX_LABEL_LENGTH - 1) reg_name) in
  let code := Extended.get_register_code reg_name in
  (0 <= code < 8 /\ nth (Z.to_nat code) Simulator.register_names "" = upper) \/
  (code = -1 /\ ~ In upper Simulator.register_names).
Proof.
  intros upper code. subst code. unfold Extended.get_register_code. fold upper.
  repeat match goal with
         | |- context [String.eqb upper ?s] =>
             destruct (String.eqb_spec upper s) as [-> | ?];
             [left; split; [lia | reflexivity] |]
         end.
  right. split; [reflexivity |].
  unfold Simulator.register_names. cbn [In]. intuition congruence.
Qed.

(** ** The loader *)

Section Loading.

Lemma strchr_tail (c d : ascii) (s : string) :
  CLib.strchr c (String d s) = None -> CLib.strchr c s = None.
Proof.
  cbn. destruct (Ascii.eqb d c); [discriminate |].
  destruct (CLib.strchr c s); [discriminate | reflexivity].
Qed.

Lemma strchr_substring (c : ascii) (k : nat) :
  forall s : string, CLib.strchr c s = None ->
                     CLib.strchr c (substring 0 k s) = None.
Proof.
  induction k as [| k IH]; intros s H; destruct s as [| d s];
    try reflexivity.
  pose proof (strchr_tail c d s H) as Ht.
  cbn [CLib.strchr] in H. cbn [substring CLib.strchr].
  destruct (Ascii.eqb d c); [discriminate |].
  rewrite IH by exact Ht. reflexivity.
Qed.

Lemma strchr_skip_spaces (c : ascii) (s : string) :
  CLib.strchr c s = None -> CLib.strchr c (CLib.skip_spaces s) = None.
Proof.
  induction s as [| d s IH]; intros H; cbn [CLib.skip_spaces]; [reflexivity |].
  destruct (CLib.isspace d); [| exact H].
  apply IH. apply (strchr_tail c d). exact H.
Qed.

Lemma skip_spaces_head (s : string) :
  CLib.isspace (CLib.head (CLib.skip_spaces s)) = false.
Proof.
  induction s as [| d s IH]; cbn [CLib.skip_spaces]; [reflexivity |].
  destruct (CLib.isspace d) eqn:Hd; [exact IH | exact Hd].
Qed.

Lemma skip_spaces_length (s : string) :
  (String.length (CLib.skip_spaces s) <= String.length s)%nat.
Proof.
  induction s as [| d s IH]; cbn [CLib.skip_spaces]; [lia |].
  destruct (CLib.isspace d); cbn [String.length]; lia.
Qed.

Lemma cut_comment_none (s : string) :
  CLib.strchr ";"%char (Loader.cut_comment s) = None.
Proof.
  induction s as [| d s IH]; cbn [Loader.cut_comment]; [reflexivity |].
  destruct (Ascii.eqb d ";"%char) eqn:Hd; [reflexivity |].
  cbn [CLib.strchr]. rewrite Hd, IH. reflexivity.
Qed.

Lemma cut_comment_keeps (c : ascii) (s : string) :
  CLib.strchr c s = None -> CLib.strchr c (Loader.cut_comment s) = None.
Proof.
  induction s as [| d s IH]; intros H; cbn [Loader.cut_comment]; [reflexivity |].
  destruct (Ascii.eqb d ";"%char); [reflexivity |].
  pose proof (strchr_tail c d s H) as Ht.
  cbn [CLib.strchr] in *. destruct (Ascii.eqb d c); [discriminate |].
  rewrite IH by exact Ht. reflexivity.
Qed.

Lemma cut_comment_length (s : string) :
  (String.length (Loader.cut_comment s) <= String.length s)%nat.
Proof.
  induction s as [| d s IH]; cbn [Loader.cut_comment]; [lia |].
  destruct (Ascii.eqb d ";"%char); cbn [String.length]; lia.
Qed.

Lemma cut_newline_none (s : string) :
  CLib.strchr Loader.newline (Loader.cut_newline s) = None /\
  CLib.strchr Loader.carriage_return (Loader.cut_newline s) = None.
Proof.
  induction s as [| d s [IHn IHr]]; cbn [Loader.cut_newline]; [split; reflexivity |].
  destruct (Ascii.eqb d Loader.carriage_return) eqn:Hr;
    destruct (Ascii.eqb d Loader.newline) eqn:Hn; cbn [orb];
    try (split; reflexivity).
  cbn [CLib.strchr]. rewrite Hr, Hn, IHn, IHr. split; reflexivity.
Qed.

Lemma cut_newline_length (s : string) :
  (String.length (Loader.cut_newline s) <= String.length s)%nat.
Proof.
  induction s as [| d s IH]; cbn [Loader.cut_newline]; [lia |].
  destruct (Ascii.eqb d Loader.carriage_return || Ascii.eqb d Loader.newline);
    cbn [String.length]; lia.
Qed.

Lemma trimmed_line_length (s : string) :
  (String.length (Loader.trimmed_line s) <= String.length s)%nat.
Proof.
  unfold Loader.trimmed_line.
  pose proof (skip_spaces_length (Loader.cut_comment (Loader.cut_newline s))).
  pose proof (cut_comment_length (Loader.cut_newline s)).
  pose proof (cut_newline_length s). lia.
Qed.

Lemma copy_is_stored (line_buffer : string) :
  CLib.is_empty (Loader.trimmed_line line_buffer) = false ->
  stored_line (CLib.strncpy (MAX_LINE_LENGTH - 1) (Loader.trimmed_line line_buffer)).
Proof.
  intros Hne. unfold stored_line, CLib.strncpy.
  pose proof (skip_spaces_head
                (Loader.cut_comment (Loader.cut_newline line_buffer))) as Hhead.
  pose proof (cut_newline_none line_buffer) as [Hn Hr].
  assert (Hc : CLib.strchr ";"%char (Loader.trimmed_line line_buffer) = None)
    by (apply strchr_skip_spaces, cut_comment_none).
  assert (Hn' : CLib.strchr Loader.newline (Loader.trimmed_line line_buffer) = None)
    by (apply strchr_skip_spaces, cut_comment_keeps, Hn).
  assert (Hr' : CLib.strchr Loader.carriage_return
                            (Loader.trimmed_line line_buffer) = None)
    by (apply strchr_skip_spaces, cut_comment_keeps, Hr).
  fold (Loader.trimmed_line line_buffer) in Hhead.
  refine (conj _ (conj (substring_length_le _ _) (conj _ (conj _ (conj _ _)))));
    try (apply strchr_substring; assumption).
  - destruct (Loader.trimmed_line line_buffer); [discriminate | reflexivity].
  - destruct (Loader.trimmed_line line_buffer); [discriminate | exact Hhead].
Qed.

Lemma load_from_stored (buffers : list string) :
  forall i : Z, Forall stored_line (Loader.load_from buffers i).
Proof.
  induction buffers as [| b rest IH]; intros i; cbn [Loader.load_from];
    [constructor |].
  destruct (i <? Loader.PROGRAM_SIZE); [| constructor].
  cbv zeta.
  destruct (CLib.is_empty (Loader.trimmed_line b)) eqn:Hb; [apply IH |].
  constructor; [apply copy_is_stored; exact Hb | apply IH].
Qed.

Lemma load_from_length (buffers : list string) :
  forall i : Z, 0 <= i <= Loader.PROGRAM_SIZE ->
    (length (Loader.load_from buffers i) <= Z.to_nat (Loader.PROGRAM_SIZE - i))%nat.
Proof.
  induction buffers as [| b rest IH]; intros i Hi; cbn [Loader.load_from];
    [cbn; lia |].
  destruct (Z.ltb_spec i Loader.PROGRAM_SIZE) as [Hlt | Hge]; [| cbn; lia].
  cbv zeta.
  destruct (CLib.is_empty (Loader.trimmed_line b)); [apply IH; exact Hi |].
  cbn [length]. specialize (IH (i + 1) ltac:(lia)). lia.
Qed.

Lemma fgets_line (l : string) :
  forall (cur : string) (n : nat) (rest : string),
    CLib.strchr Loader.newline l = None ->
    n = String.length cur ->
    (String.length cur + String.length l < MAX_LINE_LENGTH - 1)%nat ->
    Loader.fgets_from cur n (l ++ String Loader.newline rest) =
    (cur ++ l ++ String Loader.newline "")%string :: Loader.fgets_from "" 0 rest.
Proof.
  induction l as [| c r IH]; intros cur n rest Hnl Hn Hlen.
  - cbn [append Loader.fgets_from]. rewrite Ascii.eqb_refl. reflexivity.
  - pose proof (strchr_tail _ _ _ Hnl) as Htail.
    cbn [CLib.strchr] in Hnl.
    destruct (Ascii.eqb c Loader.newline) eqn:Hc; [discriminate |].
    cbn [append Loader.fgets_from]. rewrite Hc. cbn [String.length] in Hlen.
    replace (S n =? MAX_LINE_LENGTH - 1)%nat with false
      by (symmetry; apply Nat.eqb_neq; lia).
    cbn [orb].
    rewrite IH; [rewrite append_step; reflexivity | exact Htail | |].
    + rewrite length_append. cbn [String.length]. lia.
    + rewrite length_append. cbn [String.length]. lia.
Qed.

Lemma fgets_text (lines : list string) :
  Forall one_buffer lines ->
  Loader.fgets_all (file_text lines) =
  map (fun l => (l ++ String Loader.newline "")%string) lines.
Proof.
  unfold Loader.fgets_all.
  induction 1 as [| l rest [Hnl Hlen] _ IH]; [reflexivity |].
  cbn [file_text map].
  rewrite fgets_line; [| exact Hnl | reflexivity | cbn [String.length]; lia].
  cbn [append]. rewrite IH. reflexivity.
Qed.

Lemma cut_newline_line (l : string) :
  Loader.cut_newline (l ++ String Loader.newline "") = Loader.cut_newline l.
Proof.
  induction l as [| c r IH]; cbn [append Loader.cut_newline].
  - rewrite Ascii.eqb_refl, orb_true_r. reflexivity.
  - rewrite IH. reflexivity.
Qed.

Lemma load_from_lines (lines : list string) :
  forall i : Z, 0 <= i <= Loader.PROGRAM_SIZE ->
    Forall one_buffer lines ->
    Loader.load_from (map (fun l => (l ++ String Loader.newline "")%string) lines) i =
    firstn (Z.to_nat (Loader.PROGRAM_SIZE - i))
           (List.filter (fun t => negb (CLib.is_empty t))
                        (map Loader.trimmed_line lines)).
Proof.
  induction lines as [| l rest IH]; intros i Hi Hall.
  - cbn. rewrite firstn_nil. reflexivity.
  - inversion Hall as [| ? ? [Hnl Hlen] Hrest]; subst.
    cbn [map Loader.load_from List.filter].
    assert (Ht : Loader.trimmed_line (l ++ String Loader.newline "") =
                 Loader.trimmed_line l)
      by (unfold Loader.trimmed_line; rewrite cut_newline_line; reflexivity).
    rewrite Ht. cbv zeta.
    destruct (Z.ltb_spec i Loader.PROGRAM_SIZE) as [Hlt | Hge].
    + destruct (CLib.is_empty (Loader.trimmed_line l)) eqn:He; cbn [negb].
      * apply IH; assumption.
      * rewrite IH by (try assumption; lia).
        replace (Z.to_nat (Loader.PROGRAM_SIZE - i))
          with (S (Z.to_nat (Loader.PROGRAM_SIZE - (i + 1)))) by lia.
        cbn [firstn]. f_equal.
        unfold CLib.strncpy. apply substring_all.
        pose proof (trimmed_line_length l). lia.
    + replace (Z.to_nat (Loader.PROGRAM_SIZE - i)) with O by lia.
      reflexivity.
Qed.

End Loading.

(** X21: what the loader stores, for every file.  [load_program] stores at
    most [PROGRAM_SIZE] (256) lines, and every stored line is non-empty,
    holds at most 99 characters, does not start with white space and
    contains no semicolon, newline or carriage return. *)
Theorem loaded_lines (file : string) :
  (length (Loader.load_program file) <= 256)%nat /\
  Forall stored_line (Loader.load_program file).
Proof.
  unfold Loader.load_program. split.
  - pose proof (load_from_length (Loader.fgets_all file) 0) as H.
    unfold Loader.PROGRAM_SIZE in H. specialize (H ltac:(lia)).
    change (Z.to_nat (256 - 0)) with 256%nat in H. exact H.
  - apply load_from_stored.
Qed.

(** X22: the loader on a file of newline-terminated lines shorter than 99
    characters.  It stores, in order, the first 256 of the lines that are
    not blank once the comment (from the first semicolon) and the leading
    white space are removed; blank and comment-only lines take no place in
    [program_memory], and white space at the end of a line is kept. *)
Theorem load_program_lines (lines : list string) :
  Forall one_buffer lines ->
  Loader.load_program (file_text lines) =
  firstn 256 (List.filter (fun t => negb (CLib.is_empty t))
                          (map Loader.trimmed_line lines)).
Proof.
  intros Hall. unfold Loader.load_program.
  rewrite fgets_text by exact Hall.
  rewrite (load_from_lines lines 0) by (unfold Loader.PROGRAM_SIZE; (lia || assumption)).
  reflexivity.
Qed.

Lemma load_program_lines_witness :
  Forall one_buffer ["  MOV EAX, #5 ; five"; ""; "; note"; "HLT"] /\
  Loader.load_program
    (file_text ["  MOV EAX, #5 ; five"; ""; "; note"; "HLT"]) =
  ["MOV EAX, #5 "; "HLT"].
Proof.
  assert (H : Forall one_buffer ["  MOV EAX, #5 ; five"; ""; "; note"; "HLT"])
    by (repeat constructor; cbn; lia).
  split; [exact H |].
  rewrite (load_program_lines _ H). reflexivity.
Defined.

(** ** The subroutine of the README *)

Section Subroutine.

Lemma run_step (machine_code : list Z) (fuel : nat) (m : Simulator.Machine)
    (pc w : Z) :
  (0 <=? pc) && (pc <? Z.of_nat (length machine_code)) = true ->
  default 0 (machine_code !! Z.to_nat pc) = w ->
  Simulator.run_from (S fuel) machine_code m pc =
  match Simulator.execute_instruction m w pc with
  | Next m1 next_pc => Simulator.run_from fuel machine_code m1 next_pc
  | Blocked m1 => Blocked m1
  | Undefined => Undefined
  end.
Proof.
  intros Hin Hw. cbn [Simulator.run_from]. rewrite Hin, Hw. reflexivity.
Qed.

Lemma valid_in (address : Z) :
  0 <= address < 256 -> Simulator.valid_address address = true.
Proof.
  intros H. unfold Simulator.valid_address, Simulator.MEMORY_SIZE.
  apply andb_true_intro. split; [apply Z.leb_le | apply Z.ltb_lt]; lia.
Qed.

Lemma wrap32_mul (a b : Z) : wrap32 (wrap32 a * b) = wrap32 (a * b).
Proof.
  unfold wrap32. f_equal.
  rewrite <- (Zplus_mod_idemp_l (_ * b)), <- (Zplus_mod_idemp_l (a * b)).
  f_equal. f_equal.
  rewrite Zmult_mod, (Zmult_mod a b). f_equal. f_equal.
  rewrite Zminus_mod, Zmod_mod, <- Zminus_mod.
  f_equal. lia.
Qed.

Lemma read_slot (mem : list Z) (i : nat) (v : Z) :
  mem !! i = Some v -> default 0 (mem !! i) = v.
Proof. intros H. rewrite H. reflexivity. Qed.

Lemma factorial_of_positive (k : nat) : 1 <= factorial_of k.
Proof. induction k as [| k IH]; cbn [factorial_of]; nia. Qed.

Lemma readme_assembles : Extended.main readme_program = Exit0 readme_words.
Proof. vm_compute. reflexivity. Qed.

End Subroutine.

Ltac simulate :=
  cbn [Simulator.get_register_value Simulator.set_register_value
       Simulator.with_registers Simulator.with_flags Simulator.with_memory
       Simulator.print Simulator.registers Simulator.flags Simulator.memory
       Simulator.stdin Simulator.with_stdin Simulator.console
       Simulator.EAX Simulator.EBX Simulator.ECX Simulator.EDX
       Simulator.ESI Simulator.EDI Simulator.EBP Simulator.ESP
       Simulator.ZF Simulator.SF Simulator.dec_ESP Simulator.inc_ESP
       Simulator.compare fst snd];
  unfold Simulator.compare, Simulator.with_registers, Simulator.with_flags,
    Simulator.with_memory, Simulator.print;
  cbn [Simulator.registers Simulator.flags Simulator.memory
       Simulator.stdin Simulator.with_stdin Simulator.console
       Simulator.EAX Simulator.EBX Simulator.ECX Simulator.EDX
       Simulator.ESI Simulator.EDI Simulator.EBP Simulator.ESP
       Simulator.ZF Simulator.SF fst snd].

Ltac small_ints :=
  repeat match goal with
         | |- context [wrap32 ?x] =>
             rewrite (wrap32_small x) by (unfold INT_MIN, INT_MAX; lia)
         end.

Ltac valid_addresses :=
  repeat match goal with
         | |- context [Simulator.valid_address ?x] =>
             rewrite (valid_in x) by lia
         end.

(** One turn of the loop of [run_program] on a state given field by field,
    at a program counter and a word that are known. *)
Ltac step :=
  match goal with
  | |- context [Simulator.run_from (S ?f) ?code ?m ?pc] =>
      let w := eval vm_compute in (default 0 (code !! Z.to_nat pc)) in
      let op := eval vm_compute in (Simulator.decode_opcode w) in
      let r1 := eval vm_compute in (Simulator.decode_reg1 w) in
      let r2 := eval vm_compute in (Simulator.decode_reg2 w) in
      let v := eval vm_compute in (Simulator.decode_value w) in
      let off := eval vm_compute in (Simulator.decode_offset w) in
      let bo := eval vm_compute in (Simulator.is_base_offset op) in
      let next := eval vm_compute in (wrap32 (pc + 1)) in
      let eq15 := eval vm_compute in (op =? 15) in
      rewrite (run_step code f m pc w eq_refl eq_refl);
      unfold Simulator.execute_instruction; cbv zeta;
      change (Simulator.decode_opcode w) with op;
      change (Simulator.decode_reg1 w) with r1;
      change (Simulator.decode_reg2 w) with r2;
      change (Simulator.decode_value w) with v;
      change (Simulator.decode_offset w) with off;
      change (Simulator.is_base_offset op) with bo;
      change (wrap32 (pc + 1)) with next;
      change (op =? 15) with eq15;
      cbv beta iota zeta; simulate; small_ints;
      unfold Simulator.write_memory, Simulator.read_memory;
      simulate; small_ints; valid_addresses;
      cbv beta iota zeta; simulate; small_ints
  end.

Section Frames.

Lemma factorial_frame (k : nat) :
  forall (m : Simulator.Machine) (s ret : Z),
    Claims.well_formed m ->
    Simulator.ESP (Simulator.registers m) = s ->
    3 * Z.of_nat k + 1 <= s <= 254 ->
    Simulator.memory m !! Z.to_nat s = Some ret ->
    Simulator.memory m !! Z.to_nat (s + 1) = Some (Z.of_nat (S k)) ->
    exists m',
      Simulator.run_from (14 * k + 8) readme_words m 6 = Next m' ret /\
      Claims.well_formed m' /\
      Simulator.EAX (Simulator.registers m') = wrap32 (factorial_of (S k)) /\
      Simulator.ESP (Simulator.registers m') = s + 1 /\
      Simulator.EBP (Simulator.registers m') = Simulator.EBP (Simulator.registers m) /\
      (Simulator.ECX (Simulator.registers m'), Simulator.EDX (Simulator.registers m'),
       Simulator.ESI (Simulator.registers m'), Simulator.EDI (Simulator.registers m')) =
      (Simulator.ECX (Simulator.registers m), Simulator.EDX (Simulator.registers m),
       Simulator.ESI (Simulator.registers m), Simulator.EDI (Simulator.registers m)) /\
      (forall i : nat, (Z.to_nat s <= i)%nat ->
                       Simulator.memory m' !! i = Simulator.memory m !! i) /\
      Simulator.console m' = Simulator.console m /\
      Simulator.stdin m' = Simulator.stdin m.
Proof.
  induction k as [| j IH]; intros m s ret Hwf Hsp Hs Hret Harg;
    destruct m as [[a b c d si di bp sp] fl mem inp out];
    unfold Claims.well_formed, Simulator.MEMORY_SIZE in *;
    cbn [Simulator.registers Simulator.memory Simulator.ESP Simulator.EBP
         Simulator.ECX Simulator.EDX Simulator.ESI Simulator.EDI
         Simulator.console Simulator.stdin] in *;
    subst sp.
  - (* the argument is 1 *)
    eexists. split.
    + change (14 * 0 + 8)%nat with 8%nat.
      step. step. step.
      replace (s - 1 + 2) with (s + 1) by lia.
      rewrite (read_slot _ _ 1) by (rewrite list_lookup_insert_ne by lia; exact Harg).
      step. step. step. step.
      rewrite (read_slot _ _ bp) by (apply list_lookup_insert_eq; lia).
      replace (s - 1 + 1) with s by lia.
      step.
      rewrite (read_slot _ _ ret) by (rewrite list_lookup_insert_ne by lia; exact Hret).
      cbn [Simulator.run_from]. reflexivity.
    + cbn [Simulator.registers Simulator.memory Simulator.ESP Simulator.EBP
         Simulator.ECX Simulator.EDX Simulator.ESI Simulator.EDI Simulator.EAX
         Simulator.console Simulator.stdin].
      rewrite length_insert.
      refine (conj Hwf (conj eq_refl (conj eq_refl (conj eq_refl (conj eq_refl
               (conj _ (conj eq_refl eq_refl))))))).
      intros i Hi. apply list_lookup_insert_ne. lia.
  - (* the argument is j + 2 *)
    set (arg := Z.of_nat (S (S j))) in *.
    assert (Harg_range : 2 <= arg <= 86) by (unfold arg; lia).
    replace (14 * S j + 8)%nat with (8 + ((14 * j + 8) + 6))%nat by lia.
    rewrite run_from_add.
    assert (Hcall :
      Simulator.run_from 8 readme_words
        (Simulator.mkMachine (Simulator.mkRegisters a b c d si di bp s) fl mem inp out) 6 =
      Next (Simulator.mkMachine
              (Simulator.mkRegisters (arg - 1) b c d si di (s - 1) (s - 3))
              (Simulator.mkFlags false false)
              (<[Z.to_nat (s - 3) := 14]>
                 (<[Z.to_nat (s - 2) := arg - 1]> (<[Z.to_nat (s - 1) := bp]> mem)))
              inp out) 6).
    { step. step. step.
      replace (s - 1 + 2) with (s + 1) by lia.
      rewrite (read_slot _ _ arg) by (rewrite list_lookup_insert_ne by lia; exact Harg).
      step.
      replace (arg - 1 =? 0) with false by (symmetry; apply Z.eqb_neq; lia).
      replace (arg - 1 <? 0) with false by (symmetry; apply Z.ltb_ge; lia).
      step. step. step. step.
      replace (s - 1 - 1) with (s - 2) by lia.
      replace (s - 2 - 1) with (s - 3) by lia.
      cbn [Simulator.run_from]. reflexivity. }
    rewrite Hcall. cbv iota. clear Hcall.
    rewrite run_from_add.
    match goal with
    | |- context [Simulator.run_from (14 * j + 8) readme_words ?m1 6] =>
        destruct (IH m1 (s - 3) 14) as
          (m2 & Hrun & Hwf2 & Heax & Hesp & Hebp & Hregs & Hmem & Hout & Hn)
    end.
    { cbn [Simulator.memory]. rewrite !length_insert. exact Hwf. }
    { reflexivity. }
    { lia. }
    { cbn [Simulator.memory]. apply list_lookup_insert_eq.
      rewrite !length_insert. lia. }
    { cbn [Simulator.memory]. replace (s - 3 + 1) with (s - 2) by lia.
      rewrite list_lookup_insert_ne by lia.
      replace (Z.of_nat (S j)) with (arg - 1) by (unfold arg; lia).
      apply list_lookup_insert_eq. rewrite !length_insert. lia. }
    rewrite Hrun. cbv iota. clear Hrun IH.
    destruct m2 as [[a2 b2 c2 d2 si2 di2 bp2 sp2] fl2 mem2 inp2 out2].
    cbn [Simulator.registers Simulator.memory Simulator.ESP Simulator.EBP
         Simulator.ECX Simulator.EDX Simulator.ESI Simulator.EDI Simulator.EAX
         Simulator.console Simulator.stdin] in *.
    injection Hregs as -> -> -> ->. subst a2 sp2 bp2 out2 inp2.
    assert (Hkept : forall i : nat, (Z.to_nat (s - 3) < i)%nat ->
                      (i <> Z.to_nat (s - 2))%nat -> (i <> Z.to_nat (s - 1))%nat ->
                      mem2 !! i = mem !! i).
    { intros i H3 H2 H1. rewrite Hmem by lia.
      rewrite !list_lookup_insert_ne by lia. reflexivity. }
    assert (Hslot_arg : mem2 !! Z.to_nat (s + 1) = Some arg)
      by (rewrite Hkept by lia; exact Harg).
    assert (Hslot_ret : mem2 !! Z.to_nat s = Some ret)
      by (rewrite Hkept by lia; exact Hret).
    assert (Hslot_bp : mem2 !! Z.to_nat (s - 1) = Some bp).
    { rewrite Hmem by lia. rewrite !list_lookup_insert_ne by lia.
      apply list_lookup_insert_eq. lia. }
    eexists. split.
    + step. step.
      replace (s - 1 + 2) with (s + 1) by lia.
      rewrite (read_slot _ _ _ Hslot_arg).
      step. step. step.
      rewrite (read_slot _ _ _ Hslot_bp).
      replace (s - 1 + 1) with s by lia.
      step.
      rewrite (read_slot _ _ _ Hslot_ret).
      cbn [Simulator.run_from]. reflexivity.
    + cbn [Simulator.registers Simulator.memory Simulator.ESP Simulator.EBP
         Simulator.ECX Simulator.EDX Simulator.ESI Simulator.EDI Simulator.EAX
         Simulator.console Simulator.stdin].
      refine (conj Hwf2 (conj _ (conj eq_refl (conj eq_refl (conj eq_refl
               (conj _ (conj eq_refl eq_refl))))))).
      * rewrite wrap32_mul. f_equal.
        change (factorial_of (S (S j))) with (arg * factorial_of (S j)). lia.
      * intros i Hi. apply Hkept; lia.
Qed.


Lemma readme_assembled : assembled readme_program = readme_words.
Proof. vm_compute. reflexivity. Qed.

Lemma factorial_small (a : Z) :
  1 <= a <= 12 -> wrap32 (factorial_of (Z.to_nat a)) = factorial_of (Z.to_nat a).
Proof.
  intros H.
  assert (Hcases : a = 1 \/ a = 2 \/ a = 3 \/ a = 4 \/ a = 5 \/ a = 6 \/
                   a = 7 \/ a = 8 \/ a = 9 \/ a = 10 \/ a = 11 \/ a = 12) by lia.
  repeat (destruct Hcases as [-> | Hcases]; [vm_compute; reflexivity |]).
  subst a. vm_compute. reflexivity.
Qed.

End Frames.

(** X23: the subroutine of the README returns the factorial of its
    argument.  Entered at the address of the label [factorial] with the
    return address on top of the stack, the argument [a >= 1] above it and
    room for [3 a - 2] words below, the assembled subroutine runs for
    [14 a - 6] instructions and continues at the return address with
    [a!], taken in [int], in [EAX] (exactly [a!] up to [a = 12]), the
    return address popped, [EBP] as it was, the stack of the caller (the
    memory from the stack pointer upwards) untouched and nothing printed. *)
Theorem factorial_returns (m : Simulator.Machine) (a s ret : Z) :
  Claims.well_formed m ->
  1 <= a ->
  Simulator.ESP (Simulator.registers m) = s ->
  3 * a - 2 <= s <= 254 ->
  Simulator.memory m !! Z.to_nat s = Some ret ->
  Simulator.memory m !! Z.to_nat (s + 1) = Some a ->
  let entry :=
    get_address_for_label
      (symbol_table (Extended.build_symbol_table readme_program)) "factorial" in
  exists r,
    Simulator.run_from (Z.to_nat (14 * a - 6)) (assembled readme_program) m entry =
      Next (fst r) (snd r) /\
    snd r = ret /\
    Simulator.EAX (Simulator.registers (fst r)) = wrap32 (factorial_of (Z.to_nat a)) /\
    (a <= 12 ->
     Simulator.EAX (Simulator.registers (fst r)) = factorial_of (Z.to_nat a)) /\
    Simulator.ESP (Simulator.registers (fst r)) = s + 1 /\
    Simulator.EBP (Simulator.registers (fst r)) = Simulator.EBP (Simulator.registers m) /\
    (forall address : Z,
        s <= address < 256 ->
        Simulator.memory (fst r) !! Z.to_nat address =
        Simulator.memory m !! Z.to_nat address) /\
    Simulator.console (fst r) = Simulator.console m.
Proof.
  intros Hwf Ha Hsp Hs Hret Harg entry. subst entry.
  change (get_address_for_label _ "factorial") with 6.
  rewrite readme_assembled.
  replace (Z.to_nat (14 * a - 6)) with (14 * Z.to_nat (a - 1) + 8)%nat by lia.
  destruct (factorial_frame (Z.to_nat (a - 1)) m s ret Hwf Hsp ltac:(lia) Hret)
    as (m' & Hrun & _ & Heax & Hesp & Hebp & _ & Hmem & Hout & _).
  { rewrite Harg. f_equal. lia. }
  exists (m', ret). cbn [fst snd].
  replace (S (Z.to_nat (a - 1))) with (Z.to_nat a) in Heax by lia.
  refine (conj Hrun (conj eq_refl (conj Heax (conj _ (conj Hesp (conj Hebp (conj _ Hout))))))).
  - intros H12. rewrite Heax. apply factorial_small. lia.
  - intros address Haddress. apply Hmem. lia.
Qed.

Lemma factorial_returns_witness :
  let m := Claims.reached (Simulator.run_from 3 (assembled readme_program)
                             (Simulator.initial Claims.no_input) 0) in
  Simulator.memory m !! Z.to_nat 254 = Some 3 /\
  Simulator.memory m !! Z.to_nat (254 + 1) = Some 5 /\
  exists m',
    Simulator.run_from (Z.to_nat (14 * 5 - 6)) (assembled readme_program) m 6 =
      Next m' 3 /\
    Simulator.EAX (Simulator.registers m') = 120.
Proof.
  cbv zeta.
  set (m := Claims.reached (Simulator.run_from 3 (assembled readme_program)
                              (Simulator.initial Claims.no_input) 0)).
  assert (Hret : Simulator.memory m !! Z.to_nat 254 = Some 3) by (vm_compute; reflexivity).
  assert (Harg : Simulator.memory m !! Z.to_nat (254 + 1) = Some 5)
    by (vm_compute; reflexivity).
  refine (conj Hret (conj Harg _)).
  pose proof (factorial_returns m 5 254 3 ltac:(vm_compute; reflexivity) ltac:(lia)
                ltac:(vm_compute; reflexivity) ltac:(lia) Hret Harg) as H.
  cbv zeta in H. destruct H as ([m' pc'] & Hrun & Hpc & _ & Hexact & _).
  cbn [fst snd] in Hrun, Hpc, Hexact. subst pc'.
  change (get_address_for_label _ "factorial") with 6 in Hrun.
  exists m'. split; [exact Hrun |].
  rewrite (Hexact ltac:(lia)). reflexivity.
Defined.

(** X24: what the example program of the README prints.  From the [PUSH]
    at address 1, with a number [n] between 1 and 85 in [EAX] and the stack
    pointer where [run_program] puts it, the program calls the subroutine,
    then pops the argument into [EAX], over the result, and prints it: the
    output is [n], not the factorial of [n], and the run ends at the [HLT]
    at address 5. *)
Theorem readme_example_prints_argument (m : Simulator.Machine) (n : Z) :
  Claims.well_formed m ->
  Simulator.EAX (Simulator.registers m) = n ->
  1 <= n <= 85 ->
  Simulator.ESP (Simulator.registers m) = Simulator.STACK_TOP + 1 ->
  exists r,
    Simulator.run_from (Z.to_nat (14 * n - 6) + 5) (assembled readme_program) m 1 =
      Next (fst r) (snd r) /\
    snd r = -1 /\
    Simulator.console (fst r) =
      Simulator.console m ++ [Simulator.Output 0 n; Simulator.HaltAt 5].
Proof.
  intros Hwf Heax Hn Hsp.
  rewrite readme_assembled.
  destruct m as [[a b c d si di bp sp] fl mem inp out].
  unfold Claims.well_formed, Simulator.STACK_TOP, Simulator.MEMORY_SIZE in *.
  cbn [Simulator.registers Simulator.memory Simulator.ESP Simulator.EAX
       Simulator.console] in *.
  subst a. change (256 - 1 + 1) with 256 in Hsp. subst sp.
  replace (Z.to_nat (14 * n - 6) + 5)%nat
    with (2 + ((14 * Z.to_nat (n - 1) + 8) + 3))%nat by lia.
  rewrite run_from_add.
  assert (Hcall :
    Simulator.run_from 2 readme_words
      (Simulator.mkMachine (Simulator.mkRegisters n b c d si di bp 256) fl mem inp out) 1 =
    Next (Simulator.mkMachine
            (Simulator.mkRegisters n b c d si di bp 254) fl
            (<[Z.to_nat 254 := 3]> (<[Z.to_nat 255 := n]> mem)) inp out) 6).
  { step. step. cbn [Simulator.run_from]. reflexivity. }
  rewrite Hcall. cbv iota. clear Hcall.
  rewrite run_from_add.
  match goal with
  | |- context [Simulator.run_from (14 * _ + 8) readme_words ?m1 6] =>
      destruct (factorial_frame (Z.to_nat (n - 1)) m1 254 3) as
        (m2 & Hrun & Hwf2 & _ & Hesp & _ & _ & Hmem & Hout & _)
  end.
  { unfold Claims.well_formed, Simulator.MEMORY_SIZE.
    cbn [Simulator.memory]. rewrite !length_insert. exact Hwf. }
  { reflexivity. }
  { lia. }
  { cbn [Simulator.memory]. apply list_lookup_insert_eq.
    rewrite length_insert. lia. }
  { cbn [Simulator.memory]. rewrite list_lookup_insert_ne by lia.
    replace (Z.of_nat (S (Z.to_nat (n - 1)))) with n by lia.
    apply list_lookup_insert_eq. lia. }
  rewrite Hrun. cbv iota. clear Hrun.
  destruct m2 as [[a2 b2 c2 d2 si2 di2 bp2 sp2] fl2 mem2 inp2 out2].
  unfold Claims.well_formed, Simulator.MEMORY_SIZE in Hwf2.
  cbn [Simulator.registers Simulator.memory Simulator.ESP Simulator.console] in *.
  subst sp2 out2.
  assert (Hslot : mem2 !! Z.to_nat 255 = Some n).
  { rewrite Hmem by lia. rewrite list_lookup_insert_ne by lia.
    apply list_lookup_insert_eq. lia. }
  step.
  change (254 + 1) with 255. rewrite (read_slot _ _ _ Hslot).
  step. step.
  cbn [Simulator.run_from]. eexists (_, _). cbn [fst snd Simulator.console].
  split; [reflexivity |].
  rewrite <- app_assoc. split; reflexivity.
Qed.

Lemma readme_example_prints_argument_witness :
  exists m',
    Simulator.run_from (Z.to_nat (14 * 5 - 6) + 5) (assembled readme_program)
      (Claims.reached (Simulator.run_from 1 (assembled readme_program)
                         (Simulator.initial Claims.no_input) 0)) 1 =
      Next m' (-1) /\
    Simulator.console m' = [Simulator.Output 0 5; Simulator.HaltAt 5].
Proof.
  pose proof (readme_example_prints_argument
                (Claims.reached (Simulator.run_from 1 (assembled readme_program)
                                   (Simulator.initial Claims.no_input) 0)) 5
                ltac:(vm_compute; reflexivity) ltac:(vm_compute; reflexivity)
                ltac:(lia) ltac:(vm_compute; reflexivity)) as H.
  destruct H as ([m' pc'] & Hrun & Hpc & Hconsole).
  cbn [fst snd] in Hrun, Hpc, Hconsole. subst pc'.
  exists m'. split; [exact Hrun | exact Hconsole].
Defined.

(** ** The console *)

Section Console.

Import Simulator.

Lemma skip_spaces_app (blank s : string) :
  all_chars CLib.isspace blank = true ->
  CLib.skip_spaces (blank ++ s) = CLib.skip_spaces s.
Proof.
  induction blank as [| c blank IH]; cbn [append all_chars CLib.skip_spaces];
    [reflexivity |].
  intros H. apply andb_prop in H as [Hc Hblank]. rewrite Hc. exact (IH Hblank).
Qed.

Lemma skip_spaces_none (s : string) :
  CLib.isspace (CLib.head s) = false -> CLib.skip_spaces s = s.
Proof.
  destruct s as [| c r]; cbn [CLib.head CLib.skip_spaces]; [reflexivity |].
  intros ->. reflexivity.
Qed.

Lemma digits_app (number after : string) :
  all_chars CLib.isdigit number = true ->
  CLib.isdigit (CLib.head after) = false ->
  forall acc,
    CLib.digits acc (number ++ after) =
    acc * 10 ^ Z.of_nat (String.length number) + number_of number.
Proof.
  intros Hall Hafter.
  induction number as [| c number IH]; intros acc.
  - cbn [append String.length number_of]. change (10 ^ Z.of_nat 0) with 1.
    destruct after as [| d after]; cbn [CLib.digits]; [lia |].
    cbn [CLib.head] in Hafter. rewrite Hafter. lia.
  - cbn [all_chars] in Hall. apply andb_prop in Hall as [Hc Hnumber].
    cbn [append CLib.digits String.length number_of]. rewrite Hc.
    rewrite (IH Hnumber). rewrite Nat2Z.inj_succ, Z.pow_succ_r by lia. ring.
Qed.

Lemma skip_digits_app (number after : string) :
  all_chars CLib.isdigit number = true ->
  CLib.isdigit (CLib.head after) = false ->
  CLib.skip_digits (number ++ after) = after.
Proof.
  intros Hall Hafter.
  induction number as [| c number IH].
  - cbn [append]. destruct after as [| d after]; cbn [CLib.skip_digits];
      [reflexivity |].
    cbn [CLib.head] in Hafter. rewrite Hafter. reflexivity.
  - cbn [all_chars] in Hall. apply andb_prop in Hall as [Hc Hnumber].
    cbn [append CLib.skip_digits]. rewrite Hc. exact (IH Hnumber).
Qed.

Lemma on_one_line_tail (c : ascii) (s : string) :
  on_one_line (String c s) -> Ascii.eqb c CLib.newline = false /\ on_one_line s.
Proof.
  unfold on_one_line. cbn [CLib.strchr].
  destruct (Ascii.eqb c CLib.newline); [discriminate |].
  destruct (CLib.strchr CLib.newline s); [discriminate |].
  intros _. split; reflexivity.
Qed.

Lemma skip_line_app (line rest : string) :
  on_one_line line ->
  CLib.skip_line (line ++ String CLib.newline rest) = Some rest.
Proof.
  induction line as [| c line IH]; intros H.
  - cbn [append CLib.skip_line]. rewrite Ascii.eqb_refl. reflexivity.
  - apply on_one_line_tail in H as [Hc Hline].
    cbn [append CLib.skip_line]. rewrite Hc. exact (IH Hline).
Qed.

Lemma skip_line_none (s : string) : on_one_line s -> CLib.skip_line s = None.
Proof.
  induction s as [| c s IH]; intros H; [reflexivity |].
  apply on_one_line_tail in H as [Hc Hs].
  cbn [CLib.skip_line]. rewrite Hc. exact (IH Hs).
Qed.

Lemma on_one_line_skip_digits (s : string) :
  on_one_line s -> on_one_line (CLib.skip_digits s).
Proof.
  induction s as [| c s IH]; intros H; [exact H |].
  cbn [CLib.skip_digits]. destruct (CLib.isdigit c); [| exact H].
  apply on_one_line_tail in H as [_ Hs]. exact (IH Hs).
Qed.

Lemma head_app (s after : string) :
  s <> EmptyString -> CLib.head (s ++ after) = CLib.head s.
Proof. destruct s; [congruence | reflexivity]. Qed.

Lemma not_digit_before_newline (s rest : string) :
  CLib.isdigit (CLib.head s) = false ->
  CLib.isdigit (CLib.head (s ++ String CLib.newline rest)) = false.
Proof. destruct s; intros H; [reflexivity | exact H]. Qed.

(** [scanf("%d")] on input that starts with a character that is no white
    space. *)
Lemma scanf_int_head (c : ascii) (r : string) :
  CLib.isspace c = false ->
  CLib.scanf_int (String c r) =
  if Ascii.eqb c "-" then
    if CLib.isdigit (CLib.head r)
    then CLib.Converted (- CLib.digits 0 r) (CLib.skip_digits r)
    else CLib.NotConverted r
  else if Ascii.eqb c "+" then
    if CLib.isdigit (CLib.head r)
    then CLib.Converted (CLib.digits 0 r) (CLib.skip_digits r)
    else CLib.NotConverted r
  else
    if CLib.isdigit c
    then CLib.Converted (CLib.digits 0 (String c r)) (CLib.skip_digits (String c r))
    else CLib.NotConverted (String c r).
Proof.
  intros H. unfold CLib.scanf_int. cbn [CLib.skip_spaces]. rewrite H.
  destruct c as [[] [] [] [] [] [] [] []]; reflexivity.
Qed.

Lemma starts_number_head (c : ascii) (r : string) :
  starts_number (String c r) =
  if Ascii.eqb c "-" then CLib.isdigit (CLib.head r)
  else if Ascii.eqb c "+" then CLib.isdigit (CLib.head r)
  else CLib.isdigit c.
Proof. destruct c as [[] [] [] [] [] [] [] []]; reflexivity. Qed.

Lemma digit_is_no_sign (c : ascii) :
  CLib.isdigit c = true ->
  Ascii.eqb c "-" = false /\ Ascii.eqb c "+" = false /\ CLib.isspace c = false.
Proof.
  destruct c as [[] [] [] [] [] [] [] []]; intros H;
    try discriminate H; repeat split; reflexivity.
Qed.

(** [scanf("%d")] on white space, a sign, digits and a character that is
    no digit. *)
Lemma scanf_number (blank sign number after : string) :
  all_chars CLib.isspace blank = true ->
  In sign [""; "+"; "-"] ->
  number <> "" ->
  all_chars CLib.isdigit number = true ->
  CLib.isdigit (CLib.head after) = false ->
  CLib.scanf_int (blank ++ sign ++ number ++ after) =
  CLib.Converted (typed_number sign number) after.
Proof.
  intros Hblank Hsign Hsome Hall Hafter.
  assert (Hscan : CLib.scanf_int (blank ++ sign ++ number ++ after) =
                  CLib.scanf_int (sign ++ number ++ after))
    by (unfold CLib.scanf_int; rewrite skip_spaces_app by exact Hblank; reflexivity).
  rewrite Hscan. clear Hscan.
  destruct number as [| d number]; [congruence |].
  pose proof Hall as Hhead. cbn [all_chars] in Hhead.
  apply andb_prop in Hhead as [Hd _].
  destruct (digit_is_no_sign d Hd) as (Hminus & Hplus & Hspace).
  assert (Hdigits : CLib.digits 0 (String d number ++ after) =
                    number_of (String d number))
    by (rewrite (digits_app _ _ Hall Hafter); lia).
  assert (Hrest : CLib.skip_digits (String d number ++ after) = after)
    by (apply skip_digits_app; assumption).
  cbn [In] in Hsign. destruct Hsign as [<- | [<- | [<- | []]]].
  - cbn [append] in *. rewrite scanf_int_head by exact Hspace.
    rewrite Hminus, Hplus, Hd, Hdigits, Hrest. reflexivity.
  - change ("+" ++ String d number ++ after)%string
      with (String "+" (String d number ++ after)).
    rewrite scanf_int_head by reflexivity.
    change (Ascii.eqb "+" "-") with false. change (Ascii.eqb "+" "+") with true.
    cbv iota. rewrite Hdigits, Hrest. cbn [append CLib.head]. rewrite Hd.
    reflexivity.
  - change ("-" ++ String d number ++ after)%string
      with (String "-" (String d number ++ after)).
    rewrite scanf_int_head by reflexivity.
    change (Ascii.eqb "-" "-") with true.
    cbv iota. rewrite Hdigits, Hrest. cbn [append CLib.head]. rewrite Hd.
    reflexivity.
Qed.

(** [scanf("%d")] on white space and a line that does not start as a
    number does: nothing is converted, and the rest of the line is still to
    be read. *)
Lemma scanf_no_number (blank line after : string) :
  all_chars CLib.isspace blank = true ->
  CLib.isspace (CLib.head line) = false ->
  line <> "" ->
  starts_number line = false ->
  exists skipped unread : string,
    line = (skipped ++ unread)%string /\
    CLib.scanf_int (blank ++ line ++ String CLib.newline after) =
    CLib.NotConverted (unread ++ String CLib.newline after).
Proof.
  intros Hblank Hspace Hsome Hstart.
  assert (Hscan : CLib.scanf_int (blank ++ line ++ String CLib.newline after) =
                  CLib.scanf_int (line ++ String CLib.newline after))
    by (unfold CLib.scanf_int; rewrite skip_spaces_app by exact Hblank; reflexivity).
  rewrite Hscan. clear Hscan.
  destruct line as [| c r]; [congruence |].
  cbn [CLib.head] in Hspace. rewrite starts_number_head in Hstart.
  cbn [append]. rewrite scanf_int_head by exact Hspace.
  destruct (Ascii.eqb c "-") eqn:Hminus;
    [| destruct (Ascii.eqb c "+") eqn:Hplus].
  - rewrite (not_digit_before_newline _ _ Hstart).
    exists (String c ""), r. split; reflexivity.
  - rewrite (not_digit_before_newline _ _ Hstart).
    exists (String c ""), r. split; reflexivity.
  - rewrite Hstart. exists "", (String c r). split; reflexivity.
Qed.

Lemma on_one_line_suffix (skipped unread : string) :
  on_one_line (skipped ++ unread) -> on_one_line unread.
Proof.
  induction skipped as [| c skipped IH]; intros H; [exact H |].
  cbn [append] in H. apply on_one_line_tail in H as [_ H]. exact (IH H).
Qed.

(** What [scanf("%d")] leaves unread is the end of what it was given. *)
Lemma scanf_unread_one_line (s : string) :
  on_one_line s -> on_one_line (unread_after_scanf s).
Proof.
  intros H. unfold unread_after_scanf.
  assert (Hskip : forall t, on_one_line t -> on_one_line (CLib.skip_spaces t)).
  { induction t as [| c t IH]; intros Ht; [exact Ht |].
    cbn [CLib.skip_spaces]. destruct (CLib.isspace c); [| exact Ht].
    apply on_one_line_tail in Ht as [_ Ht]. exact (IH Ht). }
  unfold CLib.scanf_int. cbv zeta.
  pose proof (Hskip s H) as Ht.
  destruct (CLib.skip_spaces s) as [| c r]; [exact Ht |].
  pose proof (on_one_line_tail _ _ Ht) as [_ Hr].
  destruct c as [[] [] [] [] [] [] [] []];
    match goal with
    | |- context [if ?b then _ else _] => destruct b
    end;
    (exact Ht || exact Hr || (apply on_one_line_skip_digits; (exact Ht || exact Hr))).
Qed.

Lemma get_with_stdin (m : Machine) (unread : string) (r : Z) :
  get_register_value (with_stdin m unread) r = get_register_value m r.
Proof. reflexivity. Qed.

Lemma get_print (m : Machine) (e : event) (r : Z) :
  get_register_value (print m e) r = get_register_value m r.
Proof. reflexivity. Qed.

Lemma input_step (m : Machine) (inp pc : Z) :
  decode_opcode inp = 4 ->
  execute_instruction m inp pc = input m (decode_reg1 inp) (wrap32 (pc + 1)).
Proof. intros H. unfold execute_instruction. rewrite H. reflexivity. Qed.

Lemma output_step (m : Machine) (out pc : Z) :
  decode_opcode out = 5 ->
  execute_instruction m out pc =
  Next (print m (Output (decode_reg1 out) (get_register_value m (decode_reg1 out))))
       (wrap32 (pc + 1)).
Proof. intros H. unfold execute_instruction. rewrite H. reflexivity. Qed.

End Console.

(** X25: what is typed at [INP] and what [OUT] prints after it.  [INP r]
    prompts and calls [scanf("%d")], which skips white space, blank lines
    included, and reads a sign and digits.  When a number that fits [int]
    is typed, followed on its line by anything that does not go on with a
    digit, [r] takes the number, the rest of the line is dropped and
    [OUT r] prints the number.  When the first characters are no number,
    the error is reported, the rest of the line is dropped, [r] is set to 0
    and [OUT r] prints 0.  When no newline is left after the white space,
    [INP] does not return: the loop that drops the rest of the line never
    sees its end; the error has been reported by then if no number was
    typed. *)
Theorem input_then_output (m : Simulator.Machine) (inp out pc : Z) :
  Simulator.decode_opcode inp = 4 ->
  Simulator.decode_opcode out = 5 ->
  Simulator.decode_reg1 out = Simulator.decode_reg1 inp ->
  let r := Simulator.decode_reg1 inp in
  (forall blank sign number tail rest : string,
      Simulator.stdin m =
        (blank ++ sign ++ number ++ tail ++ String CLib.newline rest)%string ->
      all_chars CLib.isspace blank = true ->
      In sign [""; "+"; "-"] ->
      number <> "" ->
      all_chars CLib.isdigit number = true ->
      CLib.isdigit (CLib.head tail) = false ->
      on_one_line tail ->
      INT_MIN <= typed_number sign number <= INT_MAX ->
      exists r1 r2,
        Simulator.execute_instruction m inp pc = Next (fst r1) (snd r1) /\
        Simulator.execute_instruction (fst r1) out (snd r1) = Next (fst r2) (snd r2) /\
        Simulator.console (fst r2) =
          Simulator.console m ++
          [Simulator.InputPrompt r; Simulator.Output r (typed_number sign number)] /\
        Simulator.stdin (fst r2) = rest /\
        snd r2 = wrap32 (wrap32 (pc + 1) + 1)) /\
  (forall blank line rest : string,
      Simulator.stdin m = (blank ++ line ++ String CLib.newline rest)%string ->
      all_chars CLib.isspace blank = true ->
      line <> "" ->
      CLib.isspace (CLib.head line) = false ->
      starts_number line = false ->
      on_one_line line ->
      exists r1 r2,
        Simulator.execute_instruction m inp pc = Next (fst r1) (snd r1) /\
        Simulator.execute_instruction (fst r1) out (snd r1) = Next (fst r2) (snd r2) /\
        Simulator.console (fst r2) =
          Simulator.console m ++
          [Simulator.InputPrompt r; Simulator.InvalidInput; Simulator.Output r 0] /\
        Simulator.stdin (fst r2) = rest /\
        snd r2 = wrap32 (wrap32 (pc + 1) + 1)) /\
  (forall blank line : string,
      Simulator.stdin m = (blank ++ line)%string ->
      all_chars CLib.isspace blank = true ->
      CLib.isspace (CLib.head line) = false ->
      on_one_line line ->
      match Simulator.execute_instruction m inp pc with
      | Next _ _ => False
      | Blocked m' =>
          Simulator.console m' =
            Simulator.console m ++
            Simulator.InputPrompt r ::
            (if starts_number line then [] else [Simulator.InvalidInput])
      | Undefined => starts_number line = true
      end).
Proof.
  intros Hinp Hout Hreg r.
  pose proof (decode_reg1_range inp) as Hr. fold r in Hr.
  rewrite (input_step m inp pc Hinp). fold r.
  unfold Simulator.input. cbv zeta.
  cbn [Simulator.print Simulator.stdin Simulator.with_stdin Simulator.console
       Simulator.registers Simulator.flags Simulator.memory].
  refine (conj _ (conj _ _)).
  - (* a number *)
    intros blank sign number tail rest Hstdin Hblank Hsign Hsome Hall Htail Hline Hint.
    rewrite Hstdin.
    rewrite (scanf_number blank sign number _ Hblank Hsign Hsome Hall
               (not_digit_before_newline tail rest Htail)).
    replace ((INT_MIN <=? typed_number sign number) &&
             (typed_number sign number <=? INT_MAX)) with true
      by (symmetry; apply andb_true_intro; split; apply Z.leb_le; lia).
    rewrite (skip_line_app tail rest Hline).
    eexists (_, _). cbn [fst snd].
    eexists (_, _). cbn [fst snd].
    split; [reflexivity |].
    split; [rewrite (output_step _ out _ Hout), Hreg; fold r; reflexivity |].
    rewrite get_with_stdin, get_set_same by exact Hr.
    cbn [Simulator.print Simulator.with_stdin Simulator.console Simulator.stdin].
    rewrite set_console.
    cbn [Simulator.print Simulator.with_stdin Simulator.console].
    rewrite <- app_assoc. repeat split; reflexivity.
  - (* no number *)
    intros blank line rest Hstdin Hblank Hsome Hspace Hstart Hline.
    rewrite Hstdin.
    destruct (scanf_no_number blank line rest Hblank Hspace Hsome Hstart)
      as (skipped & unread & Hsplit & ->).
    rewrite Hsplit in Hline. apply on_one_line_suffix in Hline.
    rewrite (skip_line_app unread rest Hline).
    eexists (_, _). cbn [fst snd].
    eexists (_, _). cbn [fst snd].
    split; [reflexivity |].
    split; [rewrite (output_step _ out _ Hout), Hreg; fold r; reflexivity |].
    rewrite get_set_same by exact Hr.
    cbn [Simulator.print Simulator.console Simulator.stdin].
    rewrite set_console, set_registers_only.
    cbn [Simulator.print Simulator.with_stdin Simulator.console Simulator.stdin].
    rewrite <- !app_assoc. repeat split; reflexivity.
  - (* the input ends *)
    intros blank line Hstdin Hblank Hspace Hline.
    rewrite Hstdin.
    assert (Hscan : CLib.scanf_int (blank ++ line) = CLib.scanf_int line)
      by (unfold CLib.scanf_int; rewrite skip_spaces_app by exact Hblank; reflexivity).
    rewrite Hscan. clear Hscan.
    pose proof (scanf_unread_one_line line Hline) as Hunread.
    unfold unread_after_scanf in Hunread.
    assert (Hkind : match CLib.scanf_int line with
                    | CLib.Converted _ _ => starts_number line = true
                    | CLib.NotConverted _ => starts_number line = false
                    end).
    { destruct line as [| c s]; [reflexivity |].
      cbn [CLib.head] in Hspace.
      rewrite scanf_int_head by exact Hspace. rewrite starts_number_head.
      destruct (Ascii.eqb c "-"); [| destruct (Ascii.eqb c "+")];
        match goal with
        | |- context [if ?b then _ else _] => destruct b; reflexivity
        end. }
    destruct (CLib.scanf_int line) as [input_val unread | unread].
    + destruct ((INT_MIN <=? input_val) && (input_val <=? INT_MAX));
        [| exact Hkind].
      rewrite (skip_line_none unread Hunread).
      cbn [Simulator.console Simulator.with_stdin]. rewrite set_console.
      cbn [Simulator.print Simulator.with_stdin Simulator.console].
      rewrite Hkind. reflexivity.
    + rewrite (skip_line_none unread Hunread).
      cbn [Simulator.print Simulator.console Simulator.with_stdin]. rewrite Hkind.
      rewrite <- app_assoc. reflexivity.
Qed.

Lemma input_then_output_witness :
  (exists m',
      Simulator.execute_instruction
        (Claims.reached
           (Simulator.execute_instruction
              (Simulator.initial
                 (" +12abc" ++ String CLib.newline ("x" ++ String CLib.newline "")))
              8192 0))
        10240 1 = Next m' 2 /\
      Simulator.console m' = [Simulator.InputPrompt 0; Simulator.Output 0 12] /\
      Simulator.stdin m' = ("x" ++ String CLib.newline "")%string) /\
  (exists m',
      Simulator.execute_instruction
        (Claims.reached
           (Simulator.execute_instruction
              (Simulator.initial ("x" ++ String CLib.newline "")) 8192 0))
        10240 1 = Next m' 2 /\
      Simulator.console m' =
        [Simulator.InputPrompt 0; Simulator.InvalidInput; Simulator.Output 0 0]) /\
  (exists m',
      Simulator.execute_instruction (Simulator.initial "7") 8192 0 = Blocked m' /\
      Simulator.console m' = [Simulator.InputPrompt 0]).
Proof.
  refine (conj _ (conj _ _)).
  - pose proof (input_then_output
                  (Simulator.initial
                     (" +12abc" ++ String CLib.newline ("x" ++ String CLib.newline "")))
                  8192 10240 0 eq_refl eq_refl eq_refl) as H.
    cbv zeta in H. destruct H as (H & _ & _).
    destruct (H " " "+" "12" "abc" ("x" ++ String CLib.newline "")%string
                eq_refl eq_refl ltac:(cbn; tauto) ltac:(discriminate)
                eq_refl eq_refl eq_refl ltac:(vm_compute; split; discriminate))
      as ([m1 pc1] & [m2 pc2] & H1 & H2 & Hconsole & Hstdin & Hpc).
    cbn [fst snd] in H1, H2, Hconsole, Hstdin, Hpc.
    rewrite H1. cbn [Claims.reached].
    assert (Hpc1 : pc1 = 1) by (vm_compute in H1; congruence).
    subst pc1 pc2. exists m2.
    refine (conj H2 (conj Hconsole Hstdin)).
  - pose proof (input_then_output
                  (Simulator.initial ("x" ++ String CLib.newline ""))
                  8192 10240 0 eq_refl eq_refl eq_refl) as H.
    cbv zeta in H. destruct H as (_ & H & _).
    destruct (H "" "x" "" eq_refl eq_refl ltac:(discriminate) eq_refl eq_refl eq_refl)
      as ([m1 pc1] & [m2 pc2] & H1 & H2 & Hconsole & _ & Hpc).
    cbn [fst snd] in H1, H2, Hconsole, Hpc.
    rewrite H1. cbn [Claims.reached].
    assert (Hpc1 : pc1 = 1) by (vm_compute in H1; congruence).
    subst pc1 pc2. exists m2.
    refine (conj H2 Hconsole).
  - pose proof (input_then_output (Simulator.initial "7")
                  8192 10240 0 eq_refl eq_refl eq_refl) as H.
    cbv zeta in H. destruct H as (_ & _ & H).
    specialize (H "" "7" eq_refl eq_refl eq_refl eq_refl).
    destruct (Simulator.execute_instruction (Simulator.initial "7") 8192 0)
      as [m' pc' | m' |] eqn:Hrun; [destruct H | | discriminate Hrun].
    exists m'. split; [reflexivity | exact H].
Defined.
